(** * Tag resolution and asset staging of the agent build task

    A shallow embedding of [tasks/agent.py]: the [build] task (tag
    resolution, compiler invocation) and the [refresh_assets] task (staging
    of the runtime assets under [./bin/agent/dist]), over a small model of
    the file system and of the Python library calls the two tasks make;
    and, with them, the [run] and [omnibus_build] tasks. *)

From Stdlib Require Import Ascii String.
From stdpp Require Import base tactics option list strings gmap.

Set Warnings "-register-all,-clear-no-such-hyp".

(** ** File system

    A file system is the tree below the working directory of the task (the
    repository root: every path of [agent.py] starts with [.]).  A path is
    the list of its components; a directory is an association list from
    names to nodes, read through [get] (first binding) and written through
    [put] and [del], so that a name denotes at most one entry. *)

Definition path := list string.

Inductive node :=
  | File (data : string)
  | Dir (entries : list (string * node)).

Definition FS := node.

Fixpoint get (n : string) (es : list (string * node)) : option node :=
  match es with
  | [] => None
  | (m, c) :: es' => if decide (m = n) then Some c else get n es'
  end.

Fixpoint put (n : string) (c : node) (es : list (string * node))
  : list (string * node) :=
  match es with
  | [] => [(n, c)]
  | (m, c0) :: es' =>
      if decide (m = n) then (n, c) :: es' else (m, c0) :: put n c es'
  end.

Fixpoint del (n : string) (es : list (string * node)) : list (string * node) :=
  match es with
  | [] => []
  | (m, c) :: es' => if decide (m = n) then del n es' else (m, c) :: del n es'
  end.

Definition store (n : string) (o : option node) (es : list (string * node))
  : list (string * node) :=
  match o with Some c => put n c es | None => del n es end.

Definition entries_of (o : option node) : list (string * node) :=
  match o with Some (Dir es) => es | _ => [] end.

Definition is_dir (o : option node) : bool :=
  match o with Some (Dir _) => true | _ => false end.

Fixpoint node_at (p : path) (t : node) : option node :=
  match p with
  | [] => Some t
  | n :: p' =>
      match t with
      | Dir es => match get n es with Some c => node_at p' c | None => None end
      | File _ => None
      end
  end.

(** ** Exceptions and the task monad

    A task threads the file system and either returns or raises; the file
    system reached when an exception is raised is kept (nothing rolls
    back). *)

Inductive exn :=
  | ConfigurationError
  | OSError
  | DistutilsFileError
  | ShutilError
  | ValueError
  | UnexpectedExit.

Definition M (A : Type) : Type := FS → FS * (exn + A).

Definition ret {A} (a : A) : M A := λ fs, (fs, inr a).
Definition raise {A} (e : exn) : M A := λ fs, (fs, inl e).
Definition bind {A B} (m : M A) (k : A → M B) : M B :=
  λ fs, match m fs with
        | (fs', inr a) => k a fs'
        | (fs', inl e) => (fs', inl e)
        end.

Notation "x <- m ;; k" := (bind m (λ x, k))
  (at level 100, m at next level, right associativity).
Notation "m ;; k" := (bind m (λ _, k))
  (at level 100, right associativity).

Definition when (b : bool) (m : M unit) : M unit := if b then m else ret tt.

Fixpoint for_each {A} (l : list A) (body : A → M unit) : M unit :=
  match l with
  | [] => ret tt
  | x :: l' => body x ;; for_each l' body
  end.

Abbreviation ok := (inr tt).

(** ** The library calls

    Every call rewrites one entry of one directory.  [on_entry n T es] lets
    [T] rewrite the entry named [n] of the directory [es] ([None]: no such
    entry).  [walk mk p f n o] is the rewriting of the entry [o], named
    [n], that goes down the path [p] below it and applies [f] to the entry
    reached.  With [mk] the missing directories on the way are created
    first, as [distutils.dir_util.mkpath] does; without it a missing
    directory is an error.  A regular file on the way is an error in both
    cases. *)

Definition on_entry (n : string)
    (T : option node → option node * (exn + unit))
    (es : list (string * node)) : list (string * node) * (exn + unit) :=
  let '(o, r) := T (get n es) in (store n o es, r).

Fixpoint walk (mk : bool) (p : path)
    (f : string → option node → option node * (exn + unit))
    (n : string) (o : option node) : option node * (exn + unit) :=
  match p with
  | [] => f n o
  | m :: p' =>
      match o with
      | Some (File _) => (o, inl OSError)
      | Some (Dir es) =>
          let '(es', r) := on_entry m (walk mk p' f m) es in
          (Some (Dir es'), r)
      | None =>
          if mk then
            let '(es', r) := on_entry m (walk mk p' f m) [] in
            (Some (Dir es'), r)
          else (o, inl OSError)
      end
  end.

Definition at_entry (mk : bool) (p : path)
    (f : string → option node → option node * (exn + unit)) : M unit :=
  λ t, match p, t with
       | n :: p', Dir es =>
           let '(es', r) := on_entry n (walk mk p' f n) es in (Dir es', r)
       | _, _ => (t, inl OSError)
       end.

(** Copying a regular file [File x] named [n] onto the entry [o]
    ([shutil.copy], [distutils.file_util.copy_file]): onto a directory the
    file goes inside it under its own name, and fails there on a directory
    of that name; anything else is replaced. *)

Definition copy_file (n : string) (x : string) (o : option node)
  : option node * (exn + unit) :=
  match o with
  | Some (Dir ds) =>
      match get n ds with
      | Some (Dir _) => (o, inl OSError)
      | _ => (Some (Dir (put n (File x) ds)), ok)
      end
  | _ => (Some (File x), ok)
  end.

(** The loop of [distutils.dir_util.copy_tree] over [os.listdir(src)]:
    every name once, names starting with [.nfs] skipped, the first failure
    stops the loop and leaves what was copied so far. *)

Section copy_loop.
Context (copy : string → node → option node → option node * (exn + unit)).

Fixpoint copy_loop (seen : list string) (cs ds : list (string * node))
  : list (string * node) * (exn + unit) :=
  match cs with
  | [] => (ds, ok)
  | (m, c) :: cs' =>
      if decide (m ∈ seen) then copy_loop seen cs' ds
      else if String.prefix ".nfs" m then copy_loop (m :: seen) cs' ds
      else
        match on_entry m (copy m c) ds with
        | (ds', inr _) => copy_loop (m :: seen) cs' ds'
        | (ds', inl e) => (ds', inl e)
        end
  end.
End copy_loop.

(** [copy_node n c o]: what becomes of the entry [o] named [n] of the
    destination when the source entry [c] of that name is copied onto it.
    A directory is created if missing, fails on a regular file, and is
    merged into otherwise. *)

Fixpoint copy_node (n : string) (c : node) (o : option node) {struct c}
  : option node * (exn + unit) :=
  match c with
  | File x => copy_file n x o
  | Dir cs =>
      match o with
      | Some (File _) => (o, inl DistutilsFileError)
      | _ =>
          let '(ds, r) := copy_loop copy_node [] cs (entries_of o) in
          (Some (Dir ds), r)
      end
  end.

Definition os_path_exists (p : path) : M bool :=
  λ fs, (fs, inr (bool_decide (is_Some (node_at p fs)))).

Definition os_mkdir (p : path) : M unit :=
  at_entry false p (λ _ o,
    match o with
    | None => (Some (Dir []), ok)
    | Some _ => (o, inl OSError)
    end).

Definition shutil_rmtree (p : path) : M unit :=
  at_entry false p (λ _ o,
    match o with
    | Some (Dir _) => (None, ok)
    | _ => (o, inl OSError)
    end).

(** [copy_tree(src, dst)]: [src] must be a directory; [mkpath(dst)], then
    the loop.  The listing of [src] is the one read when the call starts,
    which is what the call sees as long as [dst] is not inside [src]; and
    [mkpath] creates every missing directory, as it does in a process that
    has not removed a directory it created (a task runs once per
    process). *)

Definition copy_tree_from (c : option node) (dst : path) : M unit :=
  match c with
  | Some (Dir cs) => at_entry true dst (λ n, copy_node n (Dir cs))
  | _ => raise DistutilsFileError
  end.

Definition copy_tree (src dst : path) : M unit :=
  λ fs, copy_tree_from (node_at src fs) dst fs.

(** [shutil.copy(src, dst)]: [src] must be a regular file and the parent
    of [dst] a directory. *)

Definition shutil_copy_from (c : option node) (name : string) (dst : path)
  : M unit :=
  match c with
  | Some (File x) => at_entry false dst (λ _, copy_file name x)
  | _ => raise OSError
  end.

Definition shutil_copy (src dst : path) : M unit :=
  λ fs, shutil_copy_from (node_at src fs) (List.last src EmptyString) dst fs.

(** [shutil.move(src, dst)] within one file system: into [dst] if [dst] is
    a directory (an entry of that name there is an error), else an
    [os.rename] onto [dst], which replaces a regular file. *)

Definition shutil_move (src dst : path) : M unit :=
  λ fs, match node_at src fs with
        | None => (fs, inl OSError)
        | Some c =>
            let into := is_dir (node_at dst fs) in
            let real_dst := if into then dst ++ [List.last src EmptyString] else dst in
            if decide (src = real_dst) then
              (fs, if into then inl ShutilError else ok)
            else
              (at_entry false real_dst (λ _ o,
                 match o with
                 | None => (Some c, ok)
                 | Some (File _) =>
                     if into then (o, inl ShutilError)
                     else if is_dir (Some c) then (o, inl OSError)
                     else (Some c, ok)
                 | Some (Dir _) => (o, inl (if into then ShutilError else OSError))
                 end) ;;
               at_entry false src (λ _ _, (None, ok))) fs
        end.

(** ** The host

    [sys.platform] and the first component of
    [platform.linux_distribution()] (the empty string where no
    distribution is detected, as on hosts that are not Linux). *)

Record host := {
  sys_platform : string;
  linux_distribution : string;
}.

Definition is_linux (h : host) : bool := String.prefix "linux" (sys_platform h).

(** ** Constants of [agent.py] *)

Definition BIN_PATH : path := ["bin"; "agent"].

Definition DEFAULT_BUILD_TAGS : list string :=
  [ "apm"; "consul"; "containerd"; "python"; "cri"; "docker"; "ec2"; "etcd";
    "gce"; "jmx"; "kubeapiserver"; "kubelet"; "log"; "netcgo"; "systemd";
    "process"; "zk"; "zlib"; "secrets" ].

Definition AGENT_CORECHECKS : list string :=
  [ "containerd"; "cpu"; "cri"; "docker"; "file_handle"; "go_expvar"; "io";
    "jmx"; "kubernetes_apiserver"; "load"; "memory"; "ntp"; "systemd";
    "uptime"; "winproc" ].

Definition PUPPY_CORECHECKS : list string :=
  [ "cpu"; "disk"; "io"; "load"; "memory"; "network"; "ntp"; "uptime" ].

(** ** [refresh_assets] *)

Definition dist_folder : path := BIN_PATH ++ ["dist"].

Definition agent_dist : path := ["cmd"; "agent"; "dist"].

Definition conf_d (check : string) : path := ["conf.d"; check +:+ ".d"].

Definition refresh_assets (h : host) (build_tags : list string)
    (development puppy : bool) : M unit :=
  (* ensure BIN_PATH exists *)
  bin_exists <- os_path_exists BIN_PATH ;;
  when (negb bin_exists) (os_mkdir BIN_PATH) ;;
  dist_exists <- os_path_exists dist_folder ;;
  when dist_exists (shutil_rmtree dist_folder) ;;
  os_mkdir dist_folder ;;
  when (bool_decide ("python" ∈ build_tags))
    (copy_tree (agent_dist ++ ["checks"]) (dist_folder ++ ["checks"]) ;;
     copy_tree (agent_dist ++ ["utils"]) (dist_folder ++ ["utils"]) ;;
     shutil_copy (agent_dist ++ ["config.py"]) (dist_folder ++ ["config.py"])) ;;
  when (negb puppy)
    (shutil_copy (agent_dist ++ ["dd-agent"]) (dist_folder ++ ["dd-agent"]) ;;
     (* copy the dd-agent placeholder to the bin folder *)
     shutil_move (dist_folder ++ ["dd-agent"]) (BIN_PATH ++ ["dd-agent"])) ;;
  (* System probe not supported on windows *)
  when (is_linux h)
    (shutil_copy (agent_dist ++ ["system-probe.yaml"])
                 (dist_folder ++ ["system-probe.yaml"])) ;;
  shutil_copy (agent_dist ++ ["datadog.yaml"]) (dist_folder ++ ["datadog.yaml"]) ;;
  for_each (if negb puppy then AGENT_CORECHECKS else PUPPY_CORECHECKS)
    (λ check, copy_tree (agent_dist ++ conf_d check)
                        (dist_folder ++ conf_d check)) ;;
  when (bool_decide ("apm" ∈ build_tags))
    (shutil_copy (agent_dist ++ ["conf.d"; "apm.yaml.default"])
                 (dist_folder ++ ["conf.d"; "apm.yaml.default"])) ;;
  copy_tree ["pkg"; "status"; "dist"] dist_folder ;;
  copy_tree ["cmd"; "agent"; "gui"; "views"] (dist_folder ++ ["views"]) ;;
  when development (copy_tree ["dev"; "dist"] dist_folder).

(** ** Strings *)

(** [s.split(sep)] for a one-character separator: every occurrence splits,
    so the result is never empty and may hold empty strings. *)

Fixpoint split_on (sep : ascii) (s : string) : list string :=
  match s with
  | EmptyString => [EmptyString]
  | String c s' =>
      if decide (c = sep) then EmptyString :: split_on sep s'
      else match split_on sep s' with
           | [] => [String c EmptyString]
           | w :: ws => String c w :: ws
           end
  end.

(** [sep.join(l)] *)

Fixpoint join (sep : string) (l : list string) : string :=
  match l with
  | [] => EmptyString
  | [x] => x
  | x :: l' => x +:+ sep +:+ join sep l'
  end.

Definition lower_ascii (c : ascii) : ascii :=
  let n := nat_of_ascii c in
  if bool_decide (65 ≤ n ≤ 90) then ascii_of_nat (n + 32) else c.

(** [s.lower()] on ASCII letters *)

Fixpoint lower (s : string) : string :=
  match s with
  | EmptyString => EmptyString
  | String c s' => String (lower_ascii c) (lower s')
  end.

Definition dquote : string := String (ascii_of_nat 34) EmptyString.

(** The first occurrence of every element, in order. *)

Fixpoint unique (l : list string) : list string :=
  match l with
  | [] => []
  | x :: l' => x :: filter (λ y, y ≠ x) (unique l')
  end.

(** ** [build] *)

(** The tag catalog of [tasks/build_tags.py], which is not among the
    sources.  The first three constants are the ones [build] imports from
    it, taken as they come.

    Modelled from the spec: [ALL_TAGS] and [MINIMAL_TAGS], the registry of
    all known feature tags and the tag set of the minimal profile
    ([AllTags()] and [MinimalTagSet()] of the TagCatalog, §4.1), which
    [tasks/build_tags.py] holds. *)

Record tag_catalog := {
  LINUX_ONLY_TAGS : list string;
  REDHAT_AND_DEBIAN_ONLY_TAGS : list string;
  REDHAT_AND_DEBIAN_DIST : list string;
  ALL_TAGS : list string;
  MINIMAL_TAGS : list string;
}.

(** What [build] gets from [tasks/utils.py] and from [invoke]:
    [get_build_flags] gives the linker flags, the compiler flags and the
    environment, [bin_name("agent", android=False)] the name of the
    binary, [get_version_numeric_only] the version; [ctx.run] runs a
    command line, with whatever effect on the file system the command
    has. *)

Record invoke_context := {
  ldflags : string;
  gcflags : string;
  env : gmap string string;
  REPO_PATH : string;
  bin_name : string;
  version_numeric_only : string;
  ctx_run : string → gmap string string → M unit;
}.

Section build.

Context (cat : tag_catalog) (ctx : invoke_context).

(** Modelled from the spec: the PlatformConstraintResolver (§4.2), the
    tags that must not appear in a resolved set on this host.  The
    operating-system-restricted group when the host is not Linux; the
    distribution-restricted group when the distribution is not on the
    whitelist, an undetected distribution counting as not on it. *)
Definition PlatformConstraintResolver (h : host) : list string :=
  (if is_linux h then [] else (LINUX_ONLY_TAGS cat)) ++
  (if decide (lower (linux_distribution h) ∈ REDHAT_AND_DEBIAN_DIST cat)
   then [] else (REDHAT_AND_DEBIAN_ONLY_TAGS cat)).

(** Modelled from the spec: [get_build_tags] of [tasks/build_tags.py]
    (§4.3, steps 2 to 5, and its contract): a tag of either list that the
    catalog does not know is a [ConfigurationError]; otherwise the
    included tags that are not excluded, without duplicates, in the order
    of the include list. *)
Definition get_build_tags (include exclude : list string)
  : exn + list string :=
  if decide (Forall (λ t, t ∈ ALL_TAGS cat) (include ++ exclude))
  then inr (unique (filter (λ t, t ∉ exclude) include))
  else inl ConfigurationError.

(** Modelled from the spec: [get_default_build_tags] of
    [tasks/build_tags.py].  With the minimal profile [build] leaves the
    whole resolution to this call, for which §4.3 (steps 1, 4 and 5)
    gives [MinimalTagSet()] without the tags of the platform constraints,
    without duplicates; without the profile, the default set likewise. *)
Definition get_default_build_tags (h : host) (puppy : bool) : list string :=
  unique (filter (λ t, t ∉ PlatformConstraintResolver h)
                 (if puppy then (MINIMAL_TAGS cat) else DEFAULT_BUILD_TAGS)).

(** [for ex in tags: if ex not in build_exclude: build_exclude.append(ex)] *)
Definition append_missing (tags build_exclude : list string) : list string :=
  foldl (λ acc ex, if decide (ex ∈ acc) then acc else acc ++ [ex])
        build_exclude tags.

(** Lines 94 to 104: the exclude list after the platform checks. *)
Definition platform_exclude (h : host) (build_exclude : list string)
  : list string :=
  let build_exclude :=
    if negb (is_linux h) then append_missing (LINUX_ONLY_TAGS cat) build_exclude
    else build_exclude in
  (* remove all tags that are only available on debian distributions *)
  let distname := lower (linux_distribution h) in
  if decide (distname ∈ REDHAT_AND_DEBIAN_DIST cat) then build_exclude
  else append_missing (REDHAT_AND_DEBIAN_ONLY_TAGS cat) build_exclude.

(** Lines 88 and 89: the two lists as [build] reads them. *)
Definition include_list (build_include : option string) : list string :=
  match build_include with
  | None => DEFAULT_BUILD_TAGS
  | Some s => split_on "," s
  end.

Definition exclude_list (build_exclude : option string) : list string :=
  match build_exclude with
  | None => []
  | Some s => split_on "," s
  end.

(** The tag set [build] compiles and stages with: lines 88, 89, 94 to 104
    and 124 to 128, which touch nothing but the two lists. *)
Definition resolve_build_tags (h : host)
    (build_include build_exclude : option string) (puppy : bool)
  : exn + list string :=
  let build_include := include_list build_include in
  let build_exclude := exclude_list build_exclude in
  let build_exclude := platform_exclude h build_exclude in
  if puppy then
    (* Puppy mode overrides whatever passed through `--build-exclude`
       and `--build-include` *)
    inr (get_default_build_tags h true)
  else get_build_tags build_include build_exclude.

Definition lift {A} (r : exn + A) : M A :=
  match r with inr a => ret a | inl e => raise e end.

Definition windows_resources : M unit :=
  match split_on "." (version_numeric_only ctx) with
  | [build_maj; build_min; build_patch] =>
      ctx_run ctx
        "windmc --target pe-x86-64 -r cmd/agent cmd/agent/agentmsg.mc "
        (env ctx) ;;
      ctx_run ctx
        ("windres --define MAJ_VER=" +:+ build_maj +:+
         " --define MIN_VER=" +:+ build_min +:+
         " --define PATCH_VER=" +:+ build_patch +:+ " " +:+
         "-i cmd/agent/agent.rc --target=pe-x86-64 -O coff -o cmd/agent/rsrc.syso")
        (env ctx)
  | _ => raise ValueError
  end.

(** [os.path.join(BIN_PATH, bin_name("agent", android=False))] *)
Definition agent_bin : string := join "/" ("." :: BIN_PATH ++ [bin_name ctx]).

Definition go_build_cmd (rebuild race precompile_only : bool)
    (build_tags : list string) : string :=
  "go build " +:+ (if race then "-race" else EmptyString) +:+ " " +:+
  (if rebuild then "-a" else if precompile_only then "-i" else EmptyString) +:+
  " -tags " +:+ dquote +:+ join " " build_tags +:+ dquote +:+ " " +:+
  "-o " +:+ agent_bin +:+
  " -gcflags=" +:+ dquote +:+ gcflags ctx +:+ dquote +:+
  " -ldflags=" +:+ dquote +:+ ldflags ctx +:+ dquote +:+ " " +:+
  REPO_PATH ctx +:+ "/cmd/agent".

Definition build (h : host) (rebuild race : bool)
    (build_include build_exclude : option string)
    (puppy development precompile_only skip_assets : bool) : M unit :=
  when (bool_decide (sys_platform h = "win32")) windows_resources ;;
  build_tags <- lift (resolve_build_tags h build_include build_exclude puppy) ;;
  ctx_run ctx (go_build_cmd rebuild race precompile_only build_tags) (env ctx) ;;
  (* Render the configuration file template *)
  ctx_run ctx ("go generate " +:+ REPO_PATH ctx +:+ "/cmd/agent")
          (<["GOOS" := EmptyString]> (<["GOARCH" := EmptyString]> (env ctx))) ;;
  when (negb skip_assets)
    (refresh_assets h build_tags development puppy).

End build.

(** ** The staging manifest

    [refresh_assets] read as a table: each entry has a trigger and an
    action, and staging runs the actions of the selected entries in the
    order of the table.  The triggers are the conditions the code tests:
    besides "always", "minimal-only" and a feature tag, there are "not
    minimal" (the full list of core checks and the launcher stub), "host is
    Linux" and "development build". *)

Inductive trigger :=
  | Always
  | MinimalOnly
  | FullOnly
  | RequiresTag (t : string)
  | PrimaryOS
  | Development.

(** Destinations are relative to the output root [dist_folder]; the empty
    path is the root itself.  [Relocate src name] copies the file [src]
    into the root as [name] and then moves it one level up, next to the
    root. *)

Inductive action :=
  | CopyTree (src dst : path)
  | CopyFile (src dst : path)
  | Relocate (src : path) (name : string).

Definition selected (h : host) (tags : list string) (development puppy : bool)
    (tr : trigger) : bool :=
  match tr with
  | Always => true
  | MinimalOnly => puppy
  | FullOnly => negb puppy
  | RequiresTag t => bool_decide (t ∈ tags)
  | PrimaryOS => is_linux h
  | Development => development
  end.

Definition check_entry (tr : trigger) (check : string) : trigger * action :=
  (tr, CopyTree (agent_dist ++ conf_d check) (conf_d check)).

Definition manifest : list (trigger * action) :=
  [ (RequiresTag "python", CopyTree (agent_dist ++ ["checks"]) ["checks"]);
    (RequiresTag "python", CopyTree (agent_dist ++ ["utils"]) ["utils"]);
    (RequiresTag "python", CopyFile (agent_dist ++ ["config.py"]) ["config.py"]);
    (FullOnly, Relocate (agent_dist ++ ["dd-agent"]) "dd-agent");
    (PrimaryOS, CopyFile (agent_dist ++ ["system-probe.yaml"])
                         ["system-probe.yaml"]);
    (Always, CopyFile (agent_dist ++ ["datadog.yaml"]) ["datadog.yaml"]) ]
  ++ map (check_entry FullOnly) AGENT_CORECHECKS
  ++ map (check_entry MinimalOnly) PUPPY_CORECHECKS
  ++ [ (RequiresTag "apm", CopyFile (agent_dist ++ ["conf.d"; "apm.yaml.default"])
                                    ["conf.d"; "apm.yaml.default"]);
       (Always, CopyTree ["pkg"; "status"; "dist"] []);
       (Always, CopyTree ["cmd"; "agent"; "gui"; "views"] ["views"]);
       (Development, CopyTree ["dev"; "dist"] []) ].

Definition EntriesFor (h : host) (tags : list string) (development puppy : bool)
  : list action :=
  (filter (λ e, selected h tags development puppy e.1 = true) manifest).*2.

Definition exec (a : action) : M unit :=
  match a with
  | CopyTree src dst => copy_tree src (dist_folder ++ dst)
  | CopyFile src dst => shutil_copy src (dist_folder ++ dst)
  | Relocate src name =>
      shutil_copy src (dist_folder ++ [name]) ;;
      shutil_move (dist_folder ++ [name]) (BIN_PATH ++ [name])
  end.

(** Wipe before populate: the head of [refresh_assets]. *)

Definition wipe : M unit :=
  bin_exists <- os_path_exists BIN_PATH ;;
  when (negb bin_exists) (os_mkdir BIN_PATH) ;;
  dist_exists <- os_path_exists dist_folder ;;
  when dist_exists (shutil_rmtree dist_folder) ;;
  os_mkdir dist_folder.

Definition Stage (entries : list action) : M unit :=
  wipe ;; for_each entries exec.

(** [staged fs q]: the path [q] exists below the output root. *)

Definition staged (fs : FS) (q : path) : Prop :=
  is_Some (node_at (dist_folder ++ q) fs).

(** What [os.listdir] and the copy loop see of a directory: the entry of a
    name, unless the name starts with [.nfs]. *)

Definition listed (k : string) (cs : list (string * node)) : option node :=
  if String.prefix ".nfs" k then None else get k cs.

(** What an action puts below the output root, at the top level and inside
    [conf.d]: the directories down to its destination and, for an overlay
    onto the root itself, the listed entries of its source, where a regular
    file named as a directory of the root goes inside that directory. *)

Definition provides (fs : FS) (a : action) (q : path) : Prop :=
  match a with
  | CopyTree src [] =>
      match q with
      | [k] => is_Some (listed k (entries_of (node_at src fs)))
      | [k; m] =>
          match listed k (entries_of (node_at src fs)) with
          | Some (Dir cs) => is_Some (listed m cs)
          | Some (File _) => m = k
          | None => False
          end
      | _ => False
      end
  | CopyTree _ dst | CopyFile _ dst => q ≠ [] ∧ q `prefix_of` dst
  | Relocate _ _ => False
  end.

(** The three triggers the specification names. *)

Definition spec_trigger (tr : trigger) : Prop :=
  match tr with
  | Always | MinimalOnly | RequiresTag _ => True
  | _ => False
  end.

(** *** The effect of an action on one entry of the output root

    [key_step fs a k o]: what the action [a], reading its source in [fs],
    makes of the entry [o] named [k] of the output root. *)

Definition key_step (fs : FS) (a : action) (k : string) (o : option node)
  : option node * (exn + unit) :=
  match a with
  | CopyTree src [] =>
      match node_at src fs with
      | Some (Dir cs) =>
          match listed k cs with
          | Some c => copy_node k c o
          | None => (o, ok)
          end
      | _ => (o, inl DistutilsFileError)
      end
  | CopyTree src (h :: p) =>
      if decide (k = h) then
        match node_at src fs with
        | Some (Dir cs) => walk true p (λ n, copy_node n (Dir cs)) h o
        | _ => (o, inl DistutilsFileError)
        end
      else (o, ok)
  | CopyFile src (h :: p) =>
      if decide (k = h) then
        match node_at src fs with
        | Some (File x) =>
            walk false p (λ _, copy_file (List.last src EmptyString) x) h o
        | _ => (o, inl OSError)
        end
      else (o, ok)
  | CopyFile src [] => (o, inl OSError)
  | Relocate src name => if decide (k = name) then (None, ok) else (o, ok)
  end.

Fixpoint key_run (fs : FS) (acts : list action) (k : string) (o : option node)
  : option node * (exn + unit) :=
  match acts with
  | [] => (o, ok)
  | a :: acts' =>
      match key_step fs a k o with
      | (o', inr _) => key_run fs acts' k o'
      | bad => bad
      end
  end.

(** Two paths part ways: neither is a prefix of the other. *)

Fixpoint apart (p q : path) : bool :=
  match p, q with
  | a :: p', b :: q' => if decide (a = b) then apart p' q' else true
  | _, _ => false
  end.

(** *** Views used in the proofs *)

(** [view S B D]: [B] is the directory [BIN_PATH] of [S] and [D] its
    output root. *)

Definition view (S : FS) (B D : list (string * node)) : Prop :=
  node_at BIN_PATH S = Some (Dir B) ∧ get "dist" B = Some (Dir D).

(** The sources of the table lie outside [bin]; a file is not copied onto
    the root itself, nor anything relocated onto it. *)

Definition well_formed (a : action) : Prop :=
  match a with
  | CopyTree src _ => apart ["bin"] src = true
  | CopyFile src dst => apart ["bin"] src = true ∧ dst ≠ []
  | Relocate src name => apart ["bin"] src = true ∧ name ≠ "dist"
  end.

Definition relocates (a : action) (k : string) : Prop :=
  match a with Relocate _ n => k = n | _ => False end.

Definition unchanged_outside (d : path) (S S' : FS) : Prop :=
  ∀ q, apart d q = true → node_at q S' = node_at q S.

(** The action does not touch the entry [k] of the output root. *)

Definition misses (a : action) (k : string) : Prop :=
  match a with
  | CopyTree _ (h :: _) | CopyFile _ (h :: _) => h ≠ k
  | Relocate _ n => n ≠ k
  | _ => False
  end.

(** The shapes of the table: an overlay onto the root, an entry of the
    root other than [conf.d], or an entry of [conf.d]. *)

Definition flat (a : action) : Prop :=
  match a with
  | CopyTree _ [] => True
  | CopyTree _ [h] | CopyFile _ [h] => h ≠ "conf.d"
  | CopyTree _ [h; _] | CopyFile _ [h; _] => h = "conf.d"
  | Relocate _ n => n ≠ "conf.d"
  | _ => False
  end.

Definition check_actions (checks : list string) : list action :=
  (λ check, CopyTree (agent_dist ++ conf_d check) (conf_d check)) <$> checks.

(** The selected entries before and after the launcher stub. *)

Definition before_stub (tags : list string) : list action :=
  if bool_decide ("python" ∈ tags)
  then [ CopyTree (agent_dist ++ ["checks"]) ["checks"];
         CopyTree (agent_dist ++ ["utils"]) ["utils"];
         CopyFile (agent_dist ++ ["config.py"]) ["config.py"] ]
  else [].

Definition after_stub (h : host) (tags : list string) (dev puppy : bool)
  : list action :=
  (if is_linux h
   then [ CopyFile (agent_dist ++ ["system-probe.yaml"]) ["system-probe.yaml"] ]
   else []) ++
  [ CopyFile (agent_dist ++ ["datadog.yaml"]) ["datadog.yaml"] ] ++
  check_actions (if negb puppy then AGENT_CORECHECKS else PUPPY_CORECHECKS) ++
  (if bool_decide ("apm" ∈ tags)
   then [ CopyFile (agent_dist ++ ["conf.d"; "apm.yaml.default"])
                   ["conf.d"; "apm.yaml.default"] ]
   else []) ++
  [ CopyTree ["pkg"; "status"; "dist"] [];
    CopyTree ["cmd"; "agent"; "gui"; "views"] ["views"] ] ++
  (if dev then [ CopyTree ["dev"; "dist"] [] ] else []).

(** Two states of the entry [conf.d] that differ at most in
    [apm.yaml.default]. *)

Definition same_checks (o1 o2 : option node) : Prop :=
  o1 = o2 ∨
  ∃ d1 d2, o1 = Some (Dir d1) ∧ o2 = Some (Dir d2) ∧
    ∀ m, m ≠ "apm.yaml.default" → get m d1 = get m d2.

Definition tag_neutral (a : action) : Prop :=
  misses a "conf.d" ∨ ∃ src, a = CopyFile src ["conf.d"; "apm.yaml.default"].

Definition common_ok (a : action) : Prop :=
  flat a ∧
  match a with
  | CopyTree _ [_; x] | CopyFile _ [_; x] => x ≠ "apm.yaml.default"
  | _ => True
  end.

Definition neutral_entry (e : trigger * action) : Prop :=
  match e.1 with
  | RequiresTag _ => tag_neutral e.2
  | _ => common_ok e.2
  end.

(** ** Sample data *)

Definition leaf (n : string) : node := Dir [(n, File "x")].

Definition sample_conf_d : node :=
  Dir (("apm.yaml.default", File "apm") ::
       map (λ c, (c +:+ ".d", leaf "conf.yaml.default"))
           (AGENT_CORECHECKS ++ ["disk"; "network"])).

(** A checkout: the sources [refresh_assets] reads, [status] as the
    content of [pkg/status/dist] and [bin] as the content of [bin]. *)

Definition checkout (status bin : list (string * node)) : FS :=
  Dir [ ("cmd", Dir [ ("agent", Dir [
           ("dist", Dir [ ("checks", leaf "c.py"); ("utils", leaf "u.py");
                          ("config.py", File "cfg"); ("dd-agent", File "stub");
                          ("system-probe.yaml", File "sp");
                          ("datadog.yaml", File "dd");
                          ("conf.d", sample_conf_d) ]);
           ("gui", Dir [ ("views", leaf "index.html") ]) ]) ]);
        ("pkg", Dir [ ("status", Dir [ ("dist", Dir status) ]) ]);
        ("dev", Dir [ ("dist", Dir [ ("README.md", File "r") ]) ]);
        ("bin", Dir bin) ].

Definition sample_fs : FS := checkout [ ("templates", leaf "t.tmpl") ] [].

Definition linux_host : host :=
  {| sys_platform := "linux2"; linux_distribution := "Ubuntu" |}.

Definition darwin_host : host :=
  {| sys_platform := "darwin"; linux_distribution := EmptyString |}.


(** A catalog: the default tags and a few more, [zlib] alone for the
    minimal profile. *)

Definition sample_catalog : tag_catalog :=
  {| LINUX_ONLY_TAGS := ["containerd"; "cri"; "netcgo"; "systemd"];
     REDHAT_AND_DEBIAN_ONLY_TAGS := ["systemd"];
     REDHAT_AND_DEBIAN_DIST := ["debian"; "ubuntu"; "centos"; "redhat"];
     ALL_TAGS := DEFAULT_BUILD_TAGS ++ ["clusterchecks"; "snmp"];
     MINIMAL_TAGS := ["zlib"] |}.

(** A collaborator that leaves a trace: every command creates (or
    replaces) the file [ran] in the working directory. *)


Definition silent_run (cmd : string) (env : gmap string string) : M unit :=
  ret tt.

Definition sample_context
    (run : string → gmap string string → M unit) : invoke_context :=
  {| ldflags := "-s"; gcflags := "-N"; env := ∅;
     REPO_PATH := "github.com/DataDog/datadog-agent";
     bin_name := "agent";
     version_numeric_only := "6.0.0";
     ctx_run := run |}.

(** The names a run leaves in a directory. *)

Definition listing (p : path) (r : FS * (exn + unit)) : list string :=
  match node_at p r.1 with
  | Some (Dir es) => es.*1
  | _ => []
  end.

(** ** [run] *)

(** [os.path.join] puts [os.sep] between the components: a backslash on
    win32, a slash elsewhere. *)

Definition os_sep (h : host) : string :=
  if bool_decide (sys_platform h = "win32")
  then String (ascii_of_nat 92) EmptyString else "/".

(** [run] passes six arguments to [build], which takes the defaults for
    the rest: [development=True], [precompile_only=False],
    [skip_assets=False].  [launcher] is [bin_name("agent")], from
    [tasks/utils.py]; the command gets no environment of its own. *)

Definition run (cat : tag_catalog) (ctx : invoke_context) (h : host)
    (launcher : string) (rebuild race : bool)
    (build_include build_exclude : option string)
    (puppy skip_build : bool) : M unit :=
  when (negb skip_build)
    (build cat ctx h rebuild race build_include build_exclude puppy
           true false false) ;;
  ctx_run ctx (join (os_sep h) ("." :: BIN_PATH ++ [launcher])) ∅.

(** ** [omnibus_build] *)

(** What [omnibus_build] gets from [tasks/go.py], [tasks/utils.py] and the
    process: [deps(ctx, no_checks=True)], [load_release_versions(ctx, v)],
    [get_version(ctx, include_git=True, url_safe=True)] and
    [os.environ]. *)

Record omnibus_collaborators := {
  deps_no_checks : M unit;
  load_release_versions : string → M (gmap string string);
  get_version_url_safe : M string;
  environ : gmap string string;
}.

(** The truth value of an optional string: [None] and the empty string
    are false. *)

Definition truthy (o : option string) : bool :=
  match o with
  | Some (String _ _) => true
  | _ => false
  end.

(** [a or b] *)

Definition py_or (a b : option string) : option string :=
  if truthy a then a else b.

(** [os.remove(p)]: a regular file is removed, anything else is an
    error. *)

Definition os_remove (p : path) : M unit :=
  at_entry false p (λ _ o,
    match o with
    | Some (File _) => (None, ok)
    | _ => (o, inl OSError)
    end).

(** [try: m except Exception: pass] *)

Definition suppress (m : M unit) : M unit := λ fs, ((m fs).1, ok).

(** Inside [with ctx.cd(d)], [ctx.run(cmd)] runs [cd d && cmd]: the
    context prefixes the command lines it runs and leaves the working
    directory of the process, which [os.remove] resolves its path in,
    where it is. *)

Definition in_cd (d cmd : string) : string := "cd " +:+ d +:+ " && " +:+ cmd.

Definition omnibus_build (ctx : invoke_context) (col : omnibus_collaborators)
    (h : host) (puppy : bool) (log_level : string)
    (base_dir gem_path : option string) (skip_deps skip_sign : bool)
    (release_version : string) (omnibus_s3_cache : bool) : M unit :=
  when (negb skip_deps) (deps_no_checks col) ;;
  (* omnibus config overrides *)
  let base_dir := py_or base_dir (environ col !! "OMNIBUS_BASE_DIR") in
  let overrides :=
    if truthy base_dir then ["base_dir:" +:+ default EmptyString base_dir]
    else [] in
  let overrides_cmd :=
    match overrides with
    | [] => EmptyString
    | _ => "--override=" +:+ join " " overrides
    end in
  (* make sure bundle install starts from a clean state *)
  suppress (os_remove ["Gemfile.lock"]) ;;
  env <- load_release_versions col release_version ;;
  let cmd :=
    "bundle install" +:+
    (if truthy gem_path then " --path " +:+ default EmptyString gem_path
     else EmptyString) in
  ctx_run ctx (in_cd "omnibus" cmd) env ;;
  let omnibus :=
    if bool_decide (sys_platform h = "win32") then "bundle exec omnibus.bat"
    else "bundle exec omnibus" in
  let populate_s3_cache :=
    if omnibus_s3_cache then " --populate-s3-cache " else EmptyString in
  let env := if skip_sign then <["SKIP_SIGN_MAC" := "true"]> env else env in
  package_version <- get_version_url_safe col ;;
  let env := <["PACKAGE_VERSION" := package_version]> env in
  ctx_run ctx
    (in_cd "omnibus"
       (omnibus +:+ " build " +:+ (if puppy then "puppy" else "agent") +:+
        " --log-level=" +:+ log_level +:+ " " +:+ populate_s3_cache +:+
        " " +:+ overrides_cmd))
    env.

(** The collaborators of [omnibus_build] leave the path [q] as it is, and
    they all return. *)

Definition collaborators_leave (ctx : invoke_context)
    (col : omnibus_collaborators) (q : path) : Prop :=
  (∀ S, node_at q (deps_no_checks col S).1 = node_at q S) ∧
  (∀ v S, node_at q (load_release_versions col v S).1 = node_at q S) ∧
  (∀ S, node_at q (get_version_url_safe col S).1 = node_at q S) ∧
  (∀ cmd e S, node_at q (ctx_run ctx cmd e S).1 = node_at q S).

Definition collaborators_return (ctx : invoke_context)
    (col : omnibus_collaborators) : Prop :=
  (∀ S, (deps_no_checks col S).2 = ok) ∧
  (∀ v S, ∃ e, (load_release_versions col v S).2 = inr e) ∧
  (∀ S, ∃ v, (get_version_url_safe col S).2 = inr v) ∧
  (∀ cmd e S, (ctx_run ctx cmd e S).2 = ok).

(** Equality of triggers and actions is decidable. *)

#[global] Instance trigger_eq_dec : EqDecision trigger.
Proof. solve_decision. Defined.

#[global] Instance action_eq_dec : EqDecision action.
Proof. solve_decision. Defined.

(** *** Notions used in the statements *)

(** The character [c] does not occur in [s]. *)

Fixpoint free_of (c : ascii) (s : string) : bool :=
  match s with
  | EmptyString => true
  | String a s' => negb (bool_decide (a = c)) && free_of c s'
  end.

(** The node at a path below an entry that may be missing. *)

Definition node_below (q : path) (o : option node) : option node :=
  match o with Some c => node_at q c | None => None end.

(** A computation that leaves the paths satisfying [keep] as they are,
    whatever its outcome. *)

Definition leaves {A} (keep : path → Prop) (m : M A) : Prop :=
  ∀ S q, keep q → node_at q (m S).1 = node_at q S.

(** The places [refresh_assets] writes to: the output root and the
    relocated launcher stub. *)

Definition outside_staging (q : path) : bool :=
  apart dist_folder q && apart (BIN_PATH ++ ["dd-agent"]) q.

(** What a path holds: nothing, a directory, or a regular file with its
    content. *)

Definition shape (o : option node) : option (option string) :=
  match o with
  | None => None
  | Some (Dir _) => Some None
  | Some (File x) => Some (Some x)
  end.

(** No component of the path starts with [.nfs]. *)

Definition no_nfs (q : path) : bool :=
  forallb (λ k, negb (String.prefix ".nfs" k)) q.

(** Nothing in the way of a run: [bin/agent] is a directory whose [dist]
    is a directory or missing and whose [dd-agent] is no directory, or
    [bin/agent] is missing in a directory [bin]. *)

Definition clear_to_stage (S : FS) : bool :=
  match node_at BIN_PATH S with
  | Some (Dir B) =>
      match get "dist" B with Some (File _) => false | _ => true end &&
      negb (is_dir (get "dd-agent" B))
  | Some (File _) => false
  | None => is_dir (node_at ["bin"] S)
  end.

(** Two file systems with the same tree outside [./bin]: the same
    sources. *)

Definition same_sources (S T : FS) : Prop :=
  ∀ q, apart ["bin"] q = true → node_at q S = node_at q T.

(** [twins S T B B' D]: the same sources, and the same output root [D]
    in the directories [B] and [B'] that [BIN_PATH] is in [S] and [T]. *)

Definition twins (S T : FS) (B B' D : list (string * node)) : Prop :=
  same_sources S T ∧ view S B D ∧ view T B' D.

(** An action that leaves the entry [m] of [conf.d] as it is. *)

Definition keeps_check (S : FS) (m : string) (a : action) : Prop :=
  ∀ o o', key_step S a "conf.d" o = (o', ok) →
    get m (entries_of o') = get m (entries_of o).

(** The names that [refresh_assets] stages at the top of the output root
    before and between the overlays. *)

Definition staged_names : list string :=
  [ "checks"; "utils"; "config.py"; "system-probe.yaml"; "datadog.yaml";
    "conf.d"; "views" ].

(** The overlays ship none of these names, and no name in common. *)

Definition overlays_apart (S : FS) (dev : bool) : Prop :=
  (∀ k, k ∈ staged_names →
     listed k (entries_of (node_at ["pkg"; "status"; "dist"] S)) = None ∧
     (dev = true → listed k (entries_of (node_at ["dev"; "dist"] S)) = None)) ∧
  (dev = true → ∀ k,
     is_Some (listed k (entries_of (node_at ["pkg"; "status"; "dist"] S))) →
     listed k (entries_of (node_at ["dev"; "dist"] S)) = None).

(** An action that succeeds on the entry [k] whatever it finds, and leaves
    a missing entry missing. *)

Definition passes (S : FS) (k : string) (a : action) : Prop :=
  (∀ o, (key_step S a k o).2 = ok) ∧ key_step S a k None = (None, ok).

(** The state of the entry [conf.d] while the checks are copied: missing,
    or a directory with no entry outside [seen]. *)

Definition checks_so_far (seen : list string) (o : option node) : Prop :=
  match o with
  | None => True
  | Some (Dir es) => ∀ m, m ∉ seen → get m es = None
  | Some (File _) => False
  end.

(** What an action reads: a directory for [copy_tree], a regular file for
    [shutil.copy]. *)

Definition source_present (S : FS) (a : action) : Prop :=
  match a with
  | CopyTree src _ => is_dir (node_at src S) = true
  | CopyFile src _ | Relocate src _ => ∃ x, node_at src S = Some (File x)
  end.

(** ** Further sample data *)

(** A checkout after a build: the binary and a stale output root in
    [bin/agent]. *)

Definition built_fs : FS :=
  checkout [ ("templates", leaf "t.tmpl") ]
           [ ("agent", Dir [ ("agent", File "elf");
                             ("dist", Dir [ ("stale", File "s") ]) ]) ].

(** A working directory with a lock file of its own beside the one of
    [omnibus]. *)

Definition locked_fs : FS :=
  Dir [ ("Gemfile.lock", File "here");
        ("omnibus", Dir [ ("Gemfile.lock", File "there") ]) ].

(** Collaborators that return and touch nothing. *)

Definition quiet_collaborators : omnibus_collaborators :=
  {| deps_no_checks := ret tt;
     load_release_versions := λ _, ret ∅;
     get_version_url_safe := ret "6.0.0";
     environ := ∅ |}.

(** A context whose numeric version has two parts. *)


(** A collaborator whose commands all fail. *)

Definition failing_run (cmd : string) (env : gmap string string) : M unit :=
  raise UnexpectedExit.

(** * Properties *)

(** ** Runs of the model on the sample checkout *)

Example split_on_commas :
  split_on "," "docker,,systemd" = ["docker"; EmptyString; "systemd"] ∧
  split_on "," EmptyString = [EmptyString].
Proof. split; reflexivity. Qed.

Example darwin_default_tags :
  resolve_build_tags sample_catalog darwin_host None (Some "apm") false =
  inr ["consul"; "python"; "docker"; "ec2"; "etcd"; "gce"; "jmx";
       "kubeapiserver"; "kubelet"; "log"; "process"; "zk"; "zlib"; "secrets"].
Proof. vm_compute. reflexivity. Qed.

Example full_staging_on_linux :
  let r := refresh_assets linux_host ["python"; "apm"] true false sample_fs in
  r.2 = ok ∧
  listing dist_folder r =
    ["checks"; "utils"; "config.py"; "system-probe.yaml"; "datadog.yaml";
     "conf.d"; "templates"; "views"; "README.md"] ∧
  listing BIN_PATH r = ["dist"; "dd-agent"].
Proof. vm_compute. done. Qed.

Example minimal_staging_on_darwin :
  let r := refresh_assets darwin_host ["zlib"] false true sample_fs in
  r.2 = ok ∧
  listing dist_folder r = ["datadog.yaml"; "conf.d"; "templates"; "views"] ∧
  listing (dist_folder ++ ["conf.d"]) r = map (λ c, c +:+ ".d") PUPPY_CORECHECKS.
Proof. vm_compute. done. Qed.

Example staging_needs_bin :
  (refresh_assets linux_host [] false false (Dir [])).2 = inl OSError.
Proof. vm_compute. reflexivity. Qed.

(** ** Association lists *)

Lemma get_put k n c es :
  get k (put n c es) = if decide (k = n) then Some c else get k es.
Proof.
  induction es as [|[m c0] es IH]; simpl.
  - repeat case_decide; congruence.
  - repeat (case_decide; simpl); congruence.
Qed.

Lemma get_del k n es :
  get k (del n es) = if decide (k = n) then None else get k es.
Proof.
  induction es as [|[m c0] es IH]; simpl.
  - by case_decide.
  - repeat (case_decide; simpl); congruence.
Qed.

Lemma get_store k n o es :
  get k (store n o es) = if decide (k = n) then o else get k es.
Proof. destruct o; simpl; [apply get_put | apply get_del]. Qed.

Lemma get_store_eq n o es : get n (store n o es) = o.
Proof. rewrite get_store. by case_decide. Qed.

Lemma put_same n c es : get n es = Some c → put n c es = es.
Proof.
  induction es as [|[m c0] es IH]; simpl; [done|].
  case_decide; [congruence|]. intros. by rewrite IH.
Qed.

Lemma del_absent n es : get n es = None → del n es = es.
Proof.
  induction es as [|[m c0] es IH]; simpl; [done|].
  case_decide; [done|]. intros. by rewrite IH.
Qed.

Lemma store_get n es : store n (get n es) es = es.
Proof.
  destruct (get n es) eqn:E; simpl; [by apply put_same | by apply del_absent].
Qed.

Lemma get_on_entry k n T es es' r :
  on_entry n T es = (es', r) →
  get k es' = if decide (k = n) then (T (get n es)).1 else get k es.
Proof.
  unfold on_entry. destruct (T (get n es)) as [o r'] eqn:E.
  intros [= <- <-]. by rewrite get_store.
Qed.

Lemma on_entry_result n T es es' r :
  on_entry n T es = (es', r) → T (get n es) = (get n es', r).
Proof.
  unfold on_entry. destruct (T (get n es)) as [o r'] eqn:E.
  intros [= <- <-]. by rewrite get_store_eq.
Qed.

Lemma on_entry_other k n T es es' r :
  on_entry n T es = (es', r) → k ≠ n → get k es' = get k es.
Proof. intros H ?. rewrite (get_on_entry _ _ _ _ _ _ H). by case_decide. Qed.

(** ** Paths *)

Lemma node_at_app d p t :
  node_at (d ++ p) t = match node_at d t with Some c => node_at p c | None => None end.
Proof.
  revert t. induction d as [|a d IH]; intros t; simpl; [done|].
  destruct t as [|es]; [done|]. destruct (get a es); [apply IH | done].
Qed.

Lemma node_at_cons_Dir a q es :
  node_at (a :: q) (Dir es) = match get a es with Some c => node_at q c | None => None end.
Proof. done. Qed.

(** ** Localisation: a call below a directory rewrites that directory *)

Lemma walk_under mk d n p f a c B o' r :
  node_at d c = Some (Dir B) →
  walk mk (d ++ n :: p) f a (Some c) = (o', r) →
  ∃ c' B', o' = Some c' ∧ on_entry n (walk mk p f n) B = (B', r) ∧
    node_at d c' = Some (Dir B') ∧
    ∀ q, apart d q = true → node_at q c' = node_at q c.
Proof.
  revert a c o'. induction d as [|b d IH]; intros a c o' Hd Hw; simpl in *.
  - injection Hd as ->.
    destruct (on_entry n (walk mk p f n) B) as [B' r'] eqn:E.
    injection Hw as <- <-. exists (Dir B'), B'. repeat split; try done.
  - destruct c as [|es]; [done|].
    destruct (get b es) as [c1|] eqn:Eb; [|done].
    unfold on_entry in Hw. rewrite Eb in Hw.
    destruct (walk mk (d ++ n :: p) f b (Some c1)) as [o1 r1] eqn:E1.
    injection Hw as <- <-.
    destruct (IH _ _ _ Hd E1) as (c1' & B' & -> & Hon & Hd' & Hfr).
    exists (Dir (store b (Some c1') es)), B'. repeat split; try done.
    + simpl. rewrite get_put. case_decide; [done | congruence].
    + intros [|b' q] Hq; [done|]. simpl in Hq |- *. rewrite get_put.
      destruct (decide (b = b')) as [<-|Hne].
      * rewrite decide_True by done. rewrite Eb. by apply Hfr.
      * by rewrite decide_False by congruence.
Qed.

Lemma at_entry_under mk d n p f S B S' r :
  node_at d S = Some (Dir B) →
  at_entry mk (d ++ n :: p) f S = (S', r) →
  ∃ B', on_entry n (walk mk p f n) B = (B', r) ∧
    node_at d S' = Some (Dir B') ∧
    ∀ q, apart d q = true → node_at q S' = node_at q S.
Proof.
  intros Hd Ha. destruct d as [|b d]; simpl in *.
  - injection Hd as ->. unfold at_entry in Ha.
    destruct (on_entry n (walk mk p f n) B) as [B' r'] eqn:E.
    injection Ha as <- <-. by exists B'.
  - destruct S as [|es]; [done|]. unfold at_entry in Ha.
    destruct (get b es) as [c1|] eqn:Eb; [|done].
    unfold on_entry in Ha. rewrite Eb in Ha.
    destruct (walk mk (d ++ n :: p) f b (Some c1)) as [o1 r1] eqn:E1.
    injection Ha as <- <-.
    destruct (walk_under _ _ _ _ _ _ _ _ _ _ Hd E1) as (c1' & B' & -> & Hon & Hd' & Hfr).
    exists B'. repeat split; try done.
    + simpl. rewrite get_put. case_decide; [done | congruence].
    + intros [|b' q] Hq; [done|]. simpl in Hq |- *. rewrite get_put.
      destruct (decide (b = b')) as [<-|Hne].
      * rewrite decide_True by done. rewrite Eb. by apply Hfr.
      * by rewrite decide_False by congruence.
Qed.

(** Without [mkpath], a call that succeeds found its parent directory. *)

Lemma walk_parent d n p f a o o' :
  walk false (d ++ n :: p) f a o = (o', ok) →
  ∃ c B, o = Some c ∧ node_at d c = Some (Dir B).
Proof.
  revert a o o'. induction d as [|b d IH]; intros a o o' Hw; simpl in *.
  - destruct o as [[|es]|]; try done. by exists (Dir es), es.
  - destruct o as [[|es]|]; try done.
    unfold on_entry in Hw.
    destruct (walk false (d ++ n :: p) f b (get b es)) as [o1 r1] eqn:E1.
    injection Hw as <- ->.
    destruct (IH _ _ _ E1) as (c & B & Hc & HB).
    exists (Dir es), B. split; [done|]. simpl. by rewrite Hc.
Qed.

Lemma at_entry_parent d n p f S S' :
  at_entry false (d ++ n :: p) f S = (S', ok) →
  ∃ B, node_at d S = Some (Dir B).
Proof.
  intros Ha. destruct d as [|b d]; simpl in *.
  - destruct S as [|es]; [done|]. by exists es.
  - destruct S as [|es]; [done|]. unfold at_entry, on_entry in Ha.
    destruct (walk false (d ++ n :: p) f b (get b es)) as [o1 r1] eqn:E1.
    injection Ha as <- ->.
    destruct (walk_parent _ _ _ _ _ _ _ E1) as (c & B & Hc & HB).
    exists B. by rewrite Hc.
Qed.

(** ** The copy loop, entry by entry *)

Lemma listed_cons k m c cs :
  listed k ((m, c) :: cs) =
  if decide (m = k) then (if String.prefix ".nfs" k then None else Some c)
  else listed k cs.
Proof. unfold listed. simpl. by repeat case_match. Qed.

Lemma copy_loop_get copy seen cs ds ds' :
  copy_loop copy seen cs ds = (ds', ok) →
  ∀ k, if decide (k ∈ seen) then get k ds' = get k ds
       else match listed k cs with
            | Some c => copy k c (get k ds) = (get k ds', ok)
            | None => get k ds' = get k ds
            end.
Proof.
  revert seen ds. induction cs as [|[m c] cs IH]; intros seen ds Hl k; simpl in Hl.
  - injection Hl as ->. unfold listed. simpl.
    case_decide; [done|]. by destruct (String.prefix _ _).
  - rewrite listed_cons.
    destruct (decide (m ∈ seen)) as [Hm|Hm].
    { specialize (IH _ _ Hl k). case_decide; [done|].
      destruct (decide (m = k)) as [->|]; done. }
    destruct (String.prefix ".nfs" m) eqn:Enfs.
    { specialize (IH _ _ Hl k).
      destruct (decide (m = k)) as [<-|Hk].
      - rewrite decide_True in IH by set_solver.
        rewrite decide_False by done. by rewrite Enfs.
      - destruct (decide (k ∈ seen)).
        + by rewrite decide_True in IH by set_solver.
        + by rewrite decide_False in IH by set_solver. }
    destruct (on_entry m (copy m c) ds) as [ds1 [e|[]]] eqn:E1; [done|].
    specialize (IH _ _ Hl k).
    destruct (decide (m = k)) as [<-|Hk].
    + rewrite decide_True in IH by set_solver.
      rewrite decide_False by done. rewrite Enfs.
      rewrite IH. by apply on_entry_result.
    + rewrite (on_entry_other k _ _ _ _ _ E1) in IH by done.
      destruct (decide (k ∈ seen)).
      * by rewrite decide_True in IH by set_solver.
      * by rewrite decide_False in IH by set_solver.
Qed.

Lemma copy_node_Dir n cs o o' r :
  copy_node n (Dir cs) o = (o', r) →
  match o with
  | Some (File _) => o' = o ∧ r = inl DistutilsFileError
  | _ => ∃ ds, o' = Some (Dir ds) ∧ copy_loop copy_node [] cs (entries_of o) = (ds, r)
  end.
Proof.
  simpl. destruct o as [[x|es]|]; simpl.
  - by intros [= <- <-].
  - destruct (copy_loop copy_node [] cs es) as [ds r'] eqn:E.
    intros [= <- <-]. by exists ds.
  - destruct (copy_loop copy_node [] cs []) as [ds r'] eqn:E.
    intros [= <- <-]. by exists ds.
Qed.

(** ** The monad *)

Lemma bind_ok {A B} (m : M A) (k : A → M B) S S' b :
  bind m k S = (S', inr b) → ∃ S1 a, m S = (S1, inr a) ∧ k a S1 = (S', inr b).
Proof.
  unfold bind. destruct (m S) as [S1 [e|a]] eqn:E; [done|]. eauto.
Qed.

Lemma bind_assoc {A B C} (m : M A) (k : A → M B) (k' : B → M C) S :
  bind (bind m k) k' S = bind m (λ a, bind (k a) k') S.
Proof. unfold bind. by destruct (m S) as [S1 [e|a]]. Qed.

Lemma for_each_app {A} (l1 l2 : list A) body S :
  for_each (l1 ++ l2) body S = (for_each l1 body ;; for_each l2 body) S.
Proof.
  revert S. induction l1 as [|x l1 IH]; intros S; simpl; [done|].
  rewrite bind_assoc. unfold bind at 1 2.
  destruct (body x S) as [S1 [e|[]]]; [done|]. apply IH.
Qed.

(** ** Actions, entry by entry *)

Lemma view_dist S B D : view S B D → node_at dist_folder S = Some (Dir D).
Proof.
  intros [HB HD]. unfold dist_folder. rewrite node_at_app, HB. simpl. by rewrite HD.
Qed.

Lemma copy_tree_keys S src dst S' B D :
  view S B D →
  copy_tree src (dist_folder ++ dst) S = (S', ok) →
  ∃ B' D', view S' B' D' ∧
    (∀ k, key_step S (CopyTree src dst) k (get k D) = (get k D', ok)) ∧
    unchanged_outside BIN_PATH S S' ∧
    (∀ k, k ≠ "dist" → get k B' = get k B).
Proof.
  intros [HB HD] H. unfold copy_tree, copy_tree_from in H.
  destruct (node_at src S) as [[|cs]|] eqn:Es; try done.
  change (dist_folder ++ dst) with (BIN_PATH ++ "dist" :: dst) in H.
  destruct (at_entry_under _ _ _ _ _ _ _ _ _ HB H) as (B' & Hon & HB' & Hfr).
  pose proof (on_entry_result _ _ _ _ _ Hon) as Hres. rewrite HD in Hres.
  assert (∀ k, k ≠ "dist" → get k B' = get k B) as HBk
    by (intros; by eapply on_entry_other).
  destruct dst as [|h p]; simpl in Hres.
  - destruct (copy_loop copy_node [] cs D) as [ds r] eqn:El.
    injection Hres as Hget ->. exists B', ds. repeat split; try done.
    intros k. simpl. rewrite Es.
    pose proof (copy_loop_get _ _ _ _ _ El k) as Hk.
    rewrite decide_False in Hk by (by intros ?%elem_of_nil).
    destruct (listed k cs); [done | by rewrite Hk].
  - destruct (on_entry h _ D) as [D' r] eqn:E2.
    injection Hres as Hget ->. exists B', D'. repeat split; try done.
    intros k. simpl. rewrite Es. case_decide; subst.
    + by apply on_entry_result.
    + by rewrite (on_entry_other _ _ _ _ _ _ E2).
Qed.

Lemma shutil_copy_keys S src dst S' B D :
  view S B D → dst ≠ [] →
  shutil_copy src (dist_folder ++ dst) S = (S', ok) →
  ∃ B' D', view S' B' D' ∧
    (∀ k, key_step S (CopyFile src dst) k (get k D) = (get k D', ok)) ∧
    unchanged_outside BIN_PATH S S' ∧
    (∀ k, k ≠ "dist" → get k B' = get k B).
Proof.
  intros [HB HD] Hdst H. unfold shutil_copy, shutil_copy_from in H.
  destruct (node_at src S) as [[x|]|] eqn:Es; try done.
  change (dist_folder ++ dst) with (BIN_PATH ++ "dist" :: dst) in H.
  destruct (at_entry_under _ _ _ _ _ _ _ _ _ HB H) as (B' & Hon & HB' & Hfr).
  pose proof (on_entry_result _ _ _ _ _ Hon) as Hres. rewrite HD in Hres.
  assert (∀ k, k ≠ "dist" → get k B' = get k B) as HBk
    by (intros; by eapply on_entry_other).
  destruct dst as [|h p]; [done|]. simpl in Hres.
  destruct (on_entry h _ D) as [D' r] eqn:E2.
  injection Hres as Hget ->. exists B', D'. repeat split; try done.
  intros k. simpl. rewrite Es. case_decide; subst.
  - by apply on_entry_result.
  - by rewrite (on_entry_other _ _ _ _ _ _ E2).
Qed.

(** The move of the launcher stub: the entry leaves the output root and
    lands next to it. *)

Lemma shutil_move_keys S name S' B D :
  view S B D → name ≠ "dist" →
  shutil_move (dist_folder ++ [name]) (BIN_PATH ++ [name]) S = (S', ok) →
  ∃ B' c, view S' B' (del name D) ∧ get name D = Some c ∧
    unchanged_outside BIN_PATH S S' ∧
    (∀ k, k ≠ "dist" → k ≠ name → get k B' = get k B) ∧
    (is_dir (get name B) = false → get name B' = Some c).
Proof.
  intros [HB HD] Hname H. unfold shutil_move in H.
  assert (node_at (dist_folder ++ [name]) S = get name D) as Hsrc.
  { change (dist_folder ++ [name]) with (BIN_PATH ++ ["dist"; name]).
    rewrite node_at_app, HB. simpl. rewrite HD. by destruct (get name D). }
  assert (node_at (BIN_PATH ++ [name]) S = get name B) as Hdst.
  { rewrite node_at_app, HB. simpl. by destruct (get name B). }
  rewrite Hsrc, Hdst in H. destruct (get name D) as [c|] eqn:Ec; [|done].
  assert (List.last (dist_folder ++ [name]) EmptyString = name) as Hlast
    by (by rewrite last_last).
  rewrite Hlast in H.
  set (real_dst := if is_dir (get name B) then (BIN_PATH ++ [name]) ++ [name]
                   else BIN_PATH ++ [name]) in *.
  assert (dist_folder ++ [name] ≠ real_dst) as Hne.
  { unfold real_dst. destruct (is_dir (get name B)); simpl; congruence. }
  rewrite decide_False in H by done.
  apply bind_ok in H as (S1 & [] & H1 & H2).
  assert (∃ p, real_dst = BIN_PATH ++ name :: p ∧
               (is_dir (get name B) = false → p = [])) as (p & Hp & Hp0).
  { unfold real_dst. destruct (is_dir (get name B)).
    - by exists [name].
    - by exists []. }
  rewrite Hp in H1.
  destruct (at_entry_under _ _ _ _ _ _ _ _ _ HB H1) as (B1 & Hon1 & HB1 & Hfr1).
  assert (get "dist" B1 = Some (Dir D)) as HD1.
  { rewrite (on_entry_other _ _ _ _ _ _ Hon1); [done | congruence]. }
  change (dist_folder ++ [name]) with (BIN_PATH ++ "dist" :: [name]) in H2.
  destruct (at_entry_under _ _ _ _ _ _ _ _ _ HB1 H2) as (B' & Hon2 & HB' & Hfr2).
  pose proof (on_entry_result _ _ _ _ _ Hon2) as Hres. rewrite HD1 in Hres.
  simpl in Hres. unfold on_entry in Hres. simpl in Hres.
  injection Hres as Hres. exists B', c. repeat split; try done.
  - intros q Hq. rewrite Hfr2, Hfr1; done.
  - intros k ? ?. rewrite (on_entry_other _ _ _ _ _ _ Hon2) by done.
    by rewrite (on_entry_other _ _ _ _ _ _ Hon1).
  - intros Hd. rewrite (on_entry_other _ _ _ _ _ _ Hon2) by congruence.
    pose proof (on_entry_result _ _ _ _ _ Hon1) as Hr1.
    rewrite (Hp0 Hd) in Hr1. simpl in Hr1. rewrite Hd in Hr1.
    destruct (get name B) as [[|]|]; simpl in *; try done.
    + destruct c; simpl in *; congruence.
    + congruence.
Qed.

Lemma unchanged_outside_bin S S' :
  unchanged_outside BIN_PATH S S' → unchanged_outside ["bin"] S S'.
Proof.
  intros H q Hq. apply H. destruct q as [|b q]; [done|]. simpl in *.
  by destruct (decide ("bin" = b)).
Qed.

Lemma unchanged_outside_trans d S1 S2 S3 :
  unchanged_outside d S1 S2 → unchanged_outside d S2 S3 →
  unchanged_outside d S1 S3.
Proof. intros H1 H2 q Hq. by rewrite H2, H1. Qed.

Lemma key_step_frame S0 S a k o :
  unchanged_outside ["bin"] S0 S → well_formed a →
  key_step S a k o = key_step S0 a k o.
Proof.
  intros Hfr Hwf. destruct a as [src dst|src dst|src name]; simpl in *.
  - by rewrite (Hfr _ Hwf).
  - destruct Hwf as [Hwf _]. by rewrite (Hfr _ Hwf).
  - done.
Qed.

Lemma key_run_frame S0 S acts k o :
  unchanged_outside ["bin"] S0 S → Forall well_formed acts →
  key_run S acts k o = key_run S0 acts k o.
Proof.
  intros Hfr Hwf. revert o. induction Hwf as [|a acts Ha _ IH]; intros o; simpl; [done|].
  rewrite (key_step_frame S0 S) by done.
  destruct (key_step S0 a k o) as [o' [e|[]]]; [done | apply IH].
Qed.

Lemma exec_keys S a S' B D :
  view S B D → well_formed a → exec a S = (S', ok) →
  ∃ B' D', view S' B' D' ∧
    (∀ k, key_step S a k (get k D) = (get k D', ok)) ∧
    unchanged_outside ["bin"] S S' ∧
    (∀ k, k ≠ "dist" → ¬ relocates a k → get k B' = get k B).
Proof.
  intros Hv Hwf H. destruct a as [src dst|src dst|src name]; simpl in *.
  - destruct (copy_tree_keys _ _ _ _ _ _ Hv H) as (B' & D' & ? & ? & ? & ?).
    exists B', D'. split; [done|]. split; [done|].
    split; [by apply unchanged_outside_bin | auto].
  - destruct Hwf as [_ Hdst].
    destruct (shutil_copy_keys _ _ _ _ _ _ Hv Hdst H) as (B' & D' & ? & ? & ? & ?).
    exists B', D'. split; [done|]. split; [done|].
    split; [by apply unchanged_outside_bin | auto].
  - destruct Hwf as [_ Hname].
    apply bind_ok in H as (S1 & [] & H1 & H2).
    destruct (shutil_copy_keys _ _ [name] _ _ _ Hv ltac:(done) H1)
      as (B1 & D1 & Hv1 & Hk1 & Hfr1 & HB1).
    destruct (shutil_move_keys _ _ _ _ _ Hv1 Hname H2)
      as (B' & c & Hv' & Hc & Hfr2 & HB2 & _).
    exists B', (del name D1). repeat split; try apply Hv'.
    + intros k. rewrite get_del. specialize (Hk1 k). simpl in Hk1.
      case_decide; [done|]. congruence.
    + apply unchanged_outside_bin. by eapply unchanged_outside_trans.
    + intros k ? ?. rewrite HB2, HB1; done.
Qed.

Lemma run_keys acts S S' B D :
  view S B D → Forall well_formed acts → for_each acts exec S = (S', ok) →
  ∃ B' D', view S' B' D' ∧
    (∀ k, key_run S acts k (get k D) = (get k D', ok)) ∧
    unchanged_outside ["bin"] S S' ∧
    (∀ k, k ≠ "dist" → (∀ a, a ∈ acts → ¬ relocates a k) → get k B' = get k B).
Proof.
  intros Hv Hwf. revert S B D Hv.
  induction Hwf as [|a acts Ha Hwf IH]; intros S B D Hv H; simpl in H.
  - injection H as <-. exists B, D. repeat split; try apply Hv; done.
  - apply bind_ok in H as (S1 & [] & H1 & H2).
    destruct (exec_keys _ _ _ _ _ Hv Ha H1) as (B1 & D1 & Hv1 & Hk1 & Hfr1 & HB1).
    destruct (IH _ _ _ Hv1 H2) as (B' & D' & Hv' & Hk' & Hfr' & HB').
    exists B', D'. repeat split; try apply Hv'.
    + intros k. simpl. rewrite Hk1.
      rewrite <- (key_run_frame S S1) by done. apply Hk'.
    + by eapply unchanged_outside_trans.
    + intros k ? Hrel. rewrite HB', HB1; try done.
      * apply Hrel. by left.
      * intros a' ?. apply Hrel. by right.
Qed.

(** ** Wipe before populate *)

Lemma os_path_exists_eq p S S' b :
  os_path_exists p S = (S', inr b) →
  S' = S ∧ b = bool_decide (is_Some (node_at p S)).
Proof. by intros [= <- <-]. Qed.

Lemma wipe_view S S1 :
  wipe S = (S1, ok) →
  ∃ B, view S1 B [] ∧ unchanged_outside ["bin"] S S1 ∧
    (∀ k, k ≠ "dist" → get k B = get k (entries_of (node_at BIN_PATH S))).
Proof.
  unfold wipe. intros H.
  apply bind_ok in H as (Sa & bin_exists & Ha & H).
  apply os_path_exists_eq in Ha as [-> ->].
  apply bind_ok in H as (Sb & [] & Hb & H).
  assert (∃ Bb, node_at BIN_PATH Sb = Some (Dir Bb) ∧
                unchanged_outside ["bin"] S Sb ∧
                (∀ k, get k Bb = get k (entries_of (node_at BIN_PATH S))))
    as (Bb & HBb & Hfrb & Hkb).
  { destruct (node_at BIN_PATH S) as [c|] eqn:Ebin.
    - rewrite bool_decide_true in Hb by eauto. injection Hb as <-.
      apply bind_ok in H as (Sc & dist_exists & Hc & H).
      apply os_path_exists_eq in Hc as [-> ->].
      apply bind_ok in H as (Sd & [] & Hd & H).
      assert (∃ Bb, c = Dir Bb) as [Bb ->].
      { destruct (bool_decide (is_Some (node_at dist_folder S))) eqn:Ed.
        - unfold when in Hd. change dist_folder with (BIN_PATH ++ ["dist"]) in Hd.
          destruct (at_entry_parent _ _ _ _ _ _ Hd) as [Bb HBb]. exists Bb. congruence.
        - injection Hd as <-. change dist_folder with (BIN_PATH ++ ["dist"]) in H.
          destruct (at_entry_parent _ _ _ _ _ _ H) as [Bb HBb]. exists Bb. congruence. }
      exists Bb. by repeat split.
    - rewrite bool_decide_false in Hb by (by intros [? ?]).
      unfold when, negb in Hb. change BIN_PATH with (["bin"] ++ ["agent"]) in Hb.
      destruct (at_entry_parent _ _ _ _ _ _ Hb) as [Bbin HBbin].
      destruct (at_entry_under _ _ _ _ _ _ _ _ _ HBbin Hb) as (Bbin' & Hon & HB' & Hfr).
      pose proof (on_entry_result _ _ _ _ _ Hon) as Hres. simpl in Hres.
      destruct (get "agent" Bbin) eqn:Eag; [done|]. injection Hres as Hres.
      exists []. repeat split; try done.
      change BIN_PATH with (["bin"] ++ ["agent"]). rewrite node_at_app, HB'.
      simpl. by rewrite <- Hres. }
  apply bind_ok in H as (Sc & dist_exists & Hc & H).
      apply os_path_exists_eq in Hc as [-> ->].
  apply bind_ok in H as (Sd & [] & Hd & H).
  assert (∃ Bd, node_at BIN_PATH Sd = Some (Dir Bd) ∧
                unchanged_outside ["bin"] S Sd ∧ get "dist" Bd = None ∧
                (∀ k, k ≠ "dist" → get k Bd = get k (entries_of (node_at BIN_PATH S))))
    as (Bd & HBd & Hfrd & Hdd & Hkd).
  { assert (node_at dist_folder Sb = get "dist" Bb) as Hdist.
    { unfold dist_folder. rewrite node_at_app, HBb. simpl. by destruct (get "dist" Bb). }
    rewrite Hdist in Hd. destruct (get "dist" Bb) as [c|] eqn:Ed.
    - rewrite bool_decide_true in Hd by eauto. unfold when in Hd.
      change dist_folder with (BIN_PATH ++ ["dist"]) in Hd.
      destruct (at_entry_under _ _ _ _ _ _ _ _ _ HBb Hd) as (Bd & Hon & HBd & Hfr).
      pose proof (on_entry_result _ _ _ _ _ Hon) as Hres. simpl in Hres.
      rewrite Ed in Hres. destruct c; [done|]. injection Hres as Hres.
      exists Bd. repeat split; try done.
      + eapply unchanged_outside_trans; [done|]. by apply unchanged_outside_bin.
      + intros k ?. rewrite (on_entry_other _ _ _ _ _ _ Hon) by done. apply Hkb.
    - rewrite bool_decide_false in Hd by (by intros [? ?]). injection Hd as <-.
      exists Bb. by repeat split. }
  change dist_folder with (BIN_PATH ++ ["dist"]) in H.
  destruct (at_entry_under _ _ _ _ _ _ _ _ _ HBd H) as (B & Hon & HB & Hfr).
  pose proof (on_entry_result _ _ _ _ _ Hon) as Hres. simpl in Hres.
  rewrite Hdd in Hres. injection Hres as Hres.
  exists B. repeat split; try done.
  - eapply unchanged_outside_trans; [done|]. by apply unchanged_outside_bin.
  - intros k ?. rewrite (on_entry_other _ _ _ _ _ _ Hon) by done. by apply Hkd.
Qed.

(** ** [refresh_assets] runs the manifest *)

Lemma bind_ext {A B} (m m' : M A) (k k' : A → M B) S :
  m S = m' S → (∀ a S1, k a S1 = k' a S1) → bind m k S = bind m' k' S.
Proof. intros Hm Hk. unfold bind. rewrite Hm. destruct (m' S) as [S1 [e|a]]; auto. Qed.

Lemma bind_ret_r (m : M unit) S : (m ;; ret tt) S = m S.
Proof. unfold bind, ret. by destruct (m S) as [S1 [e|[]]]. Qed.

Lemma for_each_map {A B} (g : A → B) (l : list A) body S :
  for_each (g <$> l) body S = for_each l (λ x, body (g x)) S.
Proof.
  revert S. induction l as [|x l IH]; intros S; simpl; [done|].
  apply bind_ext; auto.
Qed.

Lemma EntriesFor_cons h tags dev puppy tr a l :
  (filter (λ e : trigger * action, selected h tags dev puppy e.1 = true) ((tr, a) :: l)).*2 =
  (if selected h tags dev puppy tr then [a] else []) ++
  (filter (λ e : trigger * action, selected h tags dev puppy e.1 = true) l).*2.
Proof.
  rewrite filter_cons. destruct (decide _) as [H|H]; simpl in H.
  - by rewrite H.
  - by destruct (selected h tags dev puppy tr).
Qed.

Lemma EntriesFor_checks h tags dev puppy tr checks l :
  (filter (λ e : trigger * action, selected h tags dev puppy e.1 = true)
          (map (check_entry tr) checks ++ l)).*2 =
  (if selected h tags dev puppy tr then check_actions checks else []) ++
  (filter (λ e : trigger * action, selected h tags dev puppy e.1 = true) l).*2.
Proof.
  induction checks as [|c checks IH]; simpl.
  - by destruct (selected _ _ _ _ _).
  - unfold check_entry at 1. rewrite EntriesFor_cons, IH.
    by destruct (selected _ _ _ _ _).
Qed.

Lemma EntriesFor_eq h tags dev puppy :
  EntriesFor h tags dev puppy =
  (if bool_decide ("python" ∈ tags)
   then [ CopyTree (agent_dist ++ ["checks"]) ["checks"];
          CopyTree (agent_dist ++ ["utils"]) ["utils"];
          CopyFile (agent_dist ++ ["config.py"]) ["config.py"] ]
   else []) ++
  (if negb puppy then [ Relocate (agent_dist ++ ["dd-agent"]) "dd-agent" ] else []) ++
  (if is_linux h
   then [ CopyFile (agent_dist ++ ["system-probe.yaml"]) ["system-probe.yaml"] ]
   else []) ++
  [ CopyFile (agent_dist ++ ["datadog.yaml"]) ["datadog.yaml"] ] ++
  check_actions (if negb puppy then AGENT_CORECHECKS else PUPPY_CORECHECKS) ++
  (if bool_decide ("apm" ∈ tags)
   then [ CopyFile (agent_dist ++ ["conf.d"; "apm.yaml.default"])
                   ["conf.d"; "apm.yaml.default"] ]
   else []) ++
  [ CopyTree ["pkg"; "status"; "dist"] [];
    CopyTree ["cmd"; "agent"; "gui"; "views"] ["views"] ] ++
  (if dev then [ CopyTree ["dev"; "dist"] [] ] else []).
Proof.
  unfold EntriesFor, manifest.
  cbn [app]. rewrite !EntriesFor_cons, !EntriesFor_checks, !EntriesFor_cons.
  cbn [selected]. rewrite filter_nil.
  destruct (bool_decide ("python" ∈ tags)), puppy, (is_linux h),
    (bool_decide ("apm" ∈ tags)), dev; reflexivity.
Qed.

Lemma refresh_assets_Stage h tags dev puppy S :
  refresh_assets h tags dev puppy S = Stage (EntriesFor h tags dev puppy) S.
Proof.
  unfold refresh_assets, Stage, wipe.
  rewrite bind_assoc. apply bind_ext; [done|]. intros bin_exists S1.
  rewrite bind_assoc. apply bind_ext; [done|]. intros _ S2.
  rewrite bind_assoc. apply bind_ext; [done|]. intros dist_exists S3.
  rewrite bind_assoc. apply bind_ext; [done|]. intros _ S4.
  apply bind_ext; [done|]. intros _ S5.
  rewrite EntriesFor_eq.
  rewrite for_each_app. apply bind_ext.
  { destruct (bool_decide ("python" ∈ tags)); [|done]. simpl.
    do 2 (apply bind_ext; [done|]; intros _ ?). by rewrite bind_ret_r. }
  intros _ S6. rewrite for_each_app. apply bind_ext.
  { destruct puppy; [done|]. simpl. by rewrite bind_ret_r. }
  intros _ S7. rewrite for_each_app. apply bind_ext.
  { destruct (is_linux h); [|done]. simpl. by rewrite bind_ret_r. }
  intros _ S8. simpl. apply bind_ext; [done|]. intros _ S9.
  rewrite for_each_app. apply bind_ext.
  { unfold check_actions. by rewrite for_each_map. }
  intros _ S10. rewrite for_each_app. apply bind_ext.
  { destruct (bool_decide ("apm" ∈ tags)); [|done]. simpl. by rewrite bind_ret_r. }
  intros _ S11. simpl. apply bind_ext; [done|]. intros _ S12.
  apply bind_ext; [done|]. intros _ S13.
  destruct dev; [|done]. simpl. by rewrite bind_ret_r.
Qed.

Lemma manifest_well_formed : Forall (λ e : trigger * action, well_formed e.2) manifest.
Proof.
  unfold manifest. cbn.
  repeat (apply Forall_cons; split; [cbn; repeat split; done |]).
  constructor.
Qed.

Lemma elem_of_EntriesFor h tags dev puppy a :
  a ∈ EntriesFor h tags dev puppy ↔
  ∃ tr, (tr, a) ∈ manifest ∧ selected h tags dev puppy tr = true.
Proof.
  unfold EntriesFor. rewrite list_elem_of_fmap. split.
  - intros ([tr a'] & -> & [Hsel Hin]%list_elem_of_filter). by exists tr.
  - intros (tr & Hin & Hsel). exists (tr, a). split; [done|].
    by apply list_elem_of_filter.
Qed.

Lemma EntriesFor_well_formed h tags dev puppy :
  Forall well_formed (EntriesFor h tags dev puppy).
Proof.
  apply Forall_forall. intros a (tr & Hin & _)%elem_of_EntriesFor.
  pose proof manifest_well_formed as H. rewrite Forall_forall in H.
  apply (H _ Hin).
Qed.

(** The run of [refresh_assets], entry by entry of the output root. *)

Lemma refresh_assets_keys h tags dev puppy S S' :
  refresh_assets h tags dev puppy S = (S', ok) →
  ∃ B' D', view S' B' D' ∧
    (∀ k, key_run S (EntriesFor h tags dev puppy) k None = (get k D', ok)) ∧
    unchanged_outside ["bin"] S S' ∧
    (∀ k, k ≠ "dist" →
       (∀ a, a ∈ EntriesFor h tags dev puppy → ¬ relocates a k) →
       get k B' = get k (entries_of (node_at BIN_PATH S))).
Proof.
  rewrite refresh_assets_Stage. unfold Stage. intros H.
  apply bind_ok in H as (S1 & [] & H1 & H2).
  destruct (wipe_view _ _ H1) as (B1 & Hv1 & Hfr1 & HB1).
  pose proof (EntriesFor_well_formed h tags dev puppy) as Hwf.
  destruct (run_keys _ _ _ _ _ Hv1 Hwf H2) as (B' & D' & Hv' & Hk & Hfr' & HB').
  exists B', D'. repeat split; try apply Hv'.
  - intros k. rewrite <- (key_run_frame S S1) by done. apply Hk.
  - by eapply unchanged_outside_trans.
  - intros k ? ?. rewrite HB', HB1; done.
Qed.

(** ** What a run makes of one entry *)

Lemma key_run_app S l1 l2 k o :
  key_run S (l1 ++ l2) k o =
  match key_run S l1 k o with
  | (o', inr _) => key_run S l2 k o'
  | bad => bad
  end.
Proof.
  revert o. induction l1 as [|a l1 IH]; intros o; simpl; [done|].
  destruct (key_step S a k o) as [o' [e|[]]]; [done | apply IH].
Qed.

Lemma copy_file_some n x o o' :
  copy_file n x o = (o', ok) → is_Some o'.
Proof.
  unfold copy_file. destruct o as [[|ds]|]; try (intros [= <-]; by eauto).
  destruct (get n ds) as [[|]|]; intros [= <-]; eauto.
Qed.

Lemma copy_node_some n c o o' :
  copy_node n c o = (o', ok) → is_Some o'.
Proof.
  destruct c as [x|cs].
  - apply copy_file_some.
  - intros H%copy_node_Dir. destruct o as [[|]|]; try (destruct H as (ds & -> & _); by eauto).
    by destruct H.
Qed.

Lemma walk_some mk p f n o o' :
  (∀ n o o', f n o = (o', ok) → is_Some o') →
  walk mk p f n o = (o', ok) → is_Some o'.
Proof.
  intros Hf. destruct p as [|m p]; simpl; [apply Hf|].
  destruct o as [[|es]|]; try done.
  - destruct (on_entry m _ es) as [es' r]. intros [= <- _]. eauto.
  - destruct mk; [|done].
    destruct (on_entry m _ []) as [es' r]. intros [= <- _]. eauto.
Qed.

Lemma key_step_some S a k o o' :
  key_step S a k o = (o', ok) → ¬ relocates a k →
  (is_Some o' ↔ is_Some o ∨ provides S a [k]).
Proof.
  destruct a as [src [|h p]|src [|h p]|src name];
    cbn [key_step relocates provides]; intros H Hrel; try done.
  - destruct (node_at src S) as [[|cs]|]; try done. cbn [entries_of].
    destruct (listed k cs) as [c|].
    + apply copy_node_some in H. split; [by right | done].
    + injection H as <-. split; [by left | intros [?|[? ?]]; done].
  - case_decide as Hk.
    + subst. destruct (node_at src S) as [[|cs]|]; try done.
      apply walk_some in H; [|intros ???; apply copy_node_some].
      split; [right; split; [done | by apply prefix_cons, prefix_nil] | done].
    + injection H as <-. split; [by left|].
      intros [?|[_ Hp]]; [done|]. apply prefix_cons_inv_1 in Hp. congruence.
  - case_decide as Hk.
    + subst. destruct (node_at src S) as [[x|]|]; try done.
      apply walk_some in H; [|intros ???; apply copy_file_some].
      split; [right; split; [done | by apply prefix_cons, prefix_nil] | done].
    + injection H as <-. split; [by left|].
      intros [?|[_ Hp]]; [done|]. apply prefix_cons_inv_1 in Hp. congruence.
  - rewrite decide_False in H by done. injection H as <-.
    split; [by left | intros [?|?]; done].
Qed.

Lemma key_run_some S acts k o o' :
  key_run S acts k o = (o', ok) →
  (∀ a, a ∈ acts → ¬ relocates a k) →
  (is_Some o' ↔ is_Some o ∨ ∃ a, a ∈ acts ∧ provides S a [k]).
Proof.
  revert o. induction acts as [|a acts IH]; intros o H Hrel; simpl in H.
  - injection H as <-. split; [by left | intros [?|(? & ?%elem_of_nil & _)]; done].
  - destruct (key_step S a k o) as [o1 [e|[]]] eqn:E1; [done|].
    rewrite (IH _ H) by (intros; apply Hrel; by right).
    rewrite (key_step_some _ _ _ _ _ E1) by (apply Hrel; by left).
    split.
    + intros [[?|?]|(a' & ? & ?)]; [by left | right; exists a | right; exists a'];
        (split; [set_solver | done]).
    + intros [?|(a' & [->|?]%elem_of_cons & ?)]; [by left; left | by left; right |].
      right. by exists a'.
Qed.

(** ** The top level of the output root *)

Lemma staged_view S B D q :
  view S B D → staged S q ↔ is_Some (node_at q (Dir D)).
Proof.
  intros Hv. unfold staged. by rewrite node_at_app, (view_dist _ _ _ Hv).
Qed.

Lemma staged_top S B D k : view S B D → staged S [k] ↔ is_Some (get k D).
Proof.
  intros Hv. rewrite (staged_view _ _ _ _ Hv). simpl. by destruct (get k D).
Qed.

Lemma key_step_misses S a k o : misses a k → key_step S a k o = (o, ok).
Proof.
  destruct a as [src [|h p]|src [|h p]|src name]; cbn [key_step misses]; try done;
    intros; by rewrite decide_False by done.
Qed.

Lemma key_run_misses S acts k o :
  Forall (λ a, misses a k) acts → key_run S acts k o = (o, ok).
Proof.
  intros H. revert o. induction H as [|a acts Ha _ IH]; intros o; simpl; [done|].
  by rewrite key_step_misses.
Qed.

Lemma provides_misses S a k q : misses a k → ¬ provides S a (k :: q).
Proof.
  destruct a as [src [|h p]|src [|h p]|src name]; cbn [provides misses];
    intros Hne Hp; try done;
    destruct Hp as [_ Hp]; apply prefix_cons_inv_1 in Hp; congruence.
Qed.

Lemma relocates_manifest tr a k :
  (tr, a) ∈ manifest → relocates a k → tr = FullOnly ∧ k = "dd-agent".
Proof.
  unfold manifest. cbn. intros Hin Hrel.
  repeat (apply elem_of_cons in Hin as [Hin|Hin];
          [injection Hin as -> ->; simpl in Hrel; by subst |]).
  by apply elem_of_nil in Hin.
Qed.

Lemma no_relocation h tags dev puppy k a :
  puppy = true ∨ k ≠ "dd-agent" →
  a ∈ EntriesFor h tags dev puppy → ¬ relocates a k.
Proof.
  intros Hk (tr & Hin & Hsel)%elem_of_EntriesFor Hrel.
  destruct (relocates_manifest _ _ _ Hin Hrel) as [-> ->].
  destruct Hk as [->|?]; done.
Qed.

Lemma python_misses k :
  k ≠ "checks" → k ≠ "utils" → k ≠ "config.py" →
  Forall (λ a, misses a k)
    [ CopyTree (agent_dist ++ ["checks"]) ["checks"];
      CopyTree (agent_dist ++ ["utils"]) ["utils"];
      CopyFile (agent_dist ++ ["config.py"]) ["config.py"] ].
Proof. intros. repeat constructor; simpl; congruence. Qed.

(** The entries of the table that follow the launcher stub. *)

Lemma EntriesFor_full h tags dev :
  EntriesFor h tags dev false =
  before_stub tags ++ Relocate (agent_dist ++ ["dd-agent"]) "dd-agent" ::
  after_stub h tags dev false.
Proof. by rewrite EntriesFor_eq. Qed.

Lemma before_stub_misses tags : Forall (λ a, misses a "dd-agent") (before_stub tags).
Proof.
  unfold before_stub. destruct (bool_decide _); [|constructor].
  by apply python_misses.
Qed.

Lemma after_stub_sub h tags dev a :
  a ∈ after_stub h tags dev false → a ∈ EntriesFor h tags dev false.
Proof. rewrite EntriesFor_full, elem_of_app, elem_of_cons. auto. Qed.

Lemma after_stub_no_relocation h tags dev k a :
  a ∈ after_stub h tags dev false → ¬ relocates a k.
Proof.
  unfold after_stub, check_actions. intros Hin Hrel.
  destruct a as [| |src name]; try done.
  repeat (apply elem_of_app in Hin as [Hin|Hin]);
    try (apply list_elem_of_fmap in Hin as (? & ? & _); done);
    repeat case_match; set_solver.
Qed.

Lemma staged_top_iff h tags dev puppy S S' k :
  refresh_assets h tags dev puppy S = (S', ok) →
  staged S' [k] ↔ ∃ a, a ∈ EntriesFor h tags dev puppy ∧ provides S a [k].
Proof.
  intros (B' & D' & Hv & Hk & _ & _)%refresh_assets_keys.
  rewrite (staged_top _ _ _ _ Hv). specialize (Hk k).
  destruct (decide (puppy = true ∨ k ≠ "dd-agent")) as [Hcase|Hcase].
  - rewrite (key_run_some _ _ _ _ _ Hk) by (intros; by eapply no_relocation).
    split; [intros [[? ?]|?]; done | by right].
  - assert (puppy = false ∧ k = "dd-agent") as [-> ->].
    { destruct puppy, (decide (k = "dd-agent")); naive_solver. }
    rewrite EntriesFor_full in Hk |- *.
    rewrite key_run_app, key_run_misses in Hk by apply before_stub_misses.
    simpl in Hk.
    rewrite (key_run_some _ _ _ _ _ Hk) by (intros; by eapply after_stub_no_relocation).
    split.
    + intros [[? ?]|(a & ? & ?)]; [done|]. exists a.
      rewrite elem_of_app, elem_of_cons. auto.
    + intros (a & [Hin|[->|Hin]%elem_of_cons]%elem_of_app & Hp).
      * pose proof (before_stub_misses tags) as Hm.
        rewrite Forall_forall in Hm. by apply provides_misses in Hp; [|apply Hm].
      * done.
      * right. by exists a.
Qed.

(** ** Inside [conf.d] *)

Lemma prefix_pair (a m x : string) : [a; m] `prefix_of` [a; x] ↔ m = x.
Proof.
  split; [|by intros ->].
  intros H%prefix_cons_inv_2. by apply prefix_cons_inv_1 in H.
Qed.

Lemma on_entry_some n T es es' m :
  (∀ o o', T o = (o', ok) → is_Some o') →
  on_entry n T es = (es', ok) →
  (is_Some (get m es') ↔ is_Some (get m es) ∨ m = n).
Proof.
  intros HT Hon. pose proof (on_entry_result _ _ _ _ _ Hon) as Hr.
  apply HT in Hr. destruct (decide (m = n)) as [->|Hne].
  - split; [by right | done].
  - rewrite (on_entry_other _ _ _ _ _ _ Hon) by done. split; [by left | intros [?|?]; done].
Qed.

Lemma key_step_confd S a o o' :
  key_step S a "conf.d" o = (o', ok) → flat a →
  is_dir o = true ∨ (o = None ∧ ∃ src x, a = CopyTree src ["conf.d"; x]) →
  is_dir o' = true ∧
  ∀ m, is_Some (get m (entries_of o')) ↔
       is_Some (get m (entries_of o)) ∨ provides S a ["conf.d"; m].
Proof.
  intros H Hflat Ho.
  destruct a as [src [|h [|x [|]]]|src [|h [|x [|]]]|src name];
    cbn [key_step flat provides] in *; try done.
  - (* an overlay onto the root *)
    destruct Ho as [Ho|(_ & ? & ? & [=])].
    destruct o as [[|ds]|]; try done.
    destruct (node_at src S) as [[|cs]|]; try done. cbn [entries_of].
    destruct (listed "conf.d" cs) as [[x|cs']|] eqn:El.
    + simpl in H. destruct (get "conf.d" ds) as [[|]|] eqn:Ec; try done;
        injection H as <-; (split; [done|]); intros m; cbn [entries_of];
        rewrite get_put; case_decide; subst; rewrite ?Ec; naive_solver.
    + apply copy_node_Dir in H as (ds' & -> & Hl). split; [done|].
      intros m. cbn [entries_of] in *.
      pose proof (copy_loop_get _ _ _ _ _ Hl m) as Hm.
      rewrite decide_False in Hm by (by intros ?%elem_of_nil).
      destruct (listed m cs') as [c'|].
      * apply copy_node_some in Hm. split; [by right | done].
      * rewrite Hm. split; [by left | intros [?|[? ?]]; done].
    + injection H as <-. split; [done|]. intros m. naive_solver.
  - (* a tree at the top level *)
    rewrite decide_False in H by done. injection H as <-.
    destruct Ho as [Ho|(_ & ? & ? & [=])]. split; [done|].
    intros m. split; [by left | intros [?|[_ Hp]]; [done|]].
    apply prefix_cons_inv_1 in Hp. congruence.
  - (* a tree inside conf.d *)
    subst h. rewrite decide_True in H by done.
    destruct (node_at src S) as [[|cs]|]; try done. cbn [walk] in H.
    assert (∃ es, on_entry x (copy_node x (Dir cs)) (entries_of o) = (es, ok) ∧
                  o' = Some (Dir es)) as (es & Hon & ->).
    { destruct o as [[|es0]|]; try done; cbn [entries_of];
        destruct (on_entry x _ _) as [es r]; injection H as <- ->; by exists es. }
    split; [done|]. intros m. cbn [entries_of].
    rewrite (on_entry_some _ _ _ _ m (λ o o', copy_node_some x (Dir cs) o o') Hon).
    rewrite prefix_pair. naive_solver.
  - (* a file at the top level *)
    rewrite decide_False in H by done. injection H as <-.
    destruct Ho as [Ho|(_ & ? & ? & [=])]. split; [done|].
    intros m. split; [by left | intros [?|[_ Hp]]; [done|]].
    apply prefix_cons_inv_1 in Hp. congruence.
  - (* a file inside conf.d *)
    subst h. rewrite decide_True in H by done.
    destruct Ho as [Ho|(_ & ? & ? & [=])].
    destruct (node_at src S) as [[y|]|]; try done. cbn [walk] in H.
    destruct o as [[|es0]|]; try done. cbn [entries_of].
    destruct (on_entry x _ es0) as [es r] eqn:Hon. injection H as <- ->.
    split; [done|]. intros m. cbn [entries_of].
    rewrite (on_entry_some _ _ _ _ m (λ o o', copy_file_some _ y o o') Hon).
    rewrite prefix_pair. naive_solver.
  - (* the launcher stub *)
    rewrite decide_False in H by done. injection H as <-.
    destruct Ho as [Ho|(_ & ? & ? & [=])]. split; [done|].
    intros m. naive_solver.
Qed.

Lemma key_run_confd S acts o o' :
  key_run S acts "conf.d" o = (o', ok) → Forall flat acts → is_dir o = true →
  is_dir o' = true ∧
  ∀ m, is_Some (get m (entries_of o')) ↔
       is_Some (get m (entries_of o)) ∨
       ∃ a, a ∈ acts ∧ provides S a ["conf.d"; m].
Proof.
  intros H Hflat. revert o H.
  induction Hflat as [|a acts Ha _ IH]; intros o H Ho; simpl in H.
  - injection H as <-. split; [done|]. intros m.
    split; [by left | intros [?|(? & ?%elem_of_nil & _)]; done].
  - destruct (key_step S a "conf.d" o) as [o1 [e|[]]] eqn:E1; [done|].
    destruct (key_step_confd _ _ _ _ E1 Ha (or_introl Ho)) as [Ho1 H1].
    destruct (IH _ H Ho1) as [Ho' H']. split; [done|]. intros m.
    rewrite H', H1. split.
    + intros [[?|?]|(a' & ? & ?)]; [by left | right; exists a | right; exists a'];
        (split; [set_solver | done]).
    + intros [?|(a' & [->|?]%elem_of_cons & ?)]; [by left; left | by left; right |].
      right. by exists a'.
Qed.

Lemma manifest_flat : Forall (λ e : trigger * action, flat e.2) manifest.
Proof.
  unfold manifest. cbn.
  repeat (apply Forall_cons; split; [cbn; done |]). constructor.
Qed.

Lemma EntriesFor_flat h tags dev puppy : Forall flat (EntriesFor h tags dev puppy).
Proof.
  apply Forall_forall. intros a (tr & Hin & _)%elem_of_EntriesFor.
  pose proof manifest_flat as H. rewrite Forall_forall in H. apply (H _ Hin).
Qed.

Lemma EntriesFor_split h tags dev puppy :
  ∃ pre c0 rest,
    EntriesFor h tags dev puppy =
      pre ++ CopyTree (agent_dist ++ conf_d c0) (conf_d c0) :: rest ∧
    Forall (λ a, misses a "conf.d") pre.
Proof.
  rewrite EntriesFor_eq.
  set (A := if bool_decide ("python" ∈ tags) then _ else _).
  set (B := if negb puppy then [_] else []).
  set (C := if is_linux h then _ else _).
  set (P := if bool_decide ("apm" ∈ tags) then _ else _).
  set (E := if dev then _ else _).
  set (O := [CopyTree ["pkg"; "status"; "dist"] []; _]).
  assert (Forall (λ a, misses a "conf.d") (A ++ B ++ C ++ [CopyFile (agent_dist ++ ["datadog.yaml"]) ["datadog.yaml"]])) as Hpre.
  { rewrite !Forall_app. repeat split.
    - unfold A. destruct (bool_decide _); [by apply python_misses | constructor].
    - unfold B. destruct puppy; repeat constructor; done.
    - unfold C. destruct (is_linux h); repeat constructor; done.
    - repeat constructor; done. }
  destruct puppy; simpl negb; cbv iota.
  - exists (A ++ B ++ C ++ [CopyFile (agent_dist ++ ["datadog.yaml"]) ["datadog.yaml"]]),
      "cpu", (check_actions (tail PUPPY_CORECHECKS) ++ P ++ O ++ E).
    split; [|done]. by rewrite <- !app_assoc.
  - exists (A ++ B ++ C ++ [CopyFile (agent_dist ++ ["datadog.yaml"]) ["datadog.yaml"]]),
      "containerd", (check_actions (tail AGENT_CORECHECKS) ++ P ++ O ++ E).
    split; [|done]. by rewrite <- !app_assoc.
Qed.

Lemma staged_confd S B D m :
  view S B D →
  staged S ["conf.d"; m] ↔ is_Some (get m (entries_of (get "conf.d" D))).
Proof.
  intros Hv. rewrite (staged_view _ _ _ _ Hv). simpl.
  destruct (get "conf.d" D) as [[|es]|]; simpl; try (split; intros [? ?]; done).
  by destruct (get m es).
Qed.

Lemma staged_confd_iff h tags dev puppy S S' m :
  refresh_assets h tags dev puppy S = (S', ok) →
  staged S' ["conf.d"; m] ↔
  ∃ a, a ∈ EntriesFor h tags dev puppy ∧ provides S a ["conf.d"; m].
Proof.
  intros (B' & D' & Hv & Hk & _ & _)%refresh_assets_keys.
  rewrite (staged_confd _ _ _ _ Hv). specialize (Hk "conf.d").
  pose proof (EntriesFor_flat h tags dev puppy) as Hflat.
  destruct (EntriesFor_split h tags dev puppy) as (pre & c0 & rest & Heq & Hpre).
  rewrite Heq in Hk, Hflat |- *.
  rewrite key_run_app, key_run_misses in Hk by done. cbn [key_run] in Hk.
  apply Forall_app in Hflat as [_ Hflat].
  apply Forall_cons in Hflat as [Hflat0 Hflat].
  destruct (key_step S (CopyTree (agent_dist ++ conf_d c0) (conf_d c0)) "conf.d" None)
    as [o1 [e|[]]] eqn:E1; [done|].
  destruct (key_step_confd _ _ _ _ E1 Hflat0) as [Ho1 H1]; [right; by eauto|].
  destruct (key_run_confd _ _ _ _ Hk Hflat Ho1) as [_ H2].
  rewrite H2, H1. split.
  - intros [[[? ?]|?]|(a & ? & ?)]; [done | eexists; split; [|done] | exists a; split; [|done]];
      set_solver.
  - intros (a & [Hin|[->|Hin]%elem_of_cons]%elem_of_app & Hp).
    + rewrite Forall_forall in Hpre. by apply provides_misses in Hp; [|apply Hpre].
    + by left; right.
    + right. by exists a.
Qed.

(** C1, as the code has it.  After a run of [refresh_assets] that
    succeeds, what exists below the output root, at its top level and
    inside [conf.d], is exactly what the selected entries of the manifest
    provide, an entry being selected by its trigger: always, minimal-only,
    not-minimal, a tag of the tag set, host is Linux, development build.
    The launcher stub provides nothing there: it is relocated. *)
Theorem staged_exactly_selected h tags dev puppy S S' :
  refresh_assets h tags dev puppy S = (S', ok) →
  ∀ q, (∃ k, q = [k]) ∨ (∃ m, q = ["conf.d"; m]) →
    (staged S' q ↔
     ∃ tr a, (tr, a) ∈ manifest ∧ selected h tags dev puppy tr = true ∧
             provides S a q).
Proof.
  intros H q Hq.
  assert (staged S' q ↔ ∃ a, a ∈ EntriesFor h tags dev puppy ∧ provides S a q) as ->.
  { destruct Hq as [[k ->]|[m ->]];
      [by apply staged_top_iff | by apply staged_confd_iff]. }
  split.
  - intros (a & (tr & ? & ?)%elem_of_EntriesFor & ?). by exists tr, a.
  - intros (tr & a & ? & ? & ?). exists a. split; [|done].
    apply elem_of_EntriesFor. by exists tr.
Qed.

(** ** The launcher stub *)

Lemma node_at_child d k S :
  node_at (d ++ [k]) S = get k (entries_of (node_at d S)).
Proof.
  rewrite node_at_app. destruct (node_at d S) as [[|es]|]; simpl; try done.
  by destruct (get k es).
Qed.

Lemma view_child S B D k : view S B D → node_at (BIN_PATH ++ [k]) S = get k B.
Proof. intros [HB _]. by rewrite node_at_child, HB. Qed.

Lemma provides_stub h tags dev puppy S a :
  a ∈ EntriesFor h tags dev puppy → provides S a ["dd-agent"] →
  is_Some (listed "dd-agent" (entries_of (node_at ["pkg"; "status"; "dist"] S))) ∨
  (dev = true ∧
   is_Some (listed "dd-agent" (entries_of (node_at ["dev"; "dist"] S)))).
Proof.
  intros (tr & Hin & Hsel)%elem_of_EntriesFor Hp.
  unfold manifest in Hin. cbn in Hin.
  repeat (apply elem_of_cons in Hin as [Hin|Hin];
          [injection Hin as -> ->; cbn [provides selected] in *;
           first [ by left | by right
                 | destruct Hp as [_ Hp%prefix_cons_inv_1]; discriminate
                 | done ] |]).
  by apply elem_of_nil in Hin.
Qed.

Lemma exec_relocate S src name S' B D :
  view S B D → name ≠ "dist" → get name D = None →
  is_dir (get name B) = false →
  exec (Relocate src name) S = (S', ok) →
  ∃ x B' D', node_at src S = Some (File x) ∧ view S' B' D' ∧
    get name B' = Some (File x) ∧ unchanged_outside ["bin"] S S'.
Proof.
  intros Hv Hname HD HB H. cbn [exec] in H.
  apply bind_ok in H as (S1 & [] & H1 & H2).
  destruct (shutil_copy_keys _ _ [name] _ _ _ Hv ltac:(done) H1)
    as (B1 & D1 & Hv1 & Hk1 & Hfr1 & HB1).
  specialize (Hk1 name). cbn [key_step] in Hk1.
  rewrite decide_True, HD in Hk1 by done.
  destruct (node_at src S) as [[x|]|] eqn:Es; try done.
  cbn in Hk1. injection Hk1 as Hk1.
  destruct (shutil_move_keys _ _ _ _ _ Hv1 Hname H2)
    as (B' & c & Hv' & Hc & Hfr2 & _ & Hstub).
  exists x, B', (del name D1). repeat split; try apply Hv'.
  - rewrite Hstub; [congruence|]. by rewrite HB1.
  - apply unchanged_outside_bin. by eapply unchanged_outside_trans.
Qed.

(** C9.  With the minimal profile a run that succeeds leaves
    [bin/agent/dd-agent] as it was, and the output root holds an entry
    [dd-agent] only if an overlay provides one: no launcher stub is
    staged. *)
Theorem minimal_profile_stages_no_stub h tags dev S S' :
  refresh_assets h tags dev true S = (S', ok) →
  node_at (BIN_PATH ++ ["dd-agent"]) S' = node_at (BIN_PATH ++ ["dd-agent"]) S ∧
  (staged S' ["dd-agent"] →
   is_Some (listed "dd-agent" (entries_of (node_at ["pkg"; "status"; "dist"] S))) ∨
   (dev = true ∧
    is_Some (listed "dd-agent" (entries_of (node_at ["dev"; "dist"] S))))).
Proof.
  intros H. split.
  - destruct (refresh_assets_keys _ _ _ _ _ _ H) as (B' & D' & Hv & _ & _ & HB).
    rewrite (view_child _ _ _ _ Hv), node_at_child. apply HB; [done|].
    intros a. apply no_relocation. by left.
  - intros (a & Hin & Hp)%(staged_top_iff _ _ _ _ _ _ _ H).
    by eapply provides_stub.
Qed.

(** C7, as the code has it.  Without the minimal profile, and unless
    [bin/agent/dd-agent] is a directory beforehand, a run that succeeds
    leaves the launcher stub of the sources as the file
    [bin/agent/dd-agent], one level above the output root; the output root
    holds an entry [dd-agent] only if an overlay provides one. *)
Theorem launcher_stub_relocated h tags dev S S' :
  refresh_assets h tags dev false S = (S', ok) →
  is_dir (node_at (BIN_PATH ++ ["dd-agent"]) S) = false →
  (∃ x, node_at (agent_dist ++ ["dd-agent"]) S = Some (File x) ∧
        node_at (BIN_PATH ++ ["dd-agent"]) S' = Some (File x)) ∧
  (staged S' ["dd-agent"] →
   is_Some (listed "dd-agent" (entries_of (node_at ["pkg"; "status"; "dist"] S))) ∨
   (dev = true ∧
    is_Some (listed "dd-agent" (entries_of (node_at ["dev"; "dist"] S))))).
Proof.
  intros H Hdir. split.
  - rewrite refresh_assets_Stage in H. unfold Stage in H.
    apply bind_ok in H as (S1 & [] & H1 & H).
    destruct (wipe_view _ _ H1) as (B1 & Hv1 & Hfr1 & HB1).
    pose proof (EntriesFor_well_formed h tags dev false) as Hwf.
    rewrite EntriesFor_full in H, Hwf.
    apply Forall_app in Hwf as [Hwf1 [_ Hwf2]%Forall_cons].
    rewrite for_each_app in H. apply bind_ok in H as (S2 & [] & H2 & H).
    cbn [for_each] in H. apply bind_ok in H as (S3 & [] & H3 & H4).
    destruct (run_keys _ _ _ _ _ Hv1 Hwf1 H2) as (B2 & D2 & Hv2 & Hk2 & Hfr2 & HB2).
    specialize (Hk2 "dd-agent").
    rewrite key_run_misses in Hk2 by apply before_stub_misses.
    injection Hk2 as Hk2. symmetry in Hk2.
    assert (get "dd-agent" B2 = get "dd-agent" (entries_of (node_at BIN_PATH S))) as HB2'.
    { rewrite HB2, HB1; try done. intros a Ha Hrel.
      pose proof (before_stub_misses tags) as Hm. rewrite Forall_forall in Hm.
      specialize (Hm _ Ha). destruct a; simpl in *; [done | done | congruence]. }
    rewrite node_at_child in Hdir. rewrite <- HB2' in Hdir.
    destruct (exec_relocate S2 _ "dd-agent" S3 B2 D2 Hv2 ltac:(done) Hk2 Hdir H3)
      as (x & B3 & D3 & Hsrc & Hv3 & Hstub & Hfr3).
    destruct (run_keys _ _ _ _ _ Hv3 Hwf2 H4) as (B' & D' & Hv' & _ & _ & HB').
    exists x. split.
    + rewrite <- Hsrc. symmetry. by rewrite Hfr2, Hfr1.
    + rewrite (view_child _ _ _ _ Hv'), HB', Hstub; try done.
      intros a. apply after_stub_no_relocation.
  - intros (a & Hin & Hp)%(staged_top_iff _ _ _ _ _ _ _ H).
    by eapply provides_stub.
Qed.

(** ** The check subtrees do not depend on the tags *)

Lemma same_checks_sym o1 o2 : same_checks o1 o2 → same_checks o2 o1.
Proof.
  intros [->|(d1 & d2 & -> & -> & H)]; [by left|].
  right. exists d2, d1. repeat split; try done. intros m ?. symmetry. auto.
Qed.

Lemma same_checks_trans o1 o2 o3 :
  same_checks o1 o2 → same_checks o2 o3 → same_checks o1 o3.
Proof.
  intros [->|(d1 & d2 & -> & -> & H)]; [done|].
  intros [<-|(d2' & d3 & [= <-] & -> & H')].
  - right. by exists d1, d2.
  - right. exists d1, d3. repeat split; try done. intros m ?. rewrite H, H'; done.
Qed.

Lemma key_step_same_one S a o o' :
  key_step S a "conf.d" o = (o', ok) → tag_neutral a → same_checks o o'.
Proof.
  intros H [Hm|[src ->]].
  - rewrite key_step_misses in H by done. injection H as <-. by left.
  - cbn [key_step] in H. rewrite decide_True in H by done.
    destruct (node_at src S) as [[y|]|]; try done. cbn [walk] in H.
    destruct o as [[|es]|]; try done.
    destruct (on_entry _ _ es) as [es' r] eqn:Hon. injection H as <- ->.
    right. exists es, es'. repeat split; try done.
    intros m ?. symmetry. by eapply on_entry_other.
Qed.

Lemma on_entry_same n T d1 d2 e1 e2 :
  n ≠ "apm.yaml.default" →
  (∀ m, m ≠ "apm.yaml.default" → get m d1 = get m d2) →
  on_entry n T d1 = (e1, ok) → on_entry n T d2 = (e2, ok) →
  ∀ m, m ≠ "apm.yaml.default" → get m e1 = get m e2.
Proof.
  intros Hn Hd H1 H2 m Hm.
  rewrite (get_on_entry _ _ _ _ _ _ H1), (get_on_entry _ _ _ _ _ _ H2).
  case_decide; [by rewrite Hd | by apply Hd].
Qed.

Lemma key_step_same_two S a o1 o2 o1' o2' :
  common_ok a → same_checks o1 o2 →
  key_step S a "conf.d" o1 = (o1', ok) → key_step S a "conf.d" o2 = (o2', ok) →
  same_checks o1' o2'.
Proof.
  intros [Hflat Hx] [->|(d1 & d2 & -> & -> & Hd)] H1 H2.
  { left. congruence. }
  destruct a as [src [|h [|x [|]]]|src [|h [|x [|]]]|src name];
    cbn [key_step flat] in *; try done.
  - destruct (node_at src S) as [[|cs]|]; try done.
    destruct (listed "conf.d" cs) as [[y|cs']|] eqn:El.
    + simpl in H1, H2. rewrite <- (Hd "conf.d") in H2 by done.
      destruct (get "conf.d" d1) as [[|]|] eqn:Ec; try done;
        injection H1 as <-; injection H2 as <-; right;
        eexists _, _; (repeat split; try done); intros m ?;
        rewrite !get_put; case_decide; auto.
    + apply copy_node_Dir in H1 as (e1 & -> & Hl1).
      apply copy_node_Dir in H2 as (e2 & -> & Hl2). cbn [entries_of] in *.
      right. exists e1, e2. repeat split; try done. intros m Hm.
      pose proof (copy_loop_get _ _ _ _ _ Hl1 m) as Hm1.
      pose proof (copy_loop_get _ _ _ _ _ Hl2 m) as Hm2.
      rewrite decide_False in Hm1, Hm2 by (by intros ?%elem_of_nil).
      rewrite <- (Hd m) in Hm2 by done.
      destruct (listed m cs'); congruence.
    + injection H1 as <-. injection H2 as <-. right. by exists d1, d2.
  - rewrite decide_False in H1, H2 by done.
    injection H1 as <-. injection H2 as <-. right. by exists d1, d2.
  - subst h. rewrite decide_True in H1, H2 by done.
    destruct (node_at src S) as [[|cs]|]; try done. cbn [walk] in H1, H2.
    destruct (on_entry x _ d1) as [e1 r1] eqn:Hon1.
    destruct (on_entry x _ d2) as [e2 r2] eqn:Hon2.
    injection H1 as <- ->. injection H2 as <- ->.
    right. exists e1, e2. repeat split; try done. by eapply on_entry_same.
  - rewrite decide_False in H1, H2 by done.
    injection H1 as <-. injection H2 as <-. right. by exists d1, d2.
  - subst h. rewrite decide_True in H1, H2 by done.
    destruct (node_at src S) as [[y|]|]; try done. cbn [walk] in H1, H2.
    destruct (on_entry x _ d1) as [e1 r1] eqn:Hon1.
    destruct (on_entry x _ d2) as [e2 r2] eqn:Hon2.
    injection H1 as <- ->. injection H2 as <- ->.
    right. exists e1, e2. repeat split; try done. by eapply on_entry_same.
  - rewrite decide_False in H1, H2 by done.
    injection H1 as <-. injection H2 as <-. right. by exists d1, d2.
Qed.

Lemma key_run_same S h tags1 tags2 dev puppy man :
  Forall neutral_entry man →
  ∀ o1 o2 o1' o2',
    same_checks o1 o2 →
    key_run S (filter (λ e : trigger * action,
                 selected h tags1 dev puppy e.1 = true) man).*2 "conf.d" o1
      = (o1', ok) →
    key_run S (filter (λ e : trigger * action,
                 selected h tags2 dev puppy e.1 = true) man).*2 "conf.d" o2
      = (o2', ok) →
    same_checks o1' o2'.
Proof.
  induction 1 as [|[tr a] man Ha _ IH]; intros o1 o2 o1' o2' Ho H1 H2.
  { injection H1 as <-. by injection H2 as <-. }
  rewrite EntriesFor_cons in H1, H2. unfold neutral_entry in Ha. simpl in Ha.
  assert (∀ tags o o',
    key_run S ((if selected h tags dev puppy tr then [a] else []) ++
               (filter (λ e : trigger * action,
                  selected h tags dev puppy e.1 = true) man).*2) "conf.d" o
      = (o', ok) →
    ∃ o1, key_run S (filter (λ e : trigger * action,
                       selected h tags dev puppy e.1 = true) man).*2 "conf.d" o1
            = (o', ok) ∧
          (if selected h tags dev puppy tr
           then key_step S a "conf.d" o = (o1, ok) else o1 = o)) as Hstep.
  { intros tags o o' Hr. destruct (selected h tags dev puppy tr); [|by exists o].
    cbn [app key_run] in Hr.
    destruct (key_step S a "conf.d" o) as [o1'' [e|[]]]; [done|]. by exists o1''. }
  apply Hstep in H1 as (p1 & H1 & Hp1). apply Hstep in H2 as (p2 & H2 & Hp2).
  apply (IH p1 p2 _ _); [|done|done].
  destruct tr; cbn [selected] in Hp1, Hp2; cbv iota in Ha.
  4: { destruct (bool_decide (t ∈ tags1)), (bool_decide (t ∈ tags2)); subst; try done.
       - eapply same_checks_trans; [|by eapply key_step_same_one].
         eapply same_checks_trans; [|done].
         apply same_checks_sym. by eapply key_step_same_one.
       - eapply same_checks_trans; [|done].
         apply same_checks_sym. by eapply key_step_same_one.
       - eapply same_checks_trans; [done|]. by eapply key_step_same_one. }
  all: destruct puppy, dev, (is_linux h); cbn [negb] in *; subst;
    first [ done | by apply (key_step_same_two _ _ _ _ _ _ Ha Ho Hp1 Hp2) ].
Qed.

Lemma manifest_neutral : Forall neutral_entry manifest.
Proof.
  unfold manifest. cbn.
  repeat (apply Forall_cons; split;
          [first [ by left | by right; eexists | by split ] |]).
  constructor.
Qed.

Lemma check_dir_not_apm c : c +:+ ".d" ≠ "apm.yaml.default".
Proof.
  intros H.
  do 17 (destruct c as [|? c]; [discriminate H|]; simpl in H;
         try (injection H as _ H); try discriminate H).
Qed.

Lemma docker_selected h tags dev :
  CopyTree (agent_dist ++ conf_d "docker") (conf_d "docker")
    ∈ EntriesFor h tags dev false.
Proof.
  apply elem_of_EntriesFor. exists FullOnly. split; [|done].
  unfold manifest. cbn. set_solver.
Qed.

(** C10.  Two runs that succeed from the same file system with the same
    flags and any two tag lists leave the same subtree
    [conf.d/<check>.d] for every check name; and without the minimal
    profile [conf.d/docker.d] is staged, whatever the tags. *)
Theorem check_subtrees_ignore_tags h tags1 tags2 dev puppy S S1 S2 :
  refresh_assets h tags1 dev puppy S = (S1, ok) →
  refresh_assets h tags2 dev puppy S = (S2, ok) →
  (∀ c q, node_at (dist_folder ++ conf_d c ++ q) S1 =
          node_at (dist_folder ++ conf_d c ++ q) S2) ∧
  (puppy = false → staged S1 ["conf.d"; "docker.d"]).
Proof.
  intros H1 H2. split.
  - destruct (refresh_assets_keys _ _ _ _ _ _ H1) as (B1 & D1 & Hv1 & Hk1 & _ & _).
    destruct (refresh_assets_keys _ _ _ _ _ _ H2) as (B2 & D2 & Hv2 & Hk2 & _ & _).
    specialize (Hk1 "conf.d"). specialize (Hk2 "conf.d").
    pose proof (key_run_same S h tags1 tags2 dev puppy manifest manifest_neutral
                  None None _ _ (or_introl eq_refl) Hk1 Hk2) as Hsame.
    intros c q. rewrite !node_at_app, (view_dist _ _ _ Hv1), (view_dist _ _ _ Hv2).
    unfold conf_d. cbn [app]. rewrite !node_at_cons_Dir.
    destruct Hsame as [->|(d1 & d2 & -> & -> & Hd)]; [done|].
    rewrite !node_at_cons_Dir. by rewrite Hd by apply check_dir_not_apm.
  - intros ->. apply (staged_confd_iff _ _ _ _ _ _ _ H1).
    eexists. split; [apply docker_selected|]. by split.
Qed.

(** ** Staging starts from nothing *)

Lemma walk_rmtree_noop p a o :
  is_dir (match o with Some c => node_at p c | None => None end) = false →
  (walk false p (λ _ o, match o with
                        | Some (Dir _) => (None, ok)
                        | _ => (o, inl OSError)
                        end) a o).1 = o.
Proof.
  revert a o. induction p as [|m p IH]; intros a o Hd; simpl in *.
  - by destruct o as [[|]|].
  - destruct o as [[|es]|]; try done.
    unfold on_entry. specialize (IH m (get m es)).
    destruct (walk false p _ m (get m es)) as [o1 r1]; simpl in *.
    rewrite IH; [by rewrite store_get|]. by destruct (get m es).
Qed.

Lemma shutil_rmtree_noop p S :
  is_dir (node_at p S) = false → (shutil_rmtree p S).1 = S.
Proof.
  intros Hd. unfold shutil_rmtree, at_entry.
  destruct p as [|n p]; [done|]. destruct S as [|es]; [done|].
  unfold on_entry.
  pose proof (walk_rmtree_noop p n (get n es)) as H.
  destruct (walk false p _ n (get n es)) as [o1 r1]; simpl in *.
  rewrite H; [by rewrite store_get|]. by destruct (get n es).
Qed.

Lemma wipe_without_dist S : wipe S = wipe (shutil_rmtree dist_folder S).1.
Proof.
  destruct (is_dir (node_at dist_folder S)) eqn:Hd;
    [|by rewrite shutil_rmtree_noop].
  destruct (node_at dist_folder S) as [[|ds]|] eqn:Ed; try done.
  assert (∃ B, node_at BIN_PATH S = Some (Dir B) ∧ get "dist" B = Some (Dir ds))
    as (B & HB & HBd).
  { unfold dist_folder in Ed. rewrite node_at_app in Ed.
    destruct (node_at BIN_PATH S) as [[|B]|]; try done. exists B. split; [done|].
    simpl in Ed. by destruct (get "dist" B). }
  destruct (shutil_rmtree dist_folder S) as [Sw r] eqn:Erm. cbn [fst].
  pose proof Erm as Erm'. unfold shutil_rmtree in Erm'.
  change dist_folder with (BIN_PATH ++ ["dist"]) in Erm'.
  destruct (at_entry_under _ _ _ _ _ _ _ _ _ HB Erm') as (Bw & Hon & HBw & _).
  pose proof (on_entry_result _ _ _ _ _ Hon) as Hres. rewrite HBd in Hres.
  simpl in Hres. injection Hres as Hres <-.
  assert (node_at dist_folder Sw = None) as Edw.
  { unfold dist_folder. rewrite node_at_app, HBw. simpl. by rewrite <- Hres. }
  unfold wipe, bind, os_path_exists. rewrite HB, HBw.
  rewrite !bool_decide_true by eauto. cbn [negb when ret]. rewrite Ed, Edw.
  rewrite bool_decide_true by eauto.
  rewrite bool_decide_false by (by intros [? ?]).
  cbn [when ret]. by rewrite Erm.
Qed.

(** C5.  [refresh_assets] is the wipe followed by the copies; a wipe
    that succeeds leaves the output root an empty directory; and the
    outcome of a run is the outcome of the same run from a file system
    whose output root has been removed, so nothing of an earlier run
    survives. *)
Theorem staging_wipes_before_populating h tags dev puppy S :
  refresh_assets h tags dev puppy S =
    (wipe ;; for_each (EntriesFor h tags dev puppy) exec) S ∧
  (∀ S1, wipe S = (S1, ok) → node_at dist_folder S1 = Some (Dir [])) ∧
  refresh_assets h tags dev puppy S =
    refresh_assets h tags dev puppy (shutil_rmtree dist_folder S).1.
Proof.
  split; [apply refresh_assets_Stage|]. split.
  - intros S1 (B & Hv & _)%wipe_view. by eapply view_dist.
  - rewrite !refresh_assets_Stage. unfold Stage, bind.
    by rewrite <- wipe_without_dist.
Qed.

(** ** Concrete runs *)

(** C1: no trigger of the specification explains [conf.d/docker.d]. *)
Lemma docker_check_has_no_spec_trigger :
  ¬ ∃ tr, spec_trigger tr ∧
      ∀ tags puppy S',
        refresh_assets linux_host tags false puppy sample_fs = (S', ok) →
        (staged S' ["conf.d"; "docker.d"] ↔
         selected linux_host tags false puppy tr = true).
Proof.
  intros (tr & Hspec & H).
  pose proof (H [] false _ ltac:(vm_compute; reflexivity)) as H1.
  pose proof (H [] true _ ltac:(vm_compute; reflexivity)) as H2.
  assert (selected linux_host [] false false tr = true) as Hsel.
  { apply H1. vm_compute. by eexists. }
  assert (selected linux_host [] false true tr = true) as Hsel'.
  { destruct tr; try done. }
  apply H2 in Hsel'. vm_compute in Hsel'. by destruct Hsel'.
Qed.

(** ** Tag resolution *)

Lemma elem_of_unique x l : x ∈ unique l ↔ x ∈ l.
Proof.
  induction l as [|y l IH]; simpl; [done|].
  rewrite !elem_of_cons, list_elem_of_filter, IH.
  destruct (decide (x = y)); naive_solver.
Qed.

Lemma NoDup_unique l : NoDup (unique l).
Proof.
  induction l as [|y l IH]; simpl; [constructor|].
  constructor; [|by apply NoDup_filter].
  rewrite list_elem_of_filter. naive_solver.
Qed.

Lemma elem_of_append_missing x tags exc :
  x ∈ append_missing tags exc ↔ x ∈ exc ∨ x ∈ tags.
Proof.
  unfold append_missing. revert exc.
  induction tags as [|t tags IH]; intros exc; simpl.
  - rewrite elem_of_nil. naive_solver.
  - rewrite IH, elem_of_cons. case_decide.
    + naive_solver.
    + rewrite elem_of_app, list_elem_of_singleton. naive_solver.
Qed.

Section resolution.
Context (cat : tag_catalog).

Lemma elem_of_PlatformConstraintResolver h t :
  t ∈ PlatformConstraintResolver cat h ↔
  (is_linux h = false ∧ t ∈ LINUX_ONLY_TAGS cat) ∨
  ((lower (linux_distribution h) ∉ REDHAT_AND_DEBIAN_DIST cat) ∧
   t ∈ REDHAT_AND_DEBIAN_ONLY_TAGS cat).
Proof.
  unfold PlatformConstraintResolver. rewrite elem_of_app.
  destruct (is_linux h); case_decide; rewrite ?elem_of_nil; naive_solver.
Qed.

Lemma elem_of_platform_exclude h exc t :
  t ∈ platform_exclude cat h exc ↔ t ∈ exc ∨ t ∈ PlatformConstraintResolver cat h.
Proof.
  rewrite elem_of_PlatformConstraintResolver. unfold platform_exclude.
  destruct (is_linux h); simpl; case_decide;
    rewrite ?elem_of_append_missing; naive_solver.
Qed.

Lemma get_build_tags_ok include exclude tags :
  get_build_tags cat include exclude = inr tags →
  NoDup tags ∧ ∀ t, t ∈ tags ↔ t ∈ include ∧ t ∉ exclude.
Proof.
  unfold get_build_tags. case_decide; [|done]. intros [= <-].
  split; [apply NoDup_unique|]. intros t.
  by rewrite elem_of_unique, list_elem_of_filter, (comm and).
Qed.

Lemma get_default_build_tags_ok h t :
  t ∈ get_default_build_tags cat h true ↔
  t ∈ MINIMAL_TAGS cat ∧ t ∉ PlatformConstraintResolver cat h.
Proof.
  unfold get_default_build_tags.
  by rewrite elem_of_unique, list_elem_of_filter, (comm and).
Qed.

Lemma resolved_no_constraint h inc exc puppy tags t :
  resolve_build_tags cat h inc exc puppy = inr tags →
  t ∈ PlatformConstraintResolver cat h → t ∉ tags.
Proof.
  unfold resolve_build_tags. destruct puppy.
  - intros [= <-] Ht. rewrite get_default_build_tags_ok. naive_solver.
  - intros [_ Hok]%get_build_tags_ok Ht. rewrite Hok, elem_of_platform_exclude.
    naive_solver.
Qed.

(** C2.  With the minimal profile the resolved tag set is one and the
    same for every include list and every exclude list: the tags of
    [MinimalTagSet()] that are no platform constraint of the host, each
    once. *)
Theorem minimal_profile_overrides h :
  ∃ tags,
    (∀ inc exc, resolve_build_tags cat h inc exc true = inr tags) ∧
    NoDup tags ∧
    (∀ t, t ∈ tags ↔ t ∈ MINIMAL_TAGS cat ∧ t ∉ PlatformConstraintResolver cat h).
Proof.
  exists (get_default_build_tags cat h true). split; [done|].
  split; [apply NoDup_unique | apply get_default_build_tags_ok].
Qed.

(** C3.  A resolved tag set holds no tag of the exclusion groups that
    apply to the host: none of the Linux-only tags off Linux, none of the
    distribution-restricted tags when the distribution is not on the
    whitelist, whatever the include list, the exclude list and the
    profile. *)
Theorem platform_constraints_take_precedence h inc exc puppy tags :
  resolve_build_tags cat h inc exc puppy = inr tags →
  (is_linux h = false → ∀ t, t ∈ LINUX_ONLY_TAGS cat → t ∉ tags) ∧
  (lower (linux_distribution h) ∉ REDHAT_AND_DEBIAN_DIST cat →
   ∀ t, t ∈ REDHAT_AND_DEBIAN_ONLY_TAGS cat → t ∉ tags).
Proof.
  intros H. split.
  - intros Hos t Ht. apply (resolved_no_constraint _ _ _ _ _ _ H).
    apply elem_of_PlatformConstraintResolver. by left.
  - intros Hdist t Ht. apply (resolved_no_constraint _ _ _ _ _ _ H).
    apply elem_of_PlatformConstraintResolver. by right.
Qed.

(** C6.  With a catalog that knows its own exclusion groups and lists
    that name known tags only, resolution returns a tag set, on every host:
    the Linux-only tags are dropped off Linux and the
    distribution-restricted tags when the distribution is not on the
    whitelist, in particular when none is detected; every other included
    tag that is not excluded stays. *)
Theorem platform_filtering_is_silent h inc exc puppy :
  Forall (λ t, t ∈ ALL_TAGS cat) (LINUX_ONLY_TAGS cat) →
  Forall (λ t, t ∈ ALL_TAGS cat) (REDHAT_AND_DEBIAN_ONLY_TAGS cat) →
  Forall (λ t, t ∈ ALL_TAGS cat) (include_list inc) →
  Forall (λ t, t ∈ ALL_TAGS cat) (exclude_list exc) →
  ∃ tags,
    resolve_build_tags cat h inc exc puppy = inr tags ∧
    (is_linux h = false → ∀ t, t ∈ LINUX_ONLY_TAGS cat → t ∉ tags) ∧
    (lower (linux_distribution h) ∉ REDHAT_AND_DEBIAN_DIST cat →
     ∀ t, t ∈ REDHAT_AND_DEBIAN_ONLY_TAGS cat → t ∉ tags) ∧
    (linux_distribution h = EmptyString →
     EmptyString ∉ REDHAT_AND_DEBIAN_DIST cat →
     ∀ t, t ∈ REDHAT_AND_DEBIAN_ONLY_TAGS cat → t ∉ tags) ∧
    (puppy = false →
     ∀ t, t ∈ tags ↔
          t ∈ include_list inc ∧ (t ∉ exclude_list exc) ∧
          (t ∉ PlatformConstraintResolver cat h)).
Proof.
  intros HL HR Hinc Hexc.
  assert (∃ tags, resolve_build_tags cat h inc exc puppy = inr tags) as [tags Hres].
  { unfold resolve_build_tags. destruct puppy; [by eauto|].
    unfold get_build_tags. rewrite decide_True; [by eauto|].
    apply Forall_app. split; [done|]. apply Forall_forall.
    intros t [?|Ht]%elem_of_platform_exclude.
    - by eapply Forall_forall in Hexc.
    - apply elem_of_PlatformConstraintResolver in Ht as [[_ ?]|[_ ?]].
      + by eapply Forall_forall in HL.
      + by eapply Forall_forall in HR. }
  exists tags. split; [done|].
  assert (∀ t, t ∈ PlatformConstraintResolver cat h → t ∉ tags) as Hno
    by (intros t; apply (resolved_no_constraint _ _ _ _ _ _ Hres)).
  assert (is_linux h = false → ∀ t, t ∈ LINUX_ONLY_TAGS cat → t ∉ tags) as H1.
  { intros ? t ?. apply Hno, elem_of_PlatformConstraintResolver. by left. }
  assert (lower (linux_distribution h) ∉ REDHAT_AND_DEBIAN_DIST cat →
          ∀ t, t ∈ REDHAT_AND_DEBIAN_ONLY_TAGS cat → t ∉ tags) as H2.
  { intros ? t ?. apply Hno, elem_of_PlatformConstraintResolver. by right. }
  split; [done|]. split; [done|]. split.
  - intros Hd ?. apply H2. by rewrite Hd.
  - intros ->. unfold resolve_build_tags in Hres.
    apply get_build_tags_ok in Hres as [_ Hok]. intros t.
    rewrite Hok, elem_of_platform_exclude. naive_solver.
Qed.
End resolution.

(** ** [build] *)

Section build_props.
Context (cat : tag_catalog) (ctx : invoke_context).


(** Whatever the commands preserve, [build] with [skip_assets] preserves:
    it touches the file system through [ctx.run] only. *)
Lemma build_skip_invariant (P : FS → Prop)
    h rebuild race inc exc puppy development precompile_only S :
  (∀ cmd e S, P S → P (ctx_run ctx cmd e S).1) →
  P S →
  P (build cat ctx h rebuild race inc exc puppy development precompile_only
           true S).1.
Proof.
  intros Hrun HP. unfold build.
  assert (∀ S, P S → P (when (bool_decide (sys_platform h = "win32"))
                             (windows_resources ctx) S).1) as Hwin.
  { intros S0 HP0. destruct (bool_decide _); [|done]. simpl.
    unfold windows_resources.
    destruct (split_on "." (version_numeric_only ctx)) as [|a [|b [|c [|]]]]; try done.
    unfold bind. pose proof (Hrun "windmc --target pe-x86-64 -r cmd/agent cmd/agent/agentmsg.mc " (env ctx) S0 HP0) as H1.
    destruct (ctx_run ctx _ (env ctx) S0) as [S1 [e|[]]]; [done|].
    apply Hrun, H1. }
  unfold bind at 1. specialize (Hwin S HP).
  destruct (when _ _ S) as [S1 [e|[]]]; [done|]. simpl in Hwin.
  unfold bind at 1.
  destruct (resolve_build_tags cat h inc exc puppy) as [e|tags]; [done|]. simpl.
  unfold bind at 1.
  pose proof (Hrun (go_build_cmd ctx rebuild race precompile_only tags) (env ctx) S1 Hwin) as H2.
  destruct (ctx_run ctx _ (env ctx) S1) as [S2 [e|[]]]; [done|]. simpl in H2.
  unfold bind.
  pose proof (Hrun ("go generate " +:+ REPO_PATH ctx +:+ "/cmd/agent")
                (<["GOOS" := EmptyString]> (<["GOARCH" := EmptyString]> (env ctx))) S2 H2) as H3.
  destruct (ctx_run ctx _ _ S2) as [S3 [e|[]]]; done.
Qed.

(** C8.  With [skip_assets], and commands that leave the output root
    alone, [build] leaves the output root as it was, for every host, tag
    list and flag. *)
Theorem skip_assets_leaves_output_root
    h rebuild race inc exc puppy development precompile_only S :
  (∀ cmd e S, node_at dist_folder (ctx_run ctx cmd e S).1 = node_at dist_folder S) →
  node_at dist_folder
    (build cat ctx h rebuild race inc exc puppy development precompile_only
           true S).1 = node_at dist_folder S.
Proof.
  intros Hrun.
  apply (build_skip_invariant (λ S', node_at dist_folder S' = node_at dist_folder S));
    [|done].
  intros cmd e S0 <-. apply Hrun.
Qed.
End build_props.


(** ** Concrete instances *)

Ltac by_evaluation := apply (bool_decide_unpack _); vm_compute; exact I.

Lemma staged_exactly_selected_witness :
  ∃ S', refresh_assets linux_host ["python"; "apm"] true false sample_fs = (S', ok) ∧
    (staged S' ["conf.d"; "docker.d"] ↔
     ∃ tr a, (tr, a) ∈ manifest ∧
       selected linux_host ["python"; "apm"] true false tr = true ∧
       provides sample_fs a ["conf.d"; "docker.d"]).
Proof.
  eexists. split; [vm_compute; reflexivity|].
  apply (staged_exactly_selected linux_host ["python"; "apm"] true false sample_fs).
  - vm_compute; reflexivity.
  - right. eexists. reflexivity.
Defined.

Lemma platform_constraints_witness :
  resolve_build_tags sample_catalog darwin_host (Some "docker,systemd") None false
    = inr ["docker"] ∧
  ((is_linux darwin_host = false →
    ∀ t, t ∈ LINUX_ONLY_TAGS sample_catalog → t ∉ ["docker"]) ∧
   (lower (linux_distribution darwin_host) ∉ REDHAT_AND_DEBIAN_DIST sample_catalog →
    ∀ t, t ∈ REDHAT_AND_DEBIAN_ONLY_TAGS sample_catalog → t ∉ ["docker"])).
Proof.
  split; [vm_compute; reflexivity|].
  apply (platform_constraints_take_precedence sample_catalog darwin_host
           (Some "docker,systemd") None false).
  vm_compute; reflexivity.
Defined.



Lemma staging_wipes_witness :
  ∃ S1 S2,
    refresh_assets linux_host ["python"] false false sample_fs = (S1, ok) ∧
    staged S1 ["checks"] ∧
    refresh_assets linux_host [] false false S1 = (S2, ok) ∧
    ¬ staged S2 ["checks"] ∧
    node_at dist_folder (wipe S1).1 = Some (Dir []) ∧
    refresh_assets linux_host [] false false S1 =
      refresh_assets linux_host [] false false (shutil_rmtree dist_folder S1).1.
Proof.
  eexists. eexists. split; [vm_compute; reflexivity|].
  split; [vm_compute; eexists; reflexivity|].
  split; [vm_compute; reflexivity|].
  split; [vm_compute; intros [? ?]; discriminate|].
  split.
  - match goal with
    | |- node_at _ (wipe ?S).1 = _ =>
        apply (proj1 (proj2 (staging_wipes_before_populating
                               linux_host [] false false S)))
    end.
    vm_compute; reflexivity.
  - apply (staging_wipes_before_populating linux_host [] false false).
Defined.

Lemma platform_filtering_witness :
  ∃ tags,
    resolve_build_tags sample_catalog darwin_host None None false = inr tags ∧
    ("systemd" ∉ tags) ∧ "docker" ∈ tags.
Proof.
  destruct (platform_filtering_is_silent sample_catalog darwin_host None None false)
    as (tags & Hres & H1 & H2 & H3 & H4); try by_evaluation.
  exists tags. split; [exact Hres|]. split.
  - apply H1; [reflexivity | by_evaluation].
  - apply H4; [reflexivity | by_evaluation].
Defined.

Lemma launcher_stub_witness :
  ∃ S', refresh_assets linux_host [] false false sample_fs = (S', ok) ∧
    (∃ x, node_at (agent_dist ++ ["dd-agent"]) sample_fs = Some (File x) ∧
          node_at (BIN_PATH ++ ["dd-agent"]) S' = Some (File x)).
Proof.
  eexists. split; [vm_compute; reflexivity|].
  apply (launcher_stub_relocated linux_host [] false sample_fs).
  - vm_compute; reflexivity.
  - reflexivity.
Defined.

(** C7: with the minimal profile no stub is staged; a stub that an
    overlay provides stays in the output root; a directory
    [bin/agent/dd-agent] takes the stub inside. *)
Lemma launcher_stub_not_always_relocated :
  (∃ S', refresh_assets linux_host [] false true sample_fs = (S', ok) ∧
         node_at (BIN_PATH ++ ["dd-agent"]) S' = None) ∧
  (∃ S', refresh_assets linux_host [] false false
           (checkout [ ("dd-agent", File "other") ] []) = (S', ok) ∧
         staged S' ["dd-agent"]) ∧
  (∃ S', refresh_assets linux_host [] false false
           (checkout [] [ ("agent", Dir [ ("dd-agent", Dir []) ]) ]) = (S', ok) ∧
         node_at (BIN_PATH ++ ["dd-agent"]) S'
           = Some (Dir [ ("dd-agent", File "stub") ])).
Proof.
  split; [|split]; eexists; (split; [vm_compute; reflexivity|]).
  - reflexivity.
  - vm_compute. eexists. reflexivity.
  - reflexivity.
Qed.

Lemma skip_assets_witness :
  node_at dist_folder
    (build sample_catalog (sample_context silent_run) linux_host false false
           None None false true false true sample_fs).1
  = node_at dist_folder sample_fs.
Proof.
  apply skip_assets_leaves_output_root. intros cmd e S. reflexivity.
Defined.

Lemma minimal_profile_no_stub_witness :
  ∃ S', refresh_assets linux_host [] false true sample_fs = (S', ok) ∧
    node_at (BIN_PATH ++ ["dd-agent"]) S'
      = node_at (BIN_PATH ++ ["dd-agent"]) sample_fs.
Proof.
  eexists. split; [vm_compute; reflexivity|].
  apply (minimal_profile_stages_no_stub linux_host [] false sample_fs).
  vm_compute; reflexivity.
Defined.

Lemma check_subtrees_witness :
  ∃ S1 S2,
    refresh_assets linux_host ["python"; "apm"; "docker"] false false sample_fs
      = (S1, ok) ∧
    refresh_assets linux_host [] false false sample_fs = (S2, ok) ∧
    (∀ c q, node_at (dist_folder ++ conf_d c ++ q) S1 =
            node_at (dist_folder ++ conf_d c ++ q) S2) ∧
    staged S2 ["conf.d"; "docker.d"].
Proof.
  eexists. eexists. split; [vm_compute; reflexivity|].
  split; [vm_compute; reflexivity|]. split.
  - refine (proj1 (check_subtrees_ignore_tags linux_host
                    ["python"; "apm"; "docker"] [] false false sample_fs
                    _ _ _ _));
      vm_compute; reflexivity.
  - refine (proj2 (check_subtrees_ignore_tags linux_host [] [] false false
                    sample_fs _ _ _ _) eq_refl);
      vm_compute; reflexivity.
Defined.

(** * Further properties *)

(** ** What a call leaves alone *)

Lemma apart_cons_inv m p q :
  apart (m :: p) q = true →
  ∃ a q', q = a :: q' ∧ (a ≠ m ∨ (a = m ∧ apart p q' = true)).
Proof.
  destruct q as [|a q']; simpl; [done|]. case_decide; subst.
  - intros ?. exists a, q'. naive_solver.
  - intros _. exists a, q'. naive_solver.
Qed.

Lemma apart_app_l p r q : apart p q = true → apart (p ++ r) q = true.
Proof.
  revert q. induction p as [|m p IH]; intros q; simpl; [done|].
  destruct q as [|a q']; [done|]. case_decide; auto.
Qed.

Lemma walk_frame mk p f n o o' r :
  walk mk p f n o = (o', r) →
  ∀ q, apart p q = true → node_below q o' = node_below q o.
Proof.
  revert n o o' r. induction p as [|m p IH]; intros n o o' r H q Hq; [done|].
  apply apart_cons_inv in Hq as (a & q' & -> & Hq).
  assert (∀ es es', on_entry m (walk mk p f m) es = (es', r) →
            node_at (a :: q') (Dir es') = node_at (a :: q') (Dir es)) as Hstep.
  { intros es es' He. rewrite !node_at_cons_Dir.
    rewrite (get_on_entry _ _ _ _ _ _ He). case_decide as Ham; [|done]. subst a.
    destruct Hq as [?|[_ Hq]]; [done|].
    destruct (walk mk p f m (get m es)) as [o1 r1] eqn:Ew.
    pose proof (IH _ _ _ _ Ew _ Hq) as HI. simpl in *.
    destruct o1, (get m es); simpl in *; done. }
  simpl in H. destruct o as [[x|es]|].
  - by injection H as <- <-.
  - destruct (on_entry m (walk mk p f m) es) as [es' r'] eqn:He.
    injection H as <- <-. cbn [node_below]. by apply Hstep.
  - destruct mk; [|by injection H as <- <-].
    destruct (on_entry m (walk true p f m) []) as [es' r'] eqn:He.
    injection H as <- <-. cbn [node_below]. by rewrite (Hstep _ _ He).
Qed.

Lemma at_entry_frame mk p f S S' r :
  at_entry mk p f S = (S', r) →
  ∀ q, apart p q = true → node_at q S' = node_at q S.
Proof.
  intros H q Hq. unfold at_entry in H.
  destruct p as [|n p]; [by injection H as <- <-|].
  destruct S as [x|es]; [by injection H as <- <-|].
  destruct (on_entry n (walk mk p f n) es) as [es' r'] eqn:He.
  injection H as <- <-.
  apply apart_cons_inv in Hq as (a & q' & -> & Hq). rewrite !node_at_cons_Dir.
  rewrite (get_on_entry _ _ _ _ _ _ He). case_decide as Ham; [|done]. subst a.
  destruct Hq as [?|[_ Hq]]; [done|].
  destruct (walk mk p f n (get n es)) as [o1 r1] eqn:Ew.
  pose proof (walk_frame _ _ _ _ _ _ _ Ew _ Hq) as HI. simpl in *.
  destruct o1, (get n es); simpl in *; done.
Qed.

Lemma leaves_ret {A} keep (a : A) : leaves keep (ret a).
Proof. done. Qed.

Lemma leaves_raise {A} keep e : leaves keep (raise e : M A).
Proof. done. Qed.

Lemma leaves_bind {A B} keep (m : M A) (k : A → M B) :
  leaves keep m → (∀ a, leaves keep (k a)) → leaves keep (bind m k).
Proof.
  intros Hm Hk S q Hq. unfold bind. specialize (Hm S q Hq).
  destruct (m S) as [S1 [e|a]]; [done|]. simpl in Hm. by rewrite Hk.
Qed.

Lemma leaves_when keep b m : leaves keep m → leaves keep (when b m).
Proof. by destruct b. Qed.

Lemma leaves_for_each {A} keep (l : list A) body :
  (∀ x, leaves keep (body x)) → leaves keep (for_each l body).
Proof.
  intros Hb. induction l as [|x l IH]; simpl; [done|].
  apply leaves_bind; auto.
Qed.

Lemma leaves_at_entry keep mk p f :
  (∀ q, keep q → apart p q = true) → leaves keep (at_entry mk p f).
Proof.
  intros Hk S q Hq. destruct (at_entry mk p f S) as [S' r] eqn:E.
  by apply (at_entry_frame _ _ _ _ _ _ E), Hk.
Qed.

Lemma leaves_exists keep p : leaves keep (os_path_exists p).
Proof. done. Qed.

Lemma leaves_copy_tree keep src dst :
  (∀ q, keep q → apart dst q = true) → leaves keep (copy_tree src dst).
Proof.
  intros Hk S q Hq. unfold copy_tree, copy_tree_from.
  destruct (node_at src S) as [[x|cs]|]; try done.
  by apply (leaves_at_entry keep).
Qed.

Lemma leaves_shutil_copy keep src dst :
  (∀ q, keep q → apart dst q = true) → leaves keep (shutil_copy src dst).
Proof.
  intros Hk S q Hq. unfold shutil_copy, shutil_copy_from.
  destruct (node_at src S) as [[x|cs]|]; try done.
  by apply (leaves_at_entry keep).
Qed.

Lemma leaves_shutil_move keep src dst :
  (∀ q, keep q → apart src q = true ∧ apart dst q = true) →
  leaves keep (shutil_move src dst).
Proof.
  intros Hk S q Hq. unfold shutil_move.
  destruct (node_at src S) as [c|]; [|done].
  case_decide; [done|].
  refine (leaves_bind keep _ _ _ _ S q Hq).
  - apply leaves_at_entry. intros q' Hq'.
    destruct (is_dir (node_at dst S)); [apply apart_app_l|]; naive_solver.
  - intros _. apply leaves_at_entry. naive_solver.
Qed.

Lemma outside_staging_dist q :
  outside_staging q = true → apart dist_folder q = true.
Proof. by intros [? _]%andb_prop. Qed.

Lemma outside_staging_stub q :
  outside_staging q = true → apart (BIN_PATH ++ ["dd-agent"]) q = true.
Proof. by intros [_ ?]%andb_prop. Qed.

(** [os.mkdir(BIN_PATH)], which [refresh_assets] calls when [BIN_PATH] does
    not exist. *)
Lemma mkdir_bin_leaves S q :
  node_at BIN_PATH S = None → apart dist_folder q = true →
  node_at q (os_mkdir BIN_PATH S).1 = node_at q S.
Proof.
  intros Hno Hq.
  destruct (os_mkdir BIN_PATH S) as [S' r] eqn:E.
  destruct (decide (apart BIN_PATH q = true)) as [Ha|Ha].
  { by apply (at_entry_frame _ _ _ _ _ _ E). }
  (* [q] is [bin/agent/x...] with [x] other than [dist] *)
  destruct q as [|a [|b [|c q']]]; simpl in Hq, Ha; try done;
    repeat case_decide; subst; try done. clear Hq Ha.
  change ("bin" :: "agent" :: c :: q') with (BIN_PATH ++ c :: q').
  rewrite !(node_at_app BIN_PATH), Hno. cbn [fst].
  assert (node_at BIN_PATH S' = None ∨ node_at BIN_PATH S' = Some (Dir [])) as [->| ->];
    [|done|done].
  unfold os_mkdir, at_entry, BIN_PATH in E. unfold BIN_PATH in Hno.
  destruct S as [x|es]; [injection E as <- <-; by left|].
  unfold on_entry in E. cbn [walk] in E. rewrite node_at_cons_Dir in Hno.
  destruct (get "bin" es) as [[x|bs]|] eqn:Eb.
  - injection E as <- _. left. unfold BIN_PATH.
    by rewrite node_at_cons_Dir, get_put, decide_True.
  - unfold on_entry in E. rewrite node_at_cons_Dir in Hno.
    destruct (get "agent" bs) as [na|] eqn:Eag; [done|].
    injection E as <- _. right. unfold BIN_PATH.
    rewrite node_at_cons_Dir, get_put, decide_True by done.
    by rewrite node_at_cons_Dir, get_put, decide_True.
  - injection E as <- _. left. unfold BIN_PATH.
    by rewrite node_at_cons_Dir, get_del, decide_True.
Qed.

Lemma leaves_for_each_in {A} keep (l : list A) body :
  (∀ x, x ∈ l → leaves keep (body x)) → leaves keep (for_each l body).
Proof.
  induction l as [|x l IH]; intros Hb; simpl; [done|].
  apply leaves_bind; [apply Hb; by left|]. intros _. apply IH.
  intros y ?. apply Hb. by right.
Qed.

Section staging_frame.
Context (keep : path → Prop).
Context (keep_dist : ∀ q, keep q → apart dist_folder q = true).

Lemma keep_below_dist q r : keep q → apart (dist_folder ++ r) q = true.
Proof. intros ?. by apply apart_app_l, keep_dist. Qed.

Lemma wipe_leaves : leaves keep wipe.
Proof.
  assert (leaves keep
            (dist_exists <- os_path_exists dist_folder ;;
             when dist_exists (shutil_rmtree dist_folder) ;;
             os_mkdir dist_folder)) as Hrest.
  { apply leaves_bind; [apply leaves_exists|]. intros b.
    apply leaves_bind; [apply leaves_when|intros _]; by apply leaves_at_entry. }
  intros S q Hq. unfold wipe. unfold bind at 1. unfold os_path_exists at 1.
  unfold bind at 1.
  assert (node_at q (when (negb (bool_decide (is_Some (node_at BIN_PATH S))))
                          (os_mkdir BIN_PATH) S).1 = node_at q S) as H0.
  { case_bool_decide as Hb; simpl; [done|].
    apply mkdir_bin_leaves; [|by apply keep_dist].
    destruct (node_at BIN_PATH S); [|done]. destruct Hb. by eexists. }
  destruct (when _ _ S) as [S0 [e|[]]]; [done|]. simpl in H0. rewrite <- H0.
  by apply Hrest.
Qed.

Lemma exec_leaves a :
  (∀ k q, relocates a k → keep q → apart (BIN_PATH ++ [k]) q = true) →
  leaves keep (exec a).
Proof.
  intros Hk. destruct a as [src dst|src dst|src name]; cbn [exec].
  - apply leaves_copy_tree. intros; by apply keep_below_dist.
  - apply leaves_shutil_copy. intros; by apply keep_below_dist.
  - apply leaves_bind; [|intros _].
    + apply leaves_shutil_copy. intros; by apply keep_below_dist.
    + apply leaves_shutil_move. intros q Hq. split;
        [by apply keep_below_dist | by apply (Hk name)].
Qed.
End staging_frame.

Lemma refresh_assets_leaves h tags dev puppy :
  leaves (λ q, outside_staging q = true) (refresh_assets h tags dev puppy).
Proof.
  intros S q Hq. rewrite refresh_assets_Stage. revert S q Hq.
  apply leaves_bind; [apply wipe_leaves, outside_staging_dist|]. intros _.
  apply leaves_for_each_in. intros a (tr & Hin & _)%elem_of_EntriesFor.
  apply exec_leaves; [apply outside_staging_dist|]. intros k q Hr Hq.
  destruct (relocates_manifest _ _ _ Hin Hr) as [_ ->].
  by apply outside_staging_stub.
Qed.

Lemma refresh_assets_minimal_leaves h tags dev :
  leaves (λ q, apart dist_folder q = true) (refresh_assets h tags dev true).
Proof.
  intros S q Hq. rewrite refresh_assets_Stage. revert S q Hq.
  apply leaves_bind; [by apply wipe_leaves|]. intros _.
  apply leaves_for_each_in. intros a Hin.
  apply exec_leaves; [done|]. intros k q Hr _.
  by destruct (no_relocation h tags dev true k a (or_introl eq_refl) Hin).
Qed.

(** X1.  Whatever its outcome, [refresh_assets] writes to the output root
    and to [bin/agent/dd-agent] only: every path outside [bin/agent] is as
    it was, and so is every entry of [bin/agent] other than [dist] and
    [dd-agent], the binary that [go build] wrote among them.  With the
    minimal profile it writes to the output root only. *)
Theorem staging_writes_only_its_outputs h tags dev puppy S :
  (∀ q, apart BIN_PATH q = true →
     node_at q (refresh_assets h tags dev puppy S).1 = node_at q S) ∧
  (∀ k q, k ≠ "dist" → k ≠ "dd-agent" →
     node_at (BIN_PATH ++ k :: q) (refresh_assets h tags dev puppy S).1
       = node_at (BIN_PATH ++ k :: q) S) ∧
  (puppy = true → ∀ q, apart dist_folder q = true →
     node_at q (refresh_assets h tags dev puppy S).1 = node_at q S).
Proof.
  split; [|split].
  - intros q Hq. apply refresh_assets_leaves. unfold outside_staging, dist_folder.
    by rewrite !apart_app_l.
  - intros k q Hd Hs. apply refresh_assets_leaves.
    unfold outside_staging, dist_folder, BIN_PATH. simpl.
    by rewrite !decide_False by done.
  - intros -> q Hq. by apply refresh_assets_minimal_leaves.
Qed.

(** ** Failures before anything is written *)

Lemma walk_error_id p f n o o' e :
  (∀ n o o' e, f n o = (o', inl e) → o' = o) →
  walk false p f n o = (o', inl e) → o' = o.
Proof.
  intros Hf. revert n o o'. induction p as [|m p IH]; intros n o o' H; simpl in H.
  { by eapply Hf. }
  destruct o as [[x|es]|]; try by injection H as <-.
  unfold on_entry in H.
  destruct (walk false p f m (get m es)) as [o1 r1] eqn:Ew.
  injection H as <- ->. apply IH in Ew as ->. by rewrite store_get.
Qed.

Lemma at_entry_error_id p f S S' e :
  (∀ n o o' e, f n o = (o', inl e) → o' = o) →
  at_entry false p f S = (S', inl e) → S' = S.
Proof.
  intros Hf H. unfold at_entry in H.
  destruct p as [|n p]; [by injection H as <-|].
  destruct S as [x|es]; [by injection H as <-|].
  unfold on_entry in H.
  destruct (walk false p f n (get n es)) as [o1 r1] eqn:Ew.
  injection H as <- ->. apply walk_error_id in Ew as ->; [|done].
  by rewrite store_get.
Qed.

Lemma at_entry_result mk d n p f S B :
  node_at d S = Some (Dir B) →
  (at_entry mk (d ++ n :: p) f S).2 = (walk mk p f n (get n B)).2.
Proof.
  intros Hd. destruct (at_entry mk (d ++ n :: p) f S) as [S' r] eqn:E.
  destruct (at_entry_under _ _ _ _ _ _ _ _ _ Hd E) as (B' & He & _).
  unfold on_entry in He. destruct (walk mk p f n (get n B)) as [o1 r1].
  by injection He as _ <-.
Qed.

Lemma os_mkdir_error_id p S S' e : os_mkdir p S = (S', inl e) → S' = S.
Proof.
  apply at_entry_error_id. intros _ [c|] o' e'; [|done]. by intros [= <-].
Qed.

Lemma shutil_rmtree_error_id p S S' e : shutil_rmtree p S = (S', inl e) → S' = S.
Proof.
  apply at_entry_error_id. intros _ [[x|es]|] o' e'; try done; by intros [= <-].
Qed.

(** [os.mkdir] and [shutil.rmtree] raise nothing but [OSError]. *)
Lemma walk_OSError p f n o o' e :
  (∀ n o o' e, f n o = (o', inl e) → e = OSError) →
  walk false p f n o = (o', inl e) → e = OSError.
Proof.
  intros Hf. revert n o o'. induction p as [|m p IH]; intros n o o' H; simpl in H.
  { by eapply Hf. }
  destruct o as [[x|es]|]; try by injection H as _ <-.
  unfold on_entry in H.
  destruct (walk false p f m (get m es)) as [o1 r1] eqn:Ew.
  injection H as _ ->. by eapply IH.
Qed.

Lemma at_entry_OSError p f S S' e :
  (∀ n o o' e, f n o = (o', inl e) → e = OSError) →
  at_entry false p f S = (S', inl e) → e = OSError.
Proof.
  intros Hf H. unfold at_entry in H.
  destruct p as [|n p]; [by injection H as _ <-|].
  destruct S as [x|es]; [by injection H as _ <-|].
  unfold on_entry in H.
  destruct (walk false p f n (get n es)) as [o1 r1] eqn:Ew.
  injection H as _ ->. by eapply walk_OSError.
Qed.

Lemma os_mkdir_OSError p S S' e : os_mkdir p S = (S', inl e) → e = OSError.
Proof.
  apply at_entry_OSError. intros _ [c|] o' e'; [|done]. by intros [= _ <-].
Qed.

Lemma shutil_rmtree_OSError p S S' e : shutil_rmtree p S = (S', inl e) → e = OSError.
Proof.
  apply at_entry_OSError. intros _ [[x|es]|] o' e'; try done; by intros [= _ <-].
Qed.

Lemma wipe_fails_up_front S :
  (node_at BIN_PATH S = None ∧ is_dir (node_at ["bin"] S) = false) ∨
  (∃ x, node_at BIN_PATH S = Some (File x)) ∨
  (∃ x, node_at dist_folder S = Some (File x)) →
  wipe S = (S, inl OSError).
Proof.
  intros H. unfold wipe. unfold bind at 1, os_path_exists at 1.
  destruct H as [[Hb Hbin]|[[x Hb]|[x Hd]]].
  - rewrite Hb, bool_decide_false by (by intros [? ?]). cbn [negb when].
    unfold bind at 1.
    destruct (os_mkdir BIN_PATH S) as [S1 [e|[]]] eqn:E.
    + pose proof (os_mkdir_error_id _ _ _ _ E) as ->.
      by apply os_mkdir_OSError in E as ->.
    + exfalso. destruct S as [y|es].
      { by vm_compute in E. }
      pose proof (at_entry_result false [] "bin" ["agent"]
                    (λ _ o, match o with
                            | None => (Some (Dir []), ok)
                            | Some _ => (o, inl OSError)
                            end) (Dir es) es eq_refl) as Hr.
      change ([] ++ ["bin"; "agent"]) with BIN_PATH in Hr.
      fold (os_mkdir BIN_PATH) in Hr. rewrite E in Hr.
      change (node_at ["bin"] (Dir es)) with
        (match get "bin" es with Some c => Some c | None => None end) in Hbin.
      simpl in Hr. by destruct (get "bin" es) as [[y|bs]|].
  - rewrite Hb, bool_decide_true by eauto. cbn [negb when].
    unfold bind at 1, ret at 1. unfold bind at 1, os_path_exists at 1.
    assert (node_at dist_folder S = None) as ->
      by (unfold dist_folder; by rewrite node_at_app, Hb).
    rewrite bool_decide_false by (by intros [? ?]). cbn [when].
    unfold bind at 1, ret at 1.
    destruct (os_mkdir dist_folder S) as [S1 [e|[]]] eqn:E.
    + pose proof (os_mkdir_error_id _ _ _ _ E) as ->.
      by apply os_mkdir_OSError in E as ->.
    + exfalso. unfold BIN_PATH in Hb.
      change ["bin"; "agent"] with (["bin"] ++ ["agent"]) in Hb.
      rewrite node_at_app in Hb.
      destruct (node_at ["bin"] S) as [[y|bs]|] eqn:Eb; try done.
      pose proof (at_entry_result false ["bin"] "agent" ["dist"]
                    (λ _ o, match o with
                            | None => (Some (Dir []), ok)
                            | Some _ => (o, inl OSError)
                            end) S bs Eb) as Hr.
      change (["bin"] ++ ["agent"; "dist"]) with dist_folder in Hr.
      fold (os_mkdir dist_folder) in Hr. rewrite E in Hr.
      rewrite node_at_cons_Dir in Hb. simpl in Hr.
      by destruct (get "agent" bs) as [[y|cs]|].
  - unfold dist_folder in Hd. rewrite node_at_app in Hd.
    destruct (node_at BIN_PATH S) as [[y|B]|] eqn:Eb; try done.
    rewrite bool_decide_true by eauto. cbn [negb when].
    unfold bind at 1, ret at 1. unfold bind at 1, os_path_exists at 1.
    assert (node_at dist_folder S = Some (File x)) as ->
      by (unfold dist_folder; by rewrite node_at_app, Eb).
    rewrite bool_decide_true by eauto. cbn [when]. unfold bind at 1.
    change dist_folder with (BIN_PATH ++ ["dist"]).
    destruct (shutil_rmtree (BIN_PATH ++ ["dist"]) S) as [S1 [e|[]]] eqn:E.
    + pose proof (shutil_rmtree_error_id _ _ _ _ E) as ->.
      by apply shutil_rmtree_OSError in E as ->.
    + exfalso.
      pose proof (at_entry_result false BIN_PATH "dist" []
                    (λ _ o, match o with
                            | Some (Dir _) => (None, ok)
                            | _ => (o, inl OSError)
                            end) S B Eb) as Hr.
      fold (shutil_rmtree (BIN_PATH ++ ["dist"])) in Hr. rewrite E in Hr.
      rewrite node_at_cons_Dir in Hd. simpl in Hr.
      by destruct (get "dist" B) as [[z|cs]|].
Qed.

(** X2.  When [./bin] is missing (or no directory) and [./bin/agent] with
    it, when [./bin/agent] is a regular file, or when [./bin/agent/dist] is
    a regular file, [refresh_assets] raises [OSError] and leaves the file
    system as it found it: [os.mkdir] is not recursive and
    [shutil.rmtree] wants a directory. *)
Theorem staging_fails_up_front h tags dev puppy S :
  (node_at BIN_PATH S = None ∧ is_dir (node_at ["bin"] S) = false) ∨
  (∃ x, node_at BIN_PATH S = Some (File x)) ∨
  (∃ x, node_at dist_folder S = Some (File x)) →
  refresh_assets h tags dev puppy S = (S, inl OSError).
Proof.
  intros H. rewrite refresh_assets_Stage. unfold Stage, bind.
  by rewrite (wipe_fails_up_front S H).
Qed.

(** ** The sources a run needs *)

Lemma exec_source a S S' : exec a S = (S', ok) → source_present S a.
Proof.
  destruct a as [src dst|src dst|src name]; cbn [exec source_present].
  - unfold copy_tree, copy_tree_from. by destruct (node_at src S) as [[x|cs]|].
  - unfold shutil_copy, shutil_copy_from.
    destruct (node_at src S) as [[x|cs]|]; try done. by eexists.
  - intros (S1 & [] & H & _)%bind_ok. revert H.
    unfold shutil_copy, shutil_copy_from.
    destruct (node_at src S) as [[x|cs]|]; try done. by eexists.
Qed.

Lemma source_present_frame S0 S a :
  unchanged_outside ["bin"] S0 S → well_formed a →
  source_present S a → source_present S0 a.
Proof.
  intros Hfr Hwf. destruct a as [src dst|src dst|src name]; simpl in *.
  - by rewrite (Hfr _ Hwf).
  - destruct Hwf as [Hwf _]. by rewrite (Hfr _ Hwf).
  - destruct Hwf as [Hwf _]. by rewrite (Hfr _ Hwf).
Qed.

Lemma run_sources acts S S' B D :
  view S B D → Forall well_formed acts → for_each acts exec S = (S', ok) →
  ∀ a, a ∈ acts → source_present S a.
Proof.
  intros Hv Hwf. revert S B D Hv.
  induction Hwf as [|a acts Ha Hwf IH]; intros S B D Hv H a' Hin.
  { by apply elem_of_nil in Hin. }
  simpl in H. apply bind_ok in H as (S1 & [] & H1 & H2).
  apply elem_of_cons in Hin as [->|Hin]; [by eapply exec_source|].
  destruct (exec_keys _ _ _ _ _ Hv Ha H1) as (B1 & D1 & Hv1 & _ & Hfr1 & _).
  apply (source_present_frame S S1); [done| |by eapply IH].
  rewrite Forall_forall in Hwf. by apply Hwf.
Qed.

Lemma selected_sources_present h tags dev puppy S S' a :
  refresh_assets h tags dev puppy S = (S', ok) →
  a ∈ EntriesFor h tags dev puppy → source_present S a.
Proof.
  rewrite refresh_assets_Stage. unfold Stage.
  intros (S1 & [] & H1 & H2)%bind_ok Ha.
  destruct (wipe_view _ _ H1) as (B1 & Hv1 & Hfr1 & _).
  pose proof (EntriesFor_well_formed h tags dev puppy) as Hwf.
  apply (source_present_frame S S1); [done| |].
  - rewrite Forall_forall in Hwf. by apply Hwf.
  - by eapply run_sources.
Qed.

(** X3.  A run of [refresh_assets] succeeds only if every source of a
    selected entry is there: a directory for every [copy_tree], a regular
    file for every [shutil.copy].  One missing source fails the task. *)
Theorem staging_needs_its_sources h tags dev puppy S S' tr a :
  refresh_assets h tags dev puppy S = (S', ok) →
  (tr, a) ∈ manifest → selected h tags dev puppy tr = true →
  source_present S a.
Proof.
  intros H Hin Hsel. apply (selected_sources_present _ _ _ _ _ _ _ H).
  apply elem_of_EntriesFor. eauto.
Qed.

(** ** The content of a top-level entry *)

(** An action that leaves the entry [k] of the output root as it is: it
    writes elsewhere, or is an overlay that does not list [k]. *)

Lemma key_step_overlay_none S src k o o' :
  listed k (entries_of (node_at src S)) = None →
  key_step S (CopyTree src []) k o = (o', ok) → o' = o.
Proof.
  intros Hl. cbn [key_step]. destruct (node_at src S) as [[x|cs]|]; try done.
  simpl in Hl. rewrite Hl. by intros [= <-].
Qed.

Lemma key_run_fixed S acts k (x : string) o o' :
  (∀ a, a ∈ acts →
     (∀ o1 o1', key_step S a k o1 = (o1', ok) →
        o1 = None ∨ o1 = Some (File x) → o1' = Some (File x)) ∨
     (∀ o1 o1', key_step S a k o1 = (o1', ok) → o1' = o1)) →
  key_run S acts k o = (o', ok) →
  o = None ∨ o = Some (File x) →
  (o = Some (File x) → o' = Some (File x)) ∧
  ((∃ a, a ∈ acts ∧
      ∀ o1 o1', key_step S a k o1 = (o1', ok) →
        o1 = None ∨ o1 = Some (File x) → o1' = Some (File x)) →
   o' = Some (File x)).
Proof.
  revert o. induction acts as [|a acts IH]; intros o Hacts H Ho; simpl in H.
  { injection H as <-. split; [done|]. by intros (a & ?%elem_of_nil & _). }
  destruct (key_step S a k o) as [o1 [e|[]]] eqn:Es; [done|].
  assert (∀ a', a' ∈ acts →
     (∀ o1 o1', key_step S a' k o1 = (o1', ok) →
        o1 = None ∨ o1 = Some (File x) → o1' = Some (File x)) ∨
     (∀ o1 o1', key_step S a' k o1 = (o1', ok) → o1' = o1))
    as Hacts' by (intros a' ?; apply Hacts; by right).
  destruct (Hacts a ltac:(by left)) as [Hset|Hkeep].
  - pose proof (Hset _ _ Es Ho) as ->.
    destruct (IH _ Hacts' H ltac:(by right)) as [Hx _]. auto.
  - pose proof (Hkeep _ _ Es) as ->.
    destruct (IH _ Hacts' H Ho) as [Hx Hin]. split; [done|].
    intros (a' & [->|?]%elem_of_cons & Hset); [|eauto].
    apply Hx, (Hset _ _ Es Ho).
Qed.

Lemma key_step_keeps S a k :
  misses a k ∨
  (∃ src, a = CopyTree src [] ∧ listed k (entries_of (node_at src S)) = None) →
  ∀ o1 o1', key_step S a k o1 = (o1', ok) → o1' = o1.
Proof.
  intros [Hm|(src & -> & Hl)] o1 o1' Es.
  - rewrite key_step_misses in Es by done. by injection Es as <-.
  - by eapply key_step_overlay_none.
Qed.

Lemma key_step_file S src k x o1 o1' :
  node_at src S = Some (File x) →
  key_step S (CopyFile src [k]) k o1 = (o1', ok) →
  o1 = None ∨ o1 = Some (File x) → o1' = Some (File x).
Proof.
  intros Hs. cbn [key_step]. rewrite decide_True, Hs by done. cbn [walk].
  by intros H [->| ->]; simpl in H; injection H as <-.
Qed.

(** X4.  A regular file that the manifest copies to the top of the
    output root ([datadog.yaml], [system-probe.yaml], [config.py]) is
    staged with the content of its source, byte for byte, unless an
    overlay ships an entry of that name. *)
Theorem top_level_files_staged_verbatim h tags dev puppy S S' tr src k :
  refresh_assets h tags dev puppy S = (S', ok) →
  (tr, CopyFile src [k]) ∈ manifest → selected h tags dev puppy tr = true →
  listed k (entries_of (node_at ["pkg"; "status"; "dist"] S)) = None →
  (dev = true → listed k (entries_of (node_at ["dev"; "dist"] S)) = None) →
  ∃ x, node_at src S = Some (File x) ∧
       node_at (dist_folder ++ [k]) S' = Some (File x).
Proof.
  intros H Hin Hsel Hstatus Hdev.
  assert (CopyFile src [k] ∈ EntriesFor h tags dev puppy) as HA
    by (apply elem_of_EntriesFor; eauto).
  destruct (selected_sources_present _ _ _ _ _ _ _ H HA) as [x Hx].
  exists x. split; [done|].
  destruct (refresh_assets_keys _ _ _ _ _ _ H) as (B' & D' & Hv & Hk & _ & _).
  rewrite node_at_child, (view_dist _ _ _ Hv). cbn [entries_of].
  assert (∀ a, a ∈ EntriesFor h tags dev puppy →
     (∀ o1 o1', key_step S a k o1 = (o1', ok) →
        o1 = None ∨ o1 = Some (File x) → o1' = Some (File x)) ∨
     (∀ o1 o1', key_step S a k o1 = (o1', ok) → o1' = o1)) as Hacts.
  { intros a (tr' & Hin' & Hsel')%elem_of_EntriesFor.
    clear Hk Hv H. unfold manifest in Hin, Hin'. cbn in Hin, Hin'.
    unfold check_entry in Hin, Hin'.
    repeat (apply elem_of_cons in Hin as [Hin|Hin];
            [first [discriminate Hin | injection Hin as -> -> ->]|]);
      try by apply elem_of_nil in Hin.
    all: repeat (apply elem_of_cons in Hin' as [Hin'|Hin'];
            [injection Hin' as -> ->; cbn [selected] in Hsel';
             first [ left; intros o1 o1'; by apply key_step_file
                   | right; apply key_step_keeps;
                     first [ left; simpl; discriminate
                           | right; eexists; split; [done|]; done
                           | right; eexists; split; [done|]; by apply Hdev ] ] |]);
         by apply elem_of_nil in Hin'. }
  destruct (key_run_fixed S _ k x None _ Hacts (Hk k) ltac:(by left))
    as [_ Hset].
  apply Hset. exists (CopyFile src [k]). split.
  - apply elem_of_EntriesFor. eauto.
  - intros o1 o1'. by apply key_step_file.
Qed.

Lemma EntriesFor_dev h tags puppy :
  EntriesFor h tags true puppy =
  EntriesFor h tags false puppy ++ [CopyTree ["dev"; "dist"] []].
Proof. rewrite !EntriesFor_eq. rewrite app_nil_r. by rewrite <- !app_assoc. Qed.

(** X5.  The development overlay is copied last and wins: a regular
    file that [dev/dist] lists is staged with the content it has there,
    whatever the sources and the other overlay provide under that name;
    where they provide a directory of that name, the file goes inside
    it. *)
Theorem development_overlay_wins h tags puppy S S' k x :
  refresh_assets h tags true puppy S = (S', ok) →
  listed k (entries_of (node_at ["dev"; "dist"] S)) = Some (File x) →
  node_at (dist_folder ++ [k]) S' = Some (File x) ∨
  (is_dir (node_at (dist_folder ++ [k]) S') = true ∧
   node_at (dist_folder ++ [k; k]) S' = Some (File x)).
Proof.
  intros H Hl.
  destruct (refresh_assets_keys _ _ _ _ _ _ H) as (B' & D' & Hv & Hk & _ & _).
  specialize (Hk k). rewrite EntriesFor_dev, key_run_app in Hk.
  destruct (key_run S (EntriesFor h tags false puppy) k None) as [o [e|[]]];
    [done|].
  cbn [key_run key_step] in Hk.
  destruct (node_at ["dev"; "dist"] S) as [[y|cs]|]; try done.
  cbn [entries_of] in Hl. rewrite Hl in Hk. cbn [copy_node] in Hk.
  change (dist_folder ++ [k; k]) with (dist_folder ++ [k] ++ [k]).
  rewrite app_assoc, (node_at_child (dist_folder ++ [k])).
  rewrite node_at_child, (view_dist _ _ _ Hv). cbn [entries_of].
  unfold copy_file in Hk. destruct o as [[y|ds]|].
  - left. congruence.
  - destruct (get k ds) as [[z|es]|] eqn:Eg; simpl in Hk;
      injection Hk as Hk; rewrite <- ?Hk.
    all: try (right; split; [done|]; cbn [entries_of]; by rewrite get_put, decide_True).
    done.
  - left. congruence.
Qed.

(** ** Two runs side by side *)

Lemma view_inj S B D B' D' : view S B D → view S B' D' → B' = B ∧ D' = D.
Proof. intros [H1 H2] [H3 H4]. split; congruence. Qed.

Lemma walk_on_dir mk p f n D o r :
  (p = [] → is_dir (f n (Some (Dir D))).1 = true) →
  walk mk p f n (Some (Dir D)) = (o, r) → is_dir o = true.
Proof.
  destruct p as [|m p]; simpl.
  - intros Hf H. specialize (Hf eq_refl). by rewrite H in Hf.
  - intros _. destruct (on_entry _ _ _). by intros [= <- _].
Qed.

Lemma dist_entry_twin mk p f S T B B' D S1 r :
  twins S T B B' D →
  (p = [] → is_dir (f "dist" (Some (Dir D))).1 = true) →
  at_entry mk (dist_folder ++ p) f S = (S1, r) →
  ∃ T1 B1 B1' D1,
    at_entry mk (dist_folder ++ p) f T = (T1, r) ∧ twins S1 T1 B1 B1' D1 ∧
    ∀ k, k ≠ "dist" → get k B1 = get k B ∧ get k B1' = get k B'.
Proof.
  intros (Hsame & [HB HD] & [HB' HD']) Hf H.
  change (dist_folder ++ p) with (BIN_PATH ++ "dist" :: p) in *.
  destruct (at_entry mk (BIN_PATH ++ "dist" :: p) f T) as [T1 r'] eqn:E.
  destruct (at_entry_under _ _ _ _ _ _ _ _ _ HB H) as (B1 & He & HB1 & Hfr).
  destruct (at_entry_under _ _ _ _ _ _ _ _ _ HB' E) as (B1' & He' & HB1' & Hfr').
  unfold on_entry in He, He'. rewrite HD in He. rewrite HD' in He'.
  destruct (walk mk p f "dist" (Some (Dir D))) as [o r0] eqn:Ew.
  injection He as <- <-. injection He' as <- <-.
  pose proof (walk_on_dir _ _ _ _ _ _ _ Hf Ew) as Ho.
  destruct o as [[x|D1]|]; try done.
  exists T1, (store "dist" (Some (Dir D1)) B), (store "dist" (Some (Dir D1)) B'), D1.
  split; [done|]. split.
  - split; [|split; split; by rewrite ?get_store_eq].
    intros q Hq.
    rewrite Hfr, Hfr' by (by apply (apart_app_l ["bin"] ["agent"])). by apply Hsame.
  - intros k Hk. by rewrite !get_store, !decide_False.
Qed.

Lemma exec_twin a S T B B' D S1 r :
  twins S T B B' D → well_formed a → (∀ k, ¬ relocates a k) →
  exec a S = (S1, r) →
  ∃ T1 B1 B1' D1,
    exec a T = (T1, r) ∧ twins S1 T1 B1 B1' D1 ∧
    ∀ k, k ≠ "dist" → get k B1 = get k B ∧ get k B1' = get k B'.
Proof.
  intros Htw Hwf Hrel H. pose proof Htw as (Hsame & _ & _).
  destruct a as [src dst|src dst|src name]; cbn [exec] in *.
  - unfold copy_tree in *. rewrite <- (Hsame src) by done.
    destruct (node_at src S) as [[x|cs]|]; cbn [copy_tree_from] in *.
    1,3: unfold raise in *; injection H as <- <-; by exists T, B, B', D.
    eapply dist_entry_twin; [done| |done].
    intros ->. destruct (copy_node _ _ _) as [o r'] eqn:Ec.
    by apply copy_node_Dir in Ec as (ds & -> & _).
  - destruct Hwf as [Hwf Hdst]. unfold shutil_copy in *.
    rewrite <- (Hsame src) by done.
    destruct (node_at src S) as [[x|cs]|]; cbn [shutil_copy_from] in *.
    2,3: unfold raise in *; injection H as <- <-; by exists T, B, B', D.
    eapply dist_entry_twin; [done| |done]. done.
  - by destruct (Hrel name).
Qed.

Lemma run_twin acts S T B B' D S1 r :
  twins S T B B' D → Forall well_formed acts →
  (∀ a k, a ∈ acts → ¬ relocates a k) →
  for_each acts exec S = (S1, r) →
  ∃ T1 B1 B1' D1,
    for_each acts exec T = (T1, r) ∧ twins S1 T1 B1 B1' D1 ∧
    ∀ k, k ≠ "dist" → get k B1 = get k B ∧ get k B1' = get k B'.
Proof.
  intros Htw Hwf. revert S T B B' D Htw.
  induction Hwf as [|a acts Ha Hwf IH]; intros S T B B' D Htw Hrel H; simpl in *.
  { injection H as <- <-. by exists T, B, B', D. }
  unfold bind in *. destruct (exec a S) as [S0 r0] eqn:E0.
  destruct (exec_twin _ _ _ _ _ _ _ _ Htw Ha (λ k, Hrel a k ltac:(by left)) E0)
    as (T0 & B0 & B0' & D0 & -> & Htw0 & Hk0).
  destruct r0 as [e|[]].
  { injection H as <- <-. by exists T0, B0, B0', D0. }
  destruct (IH _ _ _ _ _ Htw0 (λ a' k Hin, Hrel a' k ltac:(by right)) H)
    as (T1 & B1 & B1' & D1 & ? & ? & Hk1).
  exists T1, B1, B1', D1. split; [done|]. split; [done|].
  intros k Hk. destruct (Hk0 k Hk) as [<- <-]. by apply Hk1.
Qed.

Lemma clear_to_stage_stub S :
  clear_to_stage S = true →
  is_dir (get "dd-agent" (entries_of (node_at BIN_PATH S))) = false.
Proof.
  unfold clear_to_stage. destruct (node_at BIN_PATH S) as [[x|B]|]; try done.
  by intros [_ ?%negb_true_iff]%andb_prop.
Qed.

Lemma mkdir_dist_ok S B :
  node_at BIN_PATH S = Some (Dir B) → get "dist" B = None →
  ∃ S1, os_mkdir (BIN_PATH ++ ["dist"]) S = (S1, ok).
Proof.
  intros HB HD.
  pose proof (at_entry_result false BIN_PATH "dist" []
                (λ _ o, match o with
                        | None => (Some (Dir []), ok)
                        | Some _ => (o, inl OSError)
                        end) S B HB) as Hr.
  fold (os_mkdir (BIN_PATH ++ ["dist"])) in Hr. rewrite HD in Hr.
  destruct (os_mkdir (BIN_PATH ++ ["dist"]) S) as [S1 r]. simpl in Hr.
  subst r. by exists S1.
Qed.

Lemma wipe_ok S : clear_to_stage S = true → ∃ S1, wipe S = (S1, ok).
Proof.
  unfold clear_to_stage. intros Hc.
  unfold wipe. unfold bind at 1, os_path_exists at 1.
  destruct (node_at BIN_PATH S) as [[x|B]|] eqn:HB; [done| |].
  - apply andb_prop in Hc as [HD _].
    rewrite bool_decide_true by eauto. cbn [negb when].
    unfold bind at 1, ret at 1. unfold bind at 1, os_path_exists at 1.
    assert (node_at dist_folder S = get "dist" B) as ->.
    { unfold dist_folder. by rewrite node_at_child, HB. }
    change dist_folder with (BIN_PATH ++ ["dist"]).
    destruct (get "dist" B) as [[x|D]|] eqn:Ed; [done| |].
    + rewrite bool_decide_true by eauto. cbn [when]. unfold bind at 1.
      destruct (shutil_rmtree (BIN_PATH ++ ["dist"]) S) as [Sd rd] eqn:E.
      pose proof (at_entry_result false BIN_PATH "dist" []
                    (λ _ o, match o with
                            | Some (Dir _) => (None, ok)
                            | _ => (o, inl OSError)
                            end) S B HB) as Hr.
      fold (shutil_rmtree (BIN_PATH ++ ["dist"])) in Hr. rewrite E, Ed in Hr.
      simpl in Hr. subst rd.
      destruct (at_entry_under _ _ _ _ _ _ _ _ _ HB E) as (Bd & Hon & HBd & _).
      apply on_entry_result in Hon. rewrite Ed in Hon. simpl in Hon.
      injection Hon as Hon. by eapply mkdir_dist_ok.
    + rewrite bool_decide_false by (by intros [? ?]). cbn [when].
      unfold bind at 1, ret at 1. by eapply mkdir_dist_ok.
  - rewrite bool_decide_false by (by intros [? ?]). cbn [negb when].
    destruct (node_at ["bin"] S) as [[x|bs]|] eqn:Hbin; try done.
    assert (get "agent" bs = None) as Hag.
    { change BIN_PATH with (["bin"] ++ ["agent"]) in HB.
      by rewrite node_at_child, Hbin in HB. }
    unfold bind at 1.
    change BIN_PATH with (["bin"] ++ ["agent"]).
    destruct (os_mkdir (["bin"] ++ ["agent"]) S) as [Sb rb] eqn:E.
    pose proof (at_entry_result false ["bin"] "agent" []
                  (λ _ o, match o with
                          | None => (Some (Dir []), ok)
                          | Some _ => (o, inl OSError)
                          end) S bs Hbin) as Hr.
    fold (os_mkdir (["bin"] ++ ["agent"])) in Hr. rewrite E, Hag in Hr.
    simpl in Hr. subst rb.
    destruct (at_entry_under _ _ _ _ _ _ _ _ _ Hbin E) as (bs' & Hon & Hbs' & _).
    apply on_entry_result in Hon. rewrite Hag in Hon. simpl in Hon.
    injection Hon as Hon.
    assert (node_at (["bin"] ++ ["agent"]) Sb = Some (Dir [])) as HBb
      by (by rewrite node_at_child, Hbs'; cbn [entries_of]).
    unfold bind at 1, os_path_exists at 1.
    assert (node_at dist_folder Sb = None) as ->.
    { change dist_folder with ((["bin"] ++ ["agent"]) ++ ["dist"]).
      by rewrite node_at_child, HBb. }
    rewrite bool_decide_false by (by intros [? ?]). cbn [when].
    unfold bind at 1, ret at 1.
    change dist_folder with (BIN_PATH ++ ["dist"]). by eapply mkdir_dist_ok.
Qed.

Lemma move_stub_ok S B D name x :
  view S B D → name ≠ "dist" → get name D = Some (File x) →
  is_dir (get name B) = false →
  ∃ S', shutil_move (dist_folder ++ [name]) (BIN_PATH ++ [name]) S = (S', ok).
Proof.
  intros [HB HD] Hname Hx Hdir. unfold shutil_move.
  assert (node_at (dist_folder ++ [name]) S = Some (File x)) as ->.
  { by rewrite node_at_child, (view_dist S B D), <- Hx. }
  assert (node_at (BIN_PATH ++ [name]) S = get name B) as ->.
  { by rewrite node_at_child, HB. }
  rewrite Hdir. rewrite decide_False
    by (unfold dist_folder, BIN_PATH; simpl; congruence).
  change (dist_folder ++ [name]) with (BIN_PATH ++ "dist" :: [name]).
  unfold bind.
  destruct (at_entry false (BIN_PATH ++ [name]) _ S) as [S1 r1] eqn:E1.
  match type of E1 with
  | at_entry _ _ ?f _ = _ =>
      pose proof (at_entry_result false BIN_PATH name [] f S B HB) as Hr
  end.
  rewrite E1 in Hr. cbn [walk snd] in Hr.
  assert (r1 = ok) as -> by (by destruct (get name B) as [[y|ds]|]).
  destruct (at_entry_under _ _ _ _ _ _ _ _ _ HB E1) as (B1 & Hon & HB1 & _).
  assert (get "dist" B1 = Some (Dir D)) as HD1.
  { rewrite (on_entry_other _ _ _ _ _ _ Hon); [done | congruence]. }
  destruct (at_entry false (BIN_PATH ++ ["dist"; name]) _ S1) as [S2 r2] eqn:E2.
  match type of E2 with
  | at_entry _ _ ?f _ = _ =>
      pose proof (at_entry_result false BIN_PATH "dist" [name] f S1 B1 HB1) as Hr2
  end.
  rewrite E2, HD1 in Hr2. cbn [walk] in Hr2. unfold on_entry in Hr2.
  simpl in Hr2. subst r2. by exists S2.
Qed.

Lemma relocate_twin S T B B' D src name S1 r :
  twins S T B B' D → apart ["bin"] src = true → name ≠ "dist" →
  get name D = None →
  is_dir (get name B) = false → is_dir (get name B') = false →
  exec (Relocate src name) S = (S1, r) →
  ∃ T1 B1 B1' D1,
    exec (Relocate src name) T = (T1, r) ∧ twins S1 T1 B1 B1' D1 ∧
    is_dir (get name B1) = false ∧ is_dir (get name B1') = false ∧
    (r = ok → get name B1 = get name B1').
Proof.
  intros Htw Hsrc Hname HD HB HB' H. cbn [exec] in *. unfold bind in *.
  destruct (shutil_copy src (dist_folder ++ [name]) S) as [S0 r0] eqn:E0.
  destruct (exec_twin (CopyFile src [name]) _ _ _ _ _ _ _ Htw
              ltac:(by split) ltac:(by intros ? ?) E0)
    as (T0 & B0 & B0' & D0 & E0' & Htw0 & Hk0).
  cbn [exec] in E0'. rewrite E0'.
  destruct (Hk0 name Hname) as [Hn Hn'].
  destruct r0 as [e|[]].
  { injection H as <- <-. exists T0, B0, B0', D0.
    rewrite Hn, Hn'. repeat split; try done; apply Htw0. }
  pose proof Htw as (_ & Hv & _). pose proof Htw0 as (Hsame0 & Hv0 & Hv0').
  destruct (shutil_copy_keys _ _ [name] _ _ _ Hv ltac:(done) E0)
    as (B0x & D0x & Hvx & Hkx & _).
  destruct (view_inj _ _ _ _ _ Hv0 Hvx) as [-> ->].
  specialize (Hkx name). cbn [key_step] in Hkx.
  rewrite decide_True, HD in Hkx by done.
  destruct (node_at src S) as [[x|cs]|]; try done.
  cbn in Hkx. injection Hkx as Hx. symmetry in Hx.
  destruct (move_stub_ok _ _ _ _ _ Hv0 Hname Hx ltac:(by rewrite Hn))
    as [S1' E1].
  destruct (move_stub_ok _ _ _ _ _ Hv0' Hname Hx ltac:(by rewrite Hn'))
    as [T1 E1'].
  rewrite E1 in H. injection H as <- <-. rewrite E1'.
  destruct (shutil_move_keys _ _ _ _ _ Hv0 Hname E1)
    as (B1 & c & Hv1 & Hc & Hfr & _ & Hs).
  destruct (shutil_move_keys _ _ _ _ _ Hv0' Hname E1')
    as (B1' & c' & Hv1' & Hc' & Hfr' & _ & Hs').
  rewrite Hn in Hs. rewrite Hn' in Hs'.
  specialize (Hs HB). specialize (Hs' HB').
  assert (c = File x) as -> by congruence.
  assert (c' = File x) as -> by congruence.
  exists T1, B1, B1', (del name D0). split; [done|]. split.
  - split; [|done]. intros q Hq.
    rewrite Hfr, Hfr' by (by apply (apart_app_l ["bin"] ["agent"])).
    by apply Hsame0.
  - rewrite Hs, Hs'. by repeat split.
Qed.

Lemma before_stub_plain tags a k : a ∈ before_stub tags → ¬ relocates a k.
Proof.
  unfold before_stub. case_bool_decide; [|by intros ?%elem_of_nil].
  intros Hin. repeat (apply elem_of_cons in Hin as [->|Hin]; [by intros ?|]).
  by apply elem_of_nil in Hin.
Qed.

(** Two runs from file systems with the same sources, both clear to
    stage, step by step: the same outcome and the same output root. *)
Lemma staging_twin h tags dev puppy S T S' r :
  same_sources S T → clear_to_stage S = true → clear_to_stage T = true →
  refresh_assets h tags dev puppy S = (S', r) →
  ∃ T' B1 B1' D1,
    refresh_assets h tags dev puppy T = (T', r) ∧ twins S' T' B1 B1' D1 ∧
    is_dir (get "dd-agent" B1) = false ∧
    is_dir (get "dd-agent" B1') = false ∧
    (r = ok → puppy = false → get "dd-agent" B1 = get "dd-agent" B1').
Proof.
  intros Hsame HS HT. rewrite !refresh_assets_Stage. unfold Stage, bind.
  destruct (wipe_ok _ HS) as [S0 ES]. destruct (wipe_ok _ HT) as [T0 ET].
  rewrite ES, ET.
  destruct (wipe_view _ _ ES) as (B0 & Hv0 & Hfr0 & Hk0).
  destruct (wipe_view _ _ ET) as (B0' & Hv0' & Hfr0' & Hk0').
  apply clear_to_stage_stub in HS as HdS.
  apply clear_to_stage_stub in HT as HdT.
  assert (twins S0 T0 B0 B0' []) as Htw.
  { split; [|done]. intros q Hq. rewrite Hfr0, Hfr0' by done. by apply Hsame. }
  assert (is_dir (get "dd-agent" B0) = false) as Hd0
    by (by rewrite Hk0).
  assert (is_dir (get "dd-agent" B0') = false) as Hd0'
    by (by rewrite Hk0').
  clear ES ET Hfr0 Hfr0' Hk0 Hk0' HdS HdT Hsame Hv0 Hv0'.
  pose proof (EntriesFor_well_formed h tags dev puppy) as Hwf.
  destruct puppy.
  - intros H.
    destruct (run_twin _ _ _ _ _ _ _ _ Htw Hwf
                (λ a k, no_relocation h tags dev true k a ltac:(by left)) H)
      as (T1 & B1 & B1' & D1 & ? & ? & Hk).
    exists T1, B1, B1', D1. destruct (Hk "dd-agent" ltac:(done)) as [-> ->].
    do 2 (split; [done|]). by repeat split.
  - rewrite EntriesFor_full in *. rewrite !for_each_app.
    apply Forall_app in Hwf as [Hwf1 [Hwf2 Hwf3]%Forall_cons].
    unfold bind. destruct (for_each (before_stub tags) exec S0) as [S1 r1] eqn:E1.
    destruct (run_twin _ _ _ _ _ _ _ _ Htw Hwf1
                (λ a k, before_stub_plain tags a k) E1)
      as (T1 & B1 & B1' & D1 & -> & Htw1 & Hk1).
    destruct (Hk1 "dd-agent" ltac:(done)) as [Hn Hn'].
    destruct r1 as [e|[]].
    { intros [= <- <-]. exists T1, B1, B1', D1. rewrite Hn, Hn'.
      do 2 (split; [done|]). by repeat split. }
    assert (get "dd-agent" D1 = None) as HD1.
    { pose proof Htw as (_ & Hv0 & _). pose proof Htw1 as (_ & Hv1 & _).
      destruct (run_keys _ _ _ _ _ Hv0 Hwf1 E1) as (Bx & Dx & Hvx & Hkx & _).
      destruct (view_inj _ _ _ _ _ Hv1 Hvx) as [-> ->].
      specialize (Hkx "dd-agent").
      rewrite key_run_misses in Hkx by apply before_stub_misses.
      by injection Hkx as <-. }
    cbn [for_each]. unfold bind.
    destruct (exec (Relocate (agent_dist ++ ["dd-agent"]) "dd-agent") S1)
      as [S2 r2] eqn:E2.
    destruct Hwf2 as [Hsrc Hname].
    destruct (relocate_twin _ _ _ _ _ _ _ _ _ Htw1 Hsrc Hname HD1
                ltac:(by rewrite Hn) ltac:(by rewrite Hn') E2)
      as (T2 & B2 & B2' & D2 & -> & Htw2 & Hd2 & Hd2' & Heq2).
    destruct r2 as [e|[]].
    { intros [= <- <-]. exists T2, B2, B2', D2.
      do 2 (split; [done|]). by repeat split. }
    intros H.
    destruct (run_twin _ _ _ _ _ _ _ _ Htw2 Hwf3
                (λ a k, after_stub_no_relocation h tags dev k a) H)
      as (T3 & B3 & B3' & D3 & ? & ? & Hk3).
    exists T3, B3, B3', D3. destruct (Hk3 "dd-agent" ltac:(done)) as [-> ->].
    do 2 (split; [done|]). repeat split; try done. intros _ _. by apply Heq2.
Qed.

Lemma twins_root S T B B' D q :
  twins S T B B' D →
  node_at (dist_folder ++ q) T = node_at (dist_folder ++ q) S.
Proof.
  intros (_ & Hv & Hv').
  by rewrite !node_at_app, (view_dist _ _ _ Hv), (view_dist _ _ _ Hv').
Qed.

(** X6.  Staging reads the sources and nothing else.  From two file
    systems with the same tree outside [./bin], both with nothing in the
    way, [refresh_assets] has the same outcome (it succeeds in both, or
    raises the same exception in both) and leaves the same output root,
    down to every path, and after a success without the minimal profile the
    same launcher stub; what [./bin] held before makes no difference. *)
Theorem staging_reads_sources_only h tags dev puppy S T S' r :
  same_sources S T → clear_to_stage S = true → clear_to_stage T = true →
  refresh_assets h tags dev puppy S = (S', r) →
  ∃ T', refresh_assets h tags dev puppy T = (T', r) ∧
    (∀ q, node_at (dist_folder ++ q) T' = node_at (dist_folder ++ q) S') ∧
    (r = ok → puppy = false →
     node_at (BIN_PATH ++ ["dd-agent"]) T' = node_at (BIN_PATH ++ ["dd-agent"]) S').
Proof.
  intros Hsame HS HT H.
  destruct (staging_twin _ _ _ _ _ _ _ _ Hsame HS HT H)
    as (T' & B1 & B1' & D1 & HT' & Htw & _ & _ & Hstub).
  exists T'. split; [done|]. split.
  - intros q. by eapply twins_root.
  - intros Hr Hp. destruct Htw as (_ & Hv & Hv').
    rewrite !(view_child _ _ _ _ Hv), !(view_child _ _ _ _ Hv'). symmetry. auto.
Qed.


(** ** [build] and [run], whatever they are asked *)

Lemma build_invariant (P : FS → Prop) cat ctx
    h rebuild race inc exc puppy development precompile_only skip_assets S :
  (∀ cmd e S, P S → P (ctx_run ctx cmd e S).1) →
  (∀ tags S, P S → P (refresh_assets h tags development puppy S).1) →
  P S →
  P (build cat ctx h rebuild race inc exc puppy development precompile_only
           skip_assets S).1.
Proof.
  intros Hrun Hstage HP. unfold build.
  assert (∀ S, P S → P (when (bool_decide (sys_platform h = "win32"))
                             (windows_resources ctx) S).1) as Hwin.
  { intros S0 HP0. destruct (bool_decide _); [|done]. simpl.
    unfold windows_resources.
    destruct (split_on "." (version_numeric_only ctx)) as [|a [|b [|c [|]]]];
      try done.
    unfold bind.
    pose proof (Hrun "windmc --target pe-x86-64 -r cmd/agent cmd/agent/agentmsg.mc "
                  (env ctx) S0 HP0) as H1.
    destruct (ctx_run ctx _ (env ctx) S0) as [S1 [e|[]]]; [done|].
    apply Hrun, H1. }
  unfold bind at 1. specialize (Hwin S HP).
  destruct (when _ _ S) as [S1 [e|[]]]; [done|]. simpl in Hwin.
  unfold bind at 1.
  destruct (resolve_build_tags cat h inc exc puppy) as [e|tags]; [done|]. simpl.
  unfold bind at 1.
  pose proof (Hrun (go_build_cmd ctx rebuild race precompile_only tags)
                (env ctx) S1 Hwin) as H2.
  destruct (ctx_run ctx _ (env ctx) S1) as [S2 [e|[]]]; [done|]. simpl in H2.
  unfold bind at 1.
  pose proof (Hrun ("go generate " +:+ REPO_PATH ctx +:+ "/cmd/agent")
                (<["GOOS" := EmptyString]> (<["GOARCH" := EmptyString]> (env ctx)))
                S2 H2) as H3.
  destruct (ctx_run ctx _ _ S2) as [S3 [e|[]]]; [done|]. simpl in H3.
  destruct skip_assets; [done|]. by apply Hstage.
Qed.

(** X8.  Whatever its arguments and its outcome, [build] writes outside
    the output root and [bin/agent/dd-agent] through its commands only: a
    path there that the commands leave alone is, after [build], as it was
    before. *)
Theorem build_writes_through_commands cat ctx
    h rebuild race inc exc puppy development precompile_only skip_assets S q :
  outside_staging q = true →
  (∀ cmd e S, node_at q (ctx_run ctx cmd e S).1 = node_at q S) →
  node_at q (build cat ctx h rebuild race inc exc puppy development
                   precompile_only skip_assets S).1 = node_at q S.
Proof.
  intros Hq Hrun.
  apply (build_invariant (λ S', node_at q S' = node_at q S)); [| |done].
  - intros cmd e S0 <-. apply Hrun.
  - intros tags S0 <-. by apply refresh_assets_leaves.
Qed.

(** X9.  [run] builds and stages as [build] does, then launches the
    binary: outside the output root and [bin/agent/dd-agent], a path that
    the commands leave alone (the compiler, the generator, the agent
    itself) is as it was before, with or without [skip_build]. *)
Theorem run_writes_through_commands cat ctx
    h launcher rebuild race inc exc puppy skip_build S q :
  outside_staging q = true →
  (∀ cmd e S, node_at q (ctx_run ctx cmd e S).1 = node_at q S) →
  node_at q (run cat ctx h launcher rebuild race inc exc puppy skip_build S).1
    = node_at q S.
Proof.
  intros Hq Hrun. unfold run, bind.
  assert (node_at q (when (negb skip_build)
            (build cat ctx h rebuild race inc exc puppy true false false) S).1
          = node_at q S) as Hb.
  { destruct skip_build; [done|]. cbn [negb when].
    apply (build_invariant (λ S', node_at q S' = node_at q S)); [| |done].
    - intros cmd e S0 <-. apply Hrun.
    - intros tags S0 <-. by apply refresh_assets_leaves. }
  destruct (when _ _ S) as [S1 [e|[]]]; [done|]. simpl in Hb.
  by rewrite Hrun.
Qed.


(** ** The exclude list after the platform checks *)

Lemma append_missing_snoc tags t exc :
  append_missing (tags ++ [t]) exc =
  (if decide (t ∈ append_missing tags exc) then append_missing tags exc
   else append_missing tags exc ++ [t]).
Proof. unfold append_missing. by rewrite foldl_app. Qed.

Lemma append_missing_prefix tags exc : exc `prefix_of` append_missing tags exc.
Proof.
  induction tags as [|t tags IH] using rev_ind; [done|].
  rewrite append_missing_snoc. case_decide; [done|].
  by apply prefix_app_r.
Qed.

Lemma append_missing_NoDup tags exc : NoDup exc → NoDup (append_missing tags exc).
Proof.
  intros Hexc. induction tags as [|t tags IH] using rev_ind; [done|].
  rewrite append_missing_snoc. case_decide; [done|].
  apply NoDup_app. split; [done|]. split; [|apply NoDup_singleton].
  intros x Hx ->%list_elem_of_singleton. done.
Qed.

Lemma append_missing_id tags exc :
  (∀ t, t ∈ tags → t ∈ exc) → append_missing tags exc = exc.
Proof.
  induction tags as [|t tags IH] using rev_ind; intros Hin; [done|].
  rewrite append_missing_snoc, IH.
  - rewrite decide_True; [done|]. apply Hin, elem_of_app. right. by left.
  - intros t' ?. apply Hin, elem_of_app. by left.
Qed.

(** X11.  The platform checks only append to the exclude list: what
    was asked to be excluded stays in front, in its order; a tag is
    appended once and only if it is not excluded already, so a list
    without duplicates stays one; and checking an already checked list
    changes nothing. *)
Theorem platform_checks_only_append cat h exc :
  exc `prefix_of` platform_exclude cat h exc ∧
  (NoDup exc → NoDup (platform_exclude cat h exc)) ∧
  platform_exclude cat h (platform_exclude cat h exc) = platform_exclude cat h exc.
Proof.
  split; [|split].
  - unfold platform_exclude.
    destruct (negb (is_linux h)); case_decide; try done;
      repeat (etrans; [|apply append_missing_prefix]); done.
  - intros Hexc. unfold platform_exclude.
    destruct (negb (is_linux h)); case_decide;
      repeat apply append_missing_NoDup; done.
  - assert (∀ t, t ∈ PlatformConstraintResolver cat h →
                 t ∈ platform_exclude cat h exc) as Hall
      by (intros t ?; apply elem_of_platform_exclude; by right).
    revert Hall. generalize (platform_exclude cat h exc) as l.
    intros l Hall. unfold platform_exclude.
    assert (∀ t, is_linux h = false → t ∈ LINUX_ONLY_TAGS cat → t ∈ l) as HL.
    { intros t ? ?. apply Hall, elem_of_PlatformConstraintResolver. by left. }
    assert (∀ t, lower (linux_distribution h) ∉ REDHAT_AND_DEBIAN_DIST cat →
                 t ∈ REDHAT_AND_DEBIAN_ONLY_TAGS cat → t ∈ l) as HR.
    { intros t ? ?. apply Hall, elem_of_PlatformConstraintResolver. by right. }
    destruct (is_linux h); cbn [negb]; case_decide;
      rewrite ?(append_missing_id (LINUX_ONLY_TAGS cat) l) by auto;
      rewrite ?(append_missing_id (REDHAT_AND_DEBIAN_ONLY_TAGS cat) l) by auto;
      done.
Qed.

(** ** Reading the comma-separated options *)

Lemma split_on_nonempty sep s : split_on sep s ≠ [].
Proof.
  destruct s as [|c s]; simpl; [done|]. case_decide; [done|].
  by destruct (split_on sep s).
Qed.

Lemma split_on_free sep s : free_of sep s = true → split_on sep s = [s].
Proof.
  induction s as [|c s IH]; simpl; [done|].
  intros [Hc Hs]%andb_prop. apply negb_true_iff, bool_decide_eq_false in Hc.
  rewrite decide_False by done. by rewrite IH.
Qed.

Lemma split_on_append sep x s :
  free_of sep x = true →
  split_on sep (x +:+ String sep s) = x :: split_on sep s.
Proof.
  induction x as [|c x IH]; simpl.
  - intros _. by rewrite decide_True.
  - intros [Hc Hx]%andb_prop. apply negb_true_iff, bool_decide_eq_false in Hc.
    rewrite decide_False by done. by rewrite IH.
Qed.

Lemma split_on_join sep l :
  l ≠ [] → Forall (λ t, free_of sep t = true) l →
  split_on sep (join (String sep EmptyString) l) = l.
Proof.
  intros Hne Hl. induction Hl as [|x l Hx Hl IH]; [done|].
  destruct l as [|y l]; [by apply split_on_free|].
  change (join (String sep EmptyString) (x :: y :: l))
    with (x +:+ String sep EmptyString +:+ join (String sep EmptyString) (y :: l)).
  change (String sep EmptyString +:+ ?s) with (String sep s).
  rewrite split_on_append by done. by rewrite IH.
Qed.

Lemma join_split_on sep s : join (String sep EmptyString) (split_on sep s) = s.
Proof.
  induction s as [|c s IH]; simpl; [done|]. case_decide as Hc.
  - subst c. pose proof (split_on_nonempty sep s).
    destruct (split_on sep s) as [|w ws] eqn:E; [done|].
    change (join (String sep EmptyString) (EmptyString :: w :: ws))
      with (String sep (join (String sep EmptyString) (w :: ws))).
    by rewrite IH.
  - destruct (split_on sep s) as [|w ws] eqn:E.
    + by destruct (split_on_nonempty sep s).
    + destruct ws as [|w' ws]; simpl in *; by rewrite <- IH.
Qed.

(** X12.  [build] reads its two options by splitting them at the commas,
    which undoes joining with commas and is undone by it: a list of tags
    that is not empty and has no comma in a tag comes back as it was, and
    joining what was read gives the option back.  So an option that is
    given never reads as the empty list: an empty option is one empty
    tag. *)
Theorem tag_options_round_trip :
  (∀ l, l ≠ [] → Forall (λ t, free_of "," t = true) l →
     include_list (Some (join "," l)) = l ∧ exclude_list (Some (join "," l)) = l) ∧
  (∀ s, join "," (include_list (Some s)) = s ∧
        join "," (exclude_list (Some s)) = s) ∧
  (∀ s, include_list (Some s) ≠ [] ∧ exclude_list (Some s) ≠ []).
Proof.
  split; [|split].
  - intros l Hne Hl. cbn [include_list exclude_list].
    by rewrite (split_on_join "," l).
  - intros s. cbn [include_list exclude_list]. by rewrite (join_split_on "," s).
  - intros s. split; apply split_on_nonempty.
Qed.

(** ** [omnibus_build] and the lock file *)

Lemma os_remove_frame p S q :
  apart p q = true → node_at q (os_remove p S).1 = node_at q S.
Proof.
  intros Hq. destruct (os_remove p S) as [S' r] eqn:E.
  by apply (at_entry_frame _ _ _ _ _ _ E).
Qed.

Lemma os_remove_gone n S x : node_at [n] (os_remove [n] S).1 ≠ Some (File x).
Proof.
  unfold os_remove, at_entry. destruct S as [y|es]; [done|].
  unfold on_entry. cbn [walk].
  destruct (get n es) as [[y|ds]|] eqn:E; cbn [fst];
    by rewrite node_at_cons_Dir, get_store_eq.
Qed.

Lemma omnibus_build_invariant (P : FS → Prop) ctx col
    h puppy log_level base_dir gem_path skip_deps skip_sign release_version
    omnibus_s3_cache S :
  (∀ S, P S → P (deps_no_checks col S).1) →
  (∀ v S, P S → P (load_release_versions col v S).1) →
  (∀ S, P S → P (get_version_url_safe col S).1) →
  (∀ cmd e S, P S → P (ctx_run ctx cmd e S).1) →
  (∀ S, P S → P (os_remove ["Gemfile.lock"] S).1) →
  P S →
  P (omnibus_build ctx col h puppy log_level base_dir gem_path skip_deps
       skip_sign release_version omnibus_s3_cache S).1.
Proof.
  intros Hdeps Hload Hver Hrun Hrm HP. unfold omnibus_build.
  unfold bind at 1.
  assert (P (when (negb skip_deps) (deps_no_checks col) S).1) as H0
    by (destruct skip_deps; [done | by apply Hdeps]).
  destruct (when _ _ S) as [S0 [e|[]]]; [done|]. cbn [fst] in H0.
  cbn zeta. unfold bind at 1, suppress. cbn [fst snd].
  specialize (Hrm _ H0). unfold bind at 1.
  specialize (Hload release_version _ Hrm).
  destruct (load_release_versions col release_version _) as [S1 [e|env0]];
    [done|]. cbn [fst] in Hload.
  unfold bind at 1.
  match goal with
  | |- P (match ctx_run ctx ?c ?e S1 with _ => _ end).1 =>
      pose proof (Hrun c e S1 Hload) as H2;
      destruct (ctx_run ctx c e S1) as [S2 [e2|[]]]; [done|]
  end.
  cbn [fst] in H2. unfold bind at 1. specialize (Hver _ H2).
  destruct (get_version_url_safe col S2) as [S3 [e|v]]; [done|].
  cbn [fst] in Hver. by apply Hrun.
Qed.

(** X13.  [omnibus_build] clears the lock file of the working
    directory, not the one of [omnibus]: [os.remove] resolves
    [Gemfile.lock] where the process is, and [ctx.cd] moves the commands
    only.  A path outside [./Gemfile.lock] that the collaborators leave
    alone, [omnibus/Gemfile.lock] among them, is as it was whatever the
    outcome; and with collaborators that return and leave [./Gemfile.lock]
    alone the task returns, whether that file was there or not, and no
    regular file [./Gemfile.lock] is left. *)
Theorem omnibus_build_clears_the_local_lock_file ctx col
    h puppy log_level base_dir gem_path skip_deps skip_sign release_version
    omnibus_s3_cache S :
  (∀ q, apart ["Gemfile.lock"] q = true → collaborators_leave ctx col q →
     node_at q (omnibus_build ctx col h puppy log_level base_dir gem_path
                  skip_deps skip_sign release_version omnibus_s3_cache S).1
       = node_at q S) ∧
  (collaborators_return ctx col →
     (omnibus_build ctx col h puppy log_level base_dir gem_path skip_deps
        skip_sign release_version omnibus_s3_cache S).2 = ok ∧
     (collaborators_leave ctx col ["Gemfile.lock"] →
      ∀ x, node_at ["Gemfile.lock"]
             (omnibus_build ctx col h puppy log_level base_dir gem_path
                skip_deps skip_sign release_version omnibus_s3_cache S).1
           ≠ Some (File x))).
Proof.
  split.
  - intros q Hq (Hdeps & Hload & Hver & Hrun).
    apply (omnibus_build_invariant (λ S', node_at q S' = node_at q S));
      try done.
    + intros S0 <-. apply Hdeps.
    + intros v S0 <-. apply Hload.
    + intros S0 <-. apply Hver.
    + intros cmd e S0 <-. apply Hrun.
    + intros S0 <-. by apply os_remove_frame.
  - intros (Rdeps & Rload & Rver & Rrun).
    remember (omnibus_build ctx col h puppy log_level base_dir gem_path
                skip_deps skip_sign release_version omnibus_s3_cache S)
      as R eqn:HR.
    unfold omnibus_build, bind, suppress in HR. cbn zeta in HR.
    assert ((when (negb skip_deps) (deps_no_checks col) S).2 = ok) as H0
      by (destruct skip_deps; [done | apply Rdeps]).
    destruct (when _ _ S) as [S0 r0] eqn:E0. cbn [snd] in H0. subst r0.
    cbn [fst snd] in HR.
    set (Sr := (os_remove ["Gemfile.lock"] S0).1) in *.
    destruct (Rload release_version Sr) as [env0 Hl].
    destruct (load_release_versions col release_version Sr) as [S1 r1] eqn:E1.
    cbn [snd] in Hl. subst r1.
    match type of HR with
    | R = (let (_, _) := ctx_run ctx ?c ?e S1 in _) =>
        pose proof (Rrun c e S1) as H2;
        destruct (ctx_run ctx c e S1) as [S2 r2] eqn:E2
    end.
    cbn [snd] in H2. subst r2.
    destruct (Rver S2) as [v Hv].
    destruct (get_version_url_safe col S2) as [S3 r3] eqn:E3.
    cbn [snd] in Hv. subst r3. subst R.
    split; [apply Rrun|].
    intros (Ldeps & Lload & Lver & Lrun) x.
    rewrite Lrun. change S3 with (S3, @inr exn string v).1. rewrite <- E3, Lver.
    change S2 with (S2, @inr exn unit tt).1. rewrite <- E2, Lrun.
    change S1 with (S1, @inr exn (gmap string string) env0).1.
    rewrite <- E1, Lload. apply os_remove_gone.
Qed.

(** ** The check directories, path by path *)

Lemma copy_shape q : ∀ n c o,
  copy_node n c None = (o, ok) →
  if no_nfs q then shape (node_below q o) = shape (node_at q c)
  else node_below q o = None.
Proof.
  induction q as [|k q IH]; intros n c o H.
  - cbn [no_nfs forallb]. destruct c as [x|cs].
    + simpl in H. by injection H as <-.
    + by apply copy_node_Dir in H as (ds & -> & _).
  - destruct c as [x|cs].
    { simpl in H. injection H as <-. simpl. by destruct (_ && _). }
    apply copy_node_Dir in H as (ds & -> & Hl). cbn [entries_of] in Hl.
    pose proof (copy_loop_get _ _ _ _ _ Hl k) as Hk.
    rewrite decide_False in Hk by (by intros ?%elem_of_nil).
    cbn [node_below]. rewrite !node_at_cons_Dir.
    unfold no_nfs in *. cbn [forallb]. unfold listed in Hk.
    destruct (String.prefix ".nfs" k); cbn [negb andb].
    + simpl in Hk. by rewrite Hk.
    + simpl in Hk. destruct (get k cs) as [c'|].
      * specialize (IH _ _ _ Hk).
        destruct (get k ds) as [c1|]; [done|].
        apply copy_node_some in Hk. by destruct Hk.
      * rewrite Hk. by destruct (forallb _ q).
Qed.

Lemma append_length s t :
  String.length (s +:+ t) = String.length s + String.length t.
Proof. induction s; simpl; [done|]. by rewrite IHs. Qed.

Lemma append_inj_r t s1 s2 : s1 +:+ t = s2 +:+ t → s1 = s2.
Proof.
  revert s2. induction s1 as [|a s1 IH]; intros [|b s2] H; simpl in H.
  - done.
  - apply (f_equal String.length) in H. simpl in H.
    rewrite !append_length in H. simpl in H. lia.
  - apply (f_equal String.length) in H. simpl in H.
    rewrite !append_length in H. simpl in H. lia.
  - injection H as -> H. by rewrite (IH _ H).
Qed.

Lemma keeps_check_misses S m a : misses a "conf.d" → keeps_check S m a.
Proof. intros Hm o o' H. rewrite key_step_misses in H by done. by injection H as <-. Qed.

Lemma keeps_check_overlay S m src :
  listed "conf.d" (entries_of (node_at src S)) = None →
  keeps_check S m (CopyTree src []).
Proof. intros Hl o o' H. by rewrite (key_step_overlay_none _ _ _ _ _ Hl H). Qed.

Lemma walk_one_other mk f m' m o o' :
  m' ≠ m → walk mk [m'] f "conf.d" o = (o', ok) →
  get m (entries_of o') = get m (entries_of o).
Proof.
  intros Hne. cbn [walk]. destruct o as [[x|es]|]; [done| |].
  - destruct (on_entry m' (f m') es) as [es' r] eqn:E. intros [= <- ->].
    cbn [entries_of]. by rewrite (on_entry_other _ _ _ _ _ _ E).
  - destruct mk; [|done].
    destruct (on_entry m' (f m') []) as [es' r] eqn:E. intros [= <- ->].
    cbn [entries_of]. by rewrite (on_entry_other _ _ _ _ _ _ E).
Qed.

Lemma keeps_check_tree S m src m' :
  m' ≠ m → keeps_check S m (CopyTree src ["conf.d"; m']).
Proof.
  intros Hne o o'. cbn [key_step]. rewrite decide_True by done.
  destruct (node_at src S) as [[x|cs]|]; try done. by apply walk_one_other.
Qed.

Lemma keeps_check_file S m src m' :
  m' ≠ m → keeps_check S m (CopyFile src ["conf.d"; m']).
Proof.
  intros Hne o o'. cbn [key_step]. rewrite decide_True by done.
  destruct (node_at src S) as [[x|cs]|]; try done. by apply walk_one_other.
Qed.

Lemma key_run_keeps S m acts o o' :
  Forall (keeps_check S m) acts → key_run S acts "conf.d" o = (o', ok) →
  get m (entries_of o') = get m (entries_of o).
Proof.
  intros Hk. revert o. induction Hk as [|a acts Ha _ IH]; intros o H; simpl in H.
  - by injection H as <-.
  - destruct (key_step S a "conf.d" o) as [o1 [e|[]]] eqn:E; [done|].
    by rewrite (IH _ H), (Ha _ _ E).
Qed.

Lemma key_run_check S m src cs pre post o' :
  node_at src S = Some (Dir cs) →
  Forall (keeps_check S m) pre → Forall (keeps_check S m) post →
  key_run S (pre ++ CopyTree src ["conf.d"; m] :: post) "conf.d" None = (o', ok) →
  ∃ V, copy_node m (Dir cs) None = (V, ok) ∧ get m (entries_of o') = V.
Proof.
  intros Hsrc Hpre Hpost. rewrite key_run_app.
  destruct (key_run S pre "conf.d" None) as [o1 [e|[]]] eqn:E1; [done|].
  apply (key_run_keeps _ m) in E1; [|done]. cbn [entries_of get] in E1.
  cbn [key_run]. destruct (key_step S _ "conf.d" o1) as [o2 [e|[]]] eqn:E2; [done|].
  intros H. apply (key_run_keeps _ m) in H; [|done]. rewrite H. clear H.
  cbn [key_step] in E2. rewrite decide_True, Hsrc in E2 by done.
  cbn [walk] in E2.
  assert (∀ es es' r, get m es = None →
            on_entry m (copy_node m (Dir cs)) es = (es', r) →
            copy_node m (Dir cs) None = (get m es', r)) as Hon.
  { intros es es' r Hm He. apply on_entry_result in He. by rewrite Hm in He. }
  destruct o1 as [[x|es]|]; [done| |].
  - destruct (on_entry m _ es) as [es' r] eqn:E. injection E2 as <- ->.
    cbn [entries_of]. eexists. split; [by eapply Hon|done].
  - destruct (on_entry m _ []) as [es' r] eqn:E. injection E2 as <- ->.
    cbn [entries_of]. eexists. split; [by eapply (Hon [])|done].
Qed.

Lemma check_actions_keep S m checks :
  m ∉ ((λ c, c +:+ ".d") <$> checks) →
  Forall (keeps_check S m) (check_actions checks).
Proof.
  intros Hm. unfold check_actions. apply Forall_fmap, Forall_forall.
  intros c Hc. apply keeps_check_tree. intros Heq. apply Hm.
  apply list_elem_of_fmap. eauto.
Qed.

Lemma corechecks_NoDup puppy :
  NoDup (if negb puppy then AGENT_CORECHECKS else PUPPY_CORECHECKS).
Proof. destruct puppy; apply (bool_decide_unpack _); vm_compute; exact I. Qed.

Lemma check_not_in (l : list string) c :
  c ∉ l → c +:+ ".d" ∉ (λ c, c +:+ ".d") <$> l.
Proof.
  intros Hc (c' & Heq%append_inj_r & Hin)%list_elem_of_fmap. by subst.
Qed.

(** X14.  A core check is staged as a copy of its source.  After a run
    that succeeded, and unless an overlay ships a [conf.d] of its own,
    every path below [conf.d/<check>.d] in the output root holds what the
    same path holds below [cmd/agent/dist/conf.d/<check>.d]: a regular
    file with the same content, a directory, or nothing; except the paths
    with a component that starts with [.nfs], which are not staged. *)
Theorem check_directories_staged_as_copies h tags dev puppy S S' c q :
  refresh_assets h tags dev puppy S = (S', ok) →
  c ∈ (if negb puppy then AGENT_CORECHECKS else PUPPY_CORECHECKS) →
  listed "conf.d" (entries_of (node_at ["pkg"; "status"; "dist"] S)) = None →
  (dev = true →
   listed "conf.d" (entries_of (node_at ["dev"; "dist"] S)) = None) →
  if no_nfs q
  then shape (node_at (dist_folder ++ conf_d c ++ q) S') =
       shape (node_at (agent_dist ++ conf_d c ++ q) S)
  else node_at (dist_folder ++ conf_d c ++ q) S' = None.
Proof.
  intros H Hc Hstatus Hdev.
  set (m := c +:+ ".d").
  set (A := CopyTree (agent_dist ++ conf_d c) (conf_d c)).
  pose proof (corechecks_NoDup puppy) as Hnd.
  apply list_elem_of_split in Hc as (l1 & l2 & Hsplit).
  rewrite Hsplit in Hnd.
  apply NoDup_app in Hnd as (_ & Hl1 & [Hl2 _]%NoDup_cons).
  assert (c ∉ l1) as Hc1 by (intros ?; eapply Hl1; [done|by left]).
  (* the selected entries around the one of this check *)
  assert (∃ pre post, EntriesFor h tags dev puppy = pre ++ A :: post ∧
            Forall (keeps_check S m) pre ∧ Forall (keeps_check S m) post)
    as (pre & post & HE & Hpre & Hpost).
  { exists (before_stub tags ++
            (if negb puppy then [ Relocate (agent_dist ++ ["dd-agent"]) "dd-agent" ]
             else []) ++
            (if is_linux h
             then [ CopyFile (agent_dist ++ ["system-probe.yaml"])
                             ["system-probe.yaml"] ]
             else []) ++
            [ CopyFile (agent_dist ++ ["datadog.yaml"]) ["datadog.yaml"] ] ++
            check_actions l1),
           (check_actions l2 ++
            (if bool_decide ("apm" ∈ tags)
             then [ CopyFile (agent_dist ++ ["conf.d"; "apm.yaml.default"])
                             ["conf.d"; "apm.yaml.default"] ]
             else []) ++
            [ CopyTree ["pkg"; "status"; "dist"] [];
              CopyTree ["cmd"; "agent"; "gui"; "views"] ["views"] ] ++
            (if dev then [ CopyTree ["dev"; "dist"] [] ] else [])).
    split.
    { rewrite EntriesFor_eq, Hsplit. unfold check_actions at 1.
      rewrite fmap_app, fmap_cons. fold (check_actions l1) (check_actions l2).
      fold A. unfold before_stub.
      rewrite <- !app_assoc. by rewrite <- ?app_comm_cons. }
    unfold before_stub.
    split.
    - repeat apply Forall_app_2.
      + case_bool_decide; [|done].
        repeat constructor; by apply keeps_check_misses.
      + destruct (negb puppy); [|done].
        repeat constructor. by apply keeps_check_misses.
      + destruct (is_linux h); [|done].
        repeat constructor. by apply keeps_check_misses.
      + repeat constructor. by apply keeps_check_misses.
      + by apply check_actions_keep, check_not_in.
    - repeat apply Forall_app_2.
      + by apply check_actions_keep, check_not_in.
      + case_bool_decide; [|done]. repeat constructor.
        apply keeps_check_file. symmetry. apply check_dir_not_apm.
      + repeat constructor; [by apply keeps_check_overlay|].
        by apply keeps_check_misses.
      + destruct dev; [|done]. repeat constructor.
        apply keeps_check_overlay. by apply Hdev. }
  assert (A ∈ EntriesFor h tags dev puppy) as HA
    by (rewrite HE, elem_of_app, elem_of_cons; auto).
  pose proof (selected_sources_present _ _ _ _ _ _ _ H HA) as Hsrc.
  cbn [source_present A] in Hsrc.
  destruct (node_at (agent_dist ++ conf_d c) S) as [[x|cs]|] eqn:Es; try done.
  destruct (refresh_assets_keys _ _ _ _ _ _ H) as (B' & D' & Hv & Hk & _ & _).
  specialize (Hk "conf.d"). rewrite HE in Hk.
  destruct (key_run_check _ _ _ _ _ _ _ Es Hpre Hpost Hk) as (V & HV & HD).
  pose proof (copy_shape q _ _ _ HV) as Hshape.
  rewrite (app_assoc agent_dist), (node_at_app (agent_dist ++ conf_d c)), Es.
  rewrite node_at_app, (view_dist _ _ _ Hv). unfold conf_d. cbn [app].
  rewrite node_at_cons_Dir.
  assert (is_Some V) as [v ->] by (by eapply copy_node_some).
  destruct (get "conf.d" D') as [[y|es]|]; try done.
  cbn [entries_of] in HD. rewrite node_at_cons_Dir. fold m. rewrite HD.
  done.
Qed.

(** ** The directories at the top of the output root *)

Lemma EntriesFor_NoDup h tags dev puppy : NoDup (EntriesFor h tags dev puppy).
Proof.
  rewrite EntriesFor_eq.
  destruct (bool_decide ("python" ∈ tags)), puppy, (is_linux h),
    (bool_decide ("apm" ∈ tags)), dev;
    apply (bool_decide_unpack _); vm_compute; exact I.
Qed.

Lemma key_run_kept S acts k o o' :
  Forall (λ a, ∀ o1 o1', key_step S a k o1 = (o1', ok) → o1' = o1) acts →
  key_run S acts k o = (o', ok) → o' = o.
Proof.
  intros Hk. revert o. induction Hk as [|a acts Ha _ IH]; intros o H; simpl in H.
  - by injection H as <-.
  - destruct (key_step S a k o) as [o1 [e|[]]] eqn:E; [done|].
    by rewrite (IH _ H), (Ha _ _ E).
Qed.

Lemma key_run_once S acts k A o o' :
  NoDup acts → A ∈ acts →
  (∀ a, a ∈ acts → a = A ∨ ∀ o1 o1', key_step S a k o1 = (o1', ok) → o1' = o1) →
  key_run S acts k o = (o', ok) → key_step S A k o = (o', ok).
Proof.
  intros Hnd (pre & post & ->)%list_elem_of_split Hacts.
  apply NoDup_app in Hnd as (_ & Hpre & [Hpost _]%NoDup_cons).
  rewrite key_run_app.
  destruct (key_run S pre k o) as [o1 [e|[]]] eqn:E1; [done|].
  apply key_run_kept in E1 as ->.
  2: { apply Forall_forall. intros a Ha.
       destruct (Hacts a) as [->|?]; [set_solver| |done].
       destruct (Hpre A Ha). by left. }
  cbn [key_run]. destruct (key_step S A k o) as [o2 [e|[]]] eqn:E2; [done|].
  intros ->%key_run_kept; [done|].
  apply Forall_forall. intros a Ha.
  destruct (Hacts a) as [->|?]; [set_solver|done|done].
Qed.

(** X15.  A directory that the manifest copies to the top of the output
    root ([checks], [utils], [views]) is staged as a copy of its source:
    after a run that succeeded, and unless an overlay ships an entry of
    that name, every path below it holds what the same path holds in the
    source (a regular file with the same content, a directory, or
    nothing), except the paths with a component that starts with [.nfs],
    which are not staged. *)
Theorem top_level_directories_staged_as_copies h tags dev puppy S S' tr src k q :
  refresh_assets h tags dev puppy S = (S', ok) →
  (tr, CopyTree src [k]) ∈ manifest → selected h tags dev puppy tr = true →
  listed k (entries_of (node_at ["pkg"; "status"; "dist"] S)) = None →
  (dev = true → listed k (entries_of (node_at ["dev"; "dist"] S)) = None) →
  if no_nfs q
  then shape (node_at (dist_folder ++ k :: q) S') = shape (node_at (src ++ q) S)
  else node_at (dist_folder ++ k :: q) S' = None.
Proof.
  intros H Hin Hsel Hstatus Hdev.
  assert (CopyTree src [k] ∈ EntriesFor h tags dev puppy) as HA
    by (apply elem_of_EntriesFor; eauto).
  pose proof (selected_sources_present _ _ _ _ _ _ _ H HA) as Hsrc.
  cbn [source_present] in Hsrc.
  destruct (node_at src S) as [[x|cs]|] eqn:Es; try done.
  destruct (refresh_assets_keys _ _ _ _ _ _ H) as (B' & D' & Hv & Hk & _ & _).
  specialize (Hk k).
  apply (key_run_once _ _ _ _ _ _ (EntriesFor_NoDup _ _ _ _) HA) in Hk.
  - cbn [key_step] in Hk. rewrite decide_True, Es in Hk by done.
    cbn [walk] in Hk. pose proof (copy_shape q _ _ _ Hk) as Hshape.
    rewrite (node_at_app src), Es.
    by rewrite node_at_app, (view_dist _ _ _ Hv), node_at_cons_Dir.
  - intros a (tr' & Hin' & Hsel')%elem_of_EntriesFor.
    clear Hk Hv H HA Es. unfold manifest in Hin, Hin'. cbn in Hin, Hin'.
    unfold check_entry in Hin, Hin'.
    repeat (apply elem_of_cons in Hin as [Hin|Hin];
            [first [discriminate Hin | injection Hin as -> -> ->]|]);
      try by apply elem_of_nil in Hin.
    all: repeat (apply elem_of_cons in Hin' as [Hin'|Hin'];
            [injection Hin' as -> ->; cbn [selected] in Hsel';
             first [ by left
                   | right; apply key_step_keeps;
                     first [ left; simpl; discriminate
                           | right; eexists; split; [done|]; done
                           | right; eexists; split; [done|]; by apply Hdev ] ] |]);
         by apply elem_of_nil in Hin'.
Qed.

(** ** The default of the trace agent *)

Lemma node_at_confd D m :
  node_at ["conf.d"; m] (Dir D) = get m (entries_of (get "conf.d" D)).
Proof.
  rewrite node_at_cons_Dir. destruct (get "conf.d" D) as [[x|es]|]; try done.
  rewrite node_at_cons_Dir. cbn [entries_of]. by destruct (get m es).
Qed.

Lemma key_step_check_file S src m x o o' :
  node_at src S = Some (File x) →
  get m (entries_of o) = None →
  key_step S (CopyFile src ["conf.d"; m]) "conf.d" o = (o', ok) →
  get m (entries_of o') = Some (File x).
Proof.
  intros Hs Hm. cbn [key_step]. rewrite decide_True, Hs by done. cbn [walk].
  destruct o as [[y|es]|]; try done. cbn [entries_of] in Hm.
  destruct (on_entry m _ es) as [es' r] eqn:E. intros [= <- ->].
  apply on_entry_result in E. rewrite Hm in E. cbn in E.
  cbn [entries_of]. by injection E as <-.
Qed.

(** X16.  The default configuration of the trace agent follows the [apm]
    tag.  After a run that succeeded, and unless an overlay ships a [conf.d]
    of its own, [conf.d/apm.yaml.default] is staged with the content of its
    source if [apm] is among the tags, and is not staged at all if it is
    not. *)
Theorem apm_default_follows_the_tag h tags dev puppy S S' :
  refresh_assets h tags dev puppy S = (S', ok) →
  listed "conf.d" (entries_of (node_at ["pkg"; "status"; "dist"] S)) = None →
  (dev = true →
   listed "conf.d" (entries_of (node_at ["dev"; "dist"] S)) = None) →
  if bool_decide ("apm" ∈ tags)
  then ∃ x,
    node_at (agent_dist ++ ["conf.d"; "apm.yaml.default"]) S = Some (File x) ∧
    node_at (dist_folder ++ ["conf.d"; "apm.yaml.default"]) S' = Some (File x)
  else node_at (dist_folder ++ ["conf.d"; "apm.yaml.default"]) S' = None.
Proof.
  intros H Hstatus Hdev.
  set (m := "apm.yaml.default").
  set (A := CopyFile (agent_dist ++ ["conf.d"; m]) ["conf.d"; m]).
  set (pre := before_stub tags ++
        (if negb puppy then [ Relocate (agent_dist ++ ["dd-agent"]) "dd-agent" ]
         else []) ++
        (if is_linux h
         then [ CopyFile (agent_dist ++ ["system-probe.yaml"])
                         ["system-probe.yaml"] ]
         else []) ++
        [ CopyFile (agent_dist ++ ["datadog.yaml"]) ["datadog.yaml"] ] ++
        check_actions (if negb puppy then AGENT_CORECHECKS else PUPPY_CORECHECKS)).
  set (post := [ CopyTree ["pkg"; "status"; "dist"] [];
                 CopyTree ["cmd"; "agent"; "gui"; "views"] ["views"] ] ++
               (if dev then [ CopyTree ["dev"; "dist"] [] ] else [])).
  assert (EntriesFor h tags dev puppy =
          pre ++ (if bool_decide ("apm" ∈ tags) then [A] else []) ++ post) as HE.
  { rewrite EntriesFor_eq. unfold pre, post, before_stub.
    by rewrite <- !app_assoc. }
  assert (Forall (keeps_check S m) pre) as Hpre.
  { unfold pre, before_stub. repeat apply Forall_app_2.
    - destruct (bool_decide ("python" ∈ tags)); [|done].
      repeat constructor; by apply keeps_check_misses.
    - destruct (negb puppy); [|done].
      repeat constructor. by apply keeps_check_misses.
    - destruct (is_linux h); [|done].
      repeat constructor. by apply keeps_check_misses.
    - repeat constructor. by apply keeps_check_misses.
    - unfold check_actions. apply Forall_fmap, Forall_forall.
      intros c _. apply keeps_check_tree, check_dir_not_apm. }
  assert (Forall (keeps_check S m) post) as Hpost.
  { unfold post. apply Forall_app_2.
    - repeat constructor; [by apply keeps_check_overlay|].
      by apply keeps_check_misses.
    - destruct dev; [|done]. repeat constructor.
      apply keeps_check_overlay. by apply Hdev. }
  destruct (refresh_assets_keys _ _ _ _ _ _ H) as (B' & D' & Hv & Hk & _ & _).
  specialize (Hk "conf.d"). rewrite HE, key_run_app in Hk.
  destruct (key_run S pre "conf.d" None) as [o1 [e|[]]] eqn:E1; [done|].
  apply (key_run_keeps _ m) in E1; [|done]. cbn [entries_of get] in E1.
  rewrite key_run_app in Hk.
  assert (∀ q, node_at (dist_folder ++ "conf.d" :: q) S' =
               node_at ("conf.d" :: q) (Dir D')) as Hat
    by (intros q; by rewrite node_at_app, (view_dist _ _ _ Hv)).
  case_bool_decide as Hapm.
  - assert (A ∈ EntriesFor h tags dev puppy) as HA.
    { rewrite HE, !elem_of_app. right; left. by left. }
    destruct (selected_sources_present _ _ _ _ _ _ _ H HA) as [x Hx].
    exists x. split; [done|].
    cbn [key_run] in Hk.
    destruct (key_step S A "conf.d" o1) as [o2 [e|[]]] eqn:E2; [done|].
    apply (key_step_check_file _ _ _ _ _ _ Hx E1) in E2.
    apply (key_run_keeps _ m) in Hk; [|done].
    by rewrite Hat, node_at_confd, Hk.
  - cbn [key_run] in Hk. apply (key_run_keeps _ m) in Hk; [|done].
    by rewrite Hat, node_at_confd, Hk.
Qed.

(** ** Staging comes last *)

(** X17.  [build] stages the assets after the compiler and the generator
    have both returned.  With commands that leave the output root alone,
    if the compiler fails whatever the tags, or the generator fails, then
    [build] fails and the output root is as it was: the assets of the
    previous build are still there, with or without [skip_assets]. *)
Theorem failed_compile_keeps_the_assets cat ctx
    h rebuild race inc exc puppy development precompile_only skip_assets S :
  (∀ cmd e S, node_at dist_folder (ctx_run ctx cmd e S).1 = node_at dist_folder S) →
  (∀ tags e S,
     (ctx_run ctx (go_build_cmd ctx rebuild race precompile_only tags) e S).2 ≠ ok) ∨
  (∀ e S,
     (ctx_run ctx ("go generate " +:+ REPO_PATH ctx +:+ "/cmd/agent") e S).2 ≠ ok) →
  (build cat ctx h rebuild race inc exc puppy development precompile_only
         skip_assets S).2 ≠ ok ∧
  node_at dist_folder
    (build cat ctx h rebuild race inc exc puppy development precompile_only
           skip_assets S).1 = node_at dist_folder S.
Proof.
  intros Hrun Hfail.
  remember (build cat ctx h rebuild race inc exc puppy development
              precompile_only skip_assets S) as R eqn:HR.
  unfold build in HR.
  assert (node_at dist_folder
            (when (bool_decide (sys_platform h = "win32"))
                  (windows_resources ctx) S).1 = node_at dist_folder S) as Hwin.
  { destruct (bool_decide _); [|done]. cbn [when].
    unfold windows_resources.
    destruct (split_on "." (version_numeric_only ctx)) as [|a [|b [|c [|]]]];
      try done.
    unfold bind.
    pose proof (Hrun "windmc --target pe-x86-64 -r cmd/agent cmd/agent/agentmsg.mc "
                  (env ctx) S) as H1.
    destruct (ctx_run ctx _ (env ctx) S) as [S1 [e|[]]]; [done|].
    cbn [fst] in *. by rewrite Hrun. }
  unfold bind at 1 in HR.
  destruct (when _ _ S) as [S1 [e|[]]]; [by subst R|]. cbn [fst] in Hwin.
  unfold bind at 1 in HR.
  destruct (resolve_build_tags cat h inc exc puppy) as [e|tags];
    [by subst R|]. cbn [lift ret] in HR.
  unfold bind at 1 in HR.
  pose proof (Hrun (go_build_cmd ctx rebuild race precompile_only tags)
                (env ctx) S1) as H2.
  destruct (ctx_run ctx (go_build_cmd ctx rebuild race precompile_only tags)
              (env ctx) S1) as [S2 [e|[]]] eqn:E2.
  { subst R. cbn [fst snd] in *. split; [done | congruence]. }
  cbn [fst] in H2.
  destruct Hfail as [Hfail|Hfail].
  { specialize (Hfail tags (env ctx) S1). by rewrite E2 in Hfail. }
  unfold bind at 1 in HR.
  pose proof (Hrun ("go generate " +:+ REPO_PATH ctx +:+ "/cmd/agent")
                (<["GOOS" := EmptyString]> (<["GOARCH" := EmptyString]> (env ctx)))
                S2) as H3.
  specialize (Hfail (<["GOOS" := EmptyString]> (<["GOARCH" := EmptyString]> (env ctx)))
                S2).
  destruct (ctx_run ctx _ _ S2) as [S3 [e|[]]]; [|done].
  subst R. cbn [fst snd] in *. split; [done | congruence].
Qed.

(** ** When staging succeeds *)

(** Induction on a tree, with the property at hand for every entry of a
    directory. *)
Lemma node_tree_ind (P : node → Prop) :
  (∀ x, P (File x)) →
  (∀ cs, Forall (λ e, P e.2) cs → P (Dir cs)) →
  ∀ c, P c.
Proof.
  intros HF HD.
  fix IH 1. intros [x|cs]; [apply HF|]. apply HD.
  induction cs as [|[m c] cs IHcs]; constructor; [apply IH | apply IHcs].
Qed.

Lemma listed_elem k cs c : listed k cs = Some c → (k, c) ∈ cs.
Proof.
  unfold listed. destruct (String.prefix ".nfs" k); [done|].
  induction cs as [|[m c'] cs IH]; simpl; [done|].
  case_decide; [intros [= <-]; subst; by left|]. intros ?. right. auto.
Qed.

Lemma copy_loop_ok copy seen cs ds :
  (∀ k c, k ∉ seen → listed k cs = Some c → (copy k c (get k ds)).2 = ok) →
  (copy_loop copy seen cs ds).2 = ok.
Proof.
  revert seen ds. induction cs as [|[m c] cs IH]; intros seen ds H; simpl; [done|].
  destruct (decide (m ∈ seen)) as [Hm|Hm].
  { apply IH. intros k c' Hk Hl. apply H; [done|].
    rewrite listed_cons, decide_False; [done|]. by intros ->. }
  destruct (String.prefix ".nfs" m) eqn:Enfs.
  { apply IH. intros k c' Hk Hl. apply H; [set_solver|].
    rewrite listed_cons, decide_False; [done|]. set_solver. }
  destruct (on_entry m (copy m c) ds) as [ds1 r] eqn:E.
  assert (r = ok) as ->.
  { apply on_entry_result in E.
    specialize (H m c Hm). rewrite listed_cons, decide_True, Enfs in H by done.
    specialize (H eq_refl). by rewrite E in H. }
  apply IH. intros k c' Hk Hl.
  rewrite (on_entry_other k _ _ _ _ _ E) by set_solver.
  apply H; [set_solver|].
  rewrite listed_cons, decide_False; [done|]. set_solver.
Qed.

(** Onto a missing entry every copy succeeds. *)
Lemma copy_fresh c : ∀ n, (copy_node n c None).2 = ok.
Proof.
  induction c as [x|cs IH] using node_tree_ind; intros n; [done|].
  cbn [copy_node entries_of].
  destruct (copy_loop copy_node [] cs []) as [ds r] eqn:E. cbn [snd].
  change r with (ds, r).2. rewrite <- E. apply copy_loop_ok.
  intros k c _ Hl. cbn [get]. apply listed_elem in Hl.
  rewrite Forall_forall in IH. apply (IH (k, c) Hl).
Qed.

Lemma on_entry_snd n T es : (on_entry n T es).2 = (T (get n es)).2.
Proof. unfold on_entry. by destruct (T (get n es)). Qed.

Lemma dist_entry_result mk p f S B D :
  view S B D →
  (at_entry mk (dist_folder ++ p) f S).2 = (walk mk p f "dist" (Some (Dir D))).2.
Proof.
  intros [HB HD]. change (dist_folder ++ p) with (BIN_PATH ++ "dist" :: p).
  by rewrite (at_entry_result _ _ _ _ _ _ _ HB), HD.
Qed.

Lemma walk_cons_snd mk h p f n D :
  (walk mk (h :: p) f n (Some (Dir D))).2 = (walk mk p f h (get h D)).2.
Proof.
  cbn [walk]. rewrite <- on_entry_snd.
  by destruct (on_entry h (walk mk p f h) D).
Qed.

(** An action succeeds where it succeeds on every entry of the output
    root. *)
Lemma exec_ok S B D a :
  view S B D → well_formed a → (∀ k, ¬ relocates a k) →
  (∀ k, (key_step S a k (get k D)).2 = ok) →
  ∃ S', exec a S = (S', ok).
Proof.
  intros Hv Hwf Hrel Hk.
  assert ((exec a S).2 = ok) as Hr; [|destruct (exec a S) as [S' r]; by exists S'; simpl in Hr; subst].
  destruct a as [src [|h p]|src [|h p]|src name]; cbn [exec].
  - unfold copy_tree. pose proof (Hk EmptyString) as H0. cbn [key_step] in Hk, H0.
    destruct (node_at src S) as [[x|cs]|]; try done. clear H0.
    cbn [copy_tree_from]. rewrite app_nil_r.
    rewrite <- (app_nil_r dist_folder), (dist_entry_result _ _ _ _ _ _ Hv).
    cbn [walk copy_node entries_of].
    destruct (copy_loop copy_node [] cs D) as [ds r] eqn:E. cbn [snd].
    change r with (ds, r).2. rewrite <- E. apply copy_loop_ok.
    intros k c _ Hl. specialize (Hk k). by rewrite Hl in Hk.
  - unfold copy_tree. specialize (Hk h). cbn [key_step] in Hk.
    rewrite decide_True in Hk by done.
    destruct (node_at src S) as [[x|cs]|]; try done. cbn [copy_tree_from].
    by rewrite (dist_entry_result _ _ _ _ _ _ Hv), walk_cons_snd.
  - by destruct Hwf.
  - unfold shutil_copy. specialize (Hk h). cbn [key_step] in Hk.
    rewrite decide_True in Hk by done.
    destruct (node_at src S) as [[x|cs]|]; try done. cbn [shutil_copy_from].
    by rewrite (dist_entry_result _ _ _ _ _ _ Hv), walk_cons_snd.
  - by destruct (Hrel name).
Qed.

Lemma key_run_ok_cons S a acts k o :
  (key_run S (a :: acts) k o).2 = ok →
  (key_step S a k o).2 = ok ∧ (key_run S acts k (key_step S a k o).1).2 = ok.
Proof. simpl. by destruct (key_step S a k o) as [o' [e|[]]]. Qed.

Lemma key_run_ok_app S l1 l2 k o :
  (key_run S (l1 ++ l2) k o).2 = ok →
  (key_run S l1 k o).2 = ok ∧ (key_run S l2 k (key_run S l1 k o).1).2 = ok.
Proof. rewrite key_run_app. by destruct (key_run S l1 k o) as [o' [e|[]]]. Qed.

(** A list of actions that relocate nothing succeeds where it succeeds on
    every entry of the output root. *)
Lemma run_ok acts S B D :
  view S B D → Forall well_formed acts →
  (∀ a k, a ∈ acts → ¬ relocates a k) →
  (∀ k, (key_run S acts k (get k D)).2 = ok) →
  ∃ S', for_each acts exec S = (S', ok).
Proof.
  intros Hv Hwf. revert S B D Hv.
  induction Hwf as [|a acts Ha Hwf IH]; intros S B D Hv Hrel Hk; simpl.
  { by exists S. }
  destruct (exec_ok _ _ _ a Hv Ha (λ k, Hrel a k ltac:(by left))) as [S1 E1].
  { intros k. specialize (Hk k). by apply key_run_ok_cons in Hk as [? _]. }
  unfold bind. rewrite E1.
  destruct (exec_keys _ _ _ _ _ Hv Ha E1) as (B1 & D1 & Hv1 & Hk1 & Hfr1 & _).
  apply (IH _ _ _ Hv1).
  - intros a' k ?. apply Hrel. by right.
  - intros k. rewrite (key_run_frame S S1) by done.
    specialize (Hk k). apply key_run_ok_cons in Hk as [_ Hk].
    by rewrite Hk1 in Hk.
Qed.

(** *** Entry by entry *)

Lemma passes_misses S k a : misses a k → passes S k a.
Proof. intros Hm. split; intros; by rewrite key_step_misses. Qed.

Lemma passes_relocate S k src name : passes S k (Relocate src name).
Proof. split; intros; cbn [key_step]; by case_decide. Qed.

Lemma passes_overlay S k src :
  is_dir (node_at src S) = true →
  listed k (entries_of (node_at src S)) = None →
  passes S k (CopyTree src []).
Proof.
  intros Hd Hl. destruct (node_at src S) as [[x|cs]|] eqn:E; try done.
  cbn [entries_of] in Hl. split; intros; cbn [key_step]; by rewrite E, Hl.
Qed.

Lemma key_run_passes S acts k :
  Forall (passes S k) acts →
  (∀ o, (key_run S acts k o).2 = ok) ∧ key_run S acts k None = (None, ok).
Proof.
  induction 1 as [|a acts [Ha1 Ha2] _ [IH1 IH2]]; [done|]. split.
  - intros o. simpl. specialize (Ha1 o).
    destruct (key_step S a k o) as [o' [e|[]]]; [done|]. apply IH1.
  - simpl. by rewrite Ha2.
Qed.

Lemma key_run_ok_once S acts k A :
  NoDup acts →
  (∀ a, a ∈ acts → a = A ∨ passes S k a) →
  (A ∈ acts → (key_step S A k None).2 = ok) →
  (key_run S acts k None).2 = ok.
Proof.
  intros Hnd Hacts HA. destruct (decide (A ∈ acts)) as [Hin|Hout].
  - specialize (HA Hin). apply list_elem_of_split in Hin as (pre & post & ->).
    apply NoDup_app in Hnd as (_ & Hpre & [Hpost _]%NoDup_cons).
    assert (Forall (passes S k) pre) as Fpre.
    { apply Forall_forall. intros a Ha.
      destruct (Hacts a) as [->|?]; [set_solver| |done].
      destruct (Hpre A Ha). by left. }
    assert (Forall (passes S k) post) as Fpost.
    { apply Forall_forall. intros a Ha.
      destruct (Hacts a) as [->|?]; [set_solver|done|done]. }
    rewrite key_run_app, (proj2 (key_run_passes _ _ _ Fpre)). cbn [key_run].
    destruct (key_step S A k None) as [o' [e|[]]]; [done|].
    apply (key_run_passes _ _ _ Fpost).
  - apply key_run_passes, Forall_forall. intros a Ha.
    destruct (Hacts a Ha) as [->|?]; done.
Qed.

(** One more entry under [conf.d]. *)
Lemma walk_one_fresh mk m f n seen o :
  checks_so_far seen o → (o = None → mk = true) → m ∉ seen →
  (f m None).2 = ok →
  ∃ es', walk mk [m] f n o = (Some (Dir es'), ok) ∧
         checks_so_far (m :: seen) (Some (Dir es')).
Proof.
  intros Ho Hmk Hm Hf.
  assert (∀ es, get m es = None →
            ∃ es', on_entry m (walk mk [] f m) es = (es', ok) ∧
                   ∀ m', m' ≠ m → get m' es' = get m' es) as Hon.
  { intros es Hg. destruct (on_entry m (walk mk [] f m) es) as [es' r] eqn:E.
    pose proof (on_entry_snd m (walk mk [] f m) es) as Hr.
    rewrite E, Hg in Hr. cbn [walk] in Hr. rewrite Hf in Hr. cbn [snd] in Hr. subst r.
    exists es'. split; [done|]. intros m' ?. by eapply on_entry_other. }
  change (walk mk [m] f n o) with
    (match o with
     | Some (File _) => (o, inl OSError)
     | Some (Dir es) =>
         let '(es', r) := on_entry m (walk mk [] f m) es in (Some (Dir es'), r)
     | None =>
         if mk then
           let '(es', r) := on_entry m (walk mk [] f m) [] in (Some (Dir es'), r)
         else (o, inl OSError)
     end).
  destruct o as [[x|es]|]; [done| |].
  - destruct (Hon es) as (es' & -> & Hother); [by apply Ho|].
    exists es'. split; [done|]. intros m' Hm'.
    rewrite Hother by set_solver. apply Ho. set_solver.
  - rewrite (Hmk eq_refl) in *. destruct (Hon []) as (es' & -> & Hother); [done|].
    exists es'. split; [done|]. intros m' Hm'. by rewrite Hother by set_solver.
Qed.

(** The check directories, one after the other. *)
Lemma check_run_ok S checks seen o :
  NoDup checks → (∀ c, c ∈ checks → c +:+ ".d" ∉ seen) →
  (∀ c, c ∈ checks → is_dir (node_at (agent_dist ++ conf_d c) S) = true) →
  checks_so_far seen o →
  ∃ o', key_run S (check_actions checks) "conf.d" o = (o', ok) ∧
        checks_so_far (((λ c, c +:+ ".d") <$> checks) ++ seen) o' ∧
        (checks ≠ [] → is_dir o' = true).
Proof.
  intros Hnd. revert seen o.
  induction Hnd as [|c checks Hc Hnd IH]; intros seen o Hseen Hsrc Ho.
  { exists o. by repeat split. }
  cbn [check_actions fmap list_fmap key_run].
  fold (check_actions checks).
  pose proof (Hsrc c ltac:(by left)) as Hd.
  destruct (node_at (agent_dist ++ conf_d c) S) as [[x|cs]|] eqn:Es; try done.
  cbn [key_step conf_d]. rewrite decide_True by done.
  rewrite Es.
  destruct (walk_one_fresh true (c +:+ ".d") (λ n, copy_node n (Dir cs))
              "conf.d" seen o) as (es' & -> & Ho'); [done|done| | |].
  { apply Hseen. by left. }
  { apply copy_fresh. }
  destruct (IH ((c +:+ ".d") :: seen) (Some (Dir es'))) as (o' & E & Ho'' & Hdir).
  - intros c' Hc' [Heq|?]%elem_of_cons.
    + apply append_inj_r in Heq as ->. done.
    + eapply Hseen; [by right|done].
  - intros c' ?. apply Hsrc. by right.
  - done.
  - exists o'. split; [done|]. split.
    + destruct o' as [[x|es'']|]; try done. intros m Hm. apply Ho''.
      set_solver.
    + intros _. destruct checks as [|c' checks']; [|by apply Hdir].
      cbn in E. by injection E as <-.
Qed.

(** The launcher stub: copied into the root and moved next to it. *)
Lemma relocate_ok S B D src name x :
  view S B D → apart ["bin"] src = true → name ≠ "dist" →
  node_at src S = Some (File x) → get name D = None →
  is_dir (get name B) = false →
  ∃ S' B' D', exec (Relocate src name) S = (S', ok) ∧ view S' B' D' ∧
    (∀ k, get k D' = get k D) ∧ unchanged_outside ["bin"] S S'.
Proof.
  intros Hv Hsrc Hname Hx HD HB.
  destruct (exec_ok S B D (CopyFile src [name]) Hv) as [S0 E0].
  { by split. }
  { by intros ? ?. }
  { intros k. cbn [key_step]. case_decide; [|done]. subst k.
    by rewrite Hx, HD. }
  cbn [exec] in *. unfold bind. rewrite E0.
  destruct (shutil_copy_keys _ _ [name] _ _ _ Hv ltac:(done) E0)
    as (B0 & D0 & Hv0 & Hk0 & Hfr0 & HB0).
  assert (get name D0 = Some (File x)) as Hn.
  { specialize (Hk0 name). cbn [key_step] in Hk0.
    rewrite decide_True, Hx, HD in Hk0 by done. cbn in Hk0. congruence. }
  destruct (move_stub_ok _ _ _ _ _ Hv0 Hname Hn) as [S1 E1].
  { by rewrite HB0. }
  rewrite E1.
  destruct (shutil_move_keys _ _ _ _ _ Hv0 Hname E1)
    as (B1 & c & Hv1 & _ & Hfr1 & _).
  exists S1, B1, (del name D0). split; [done|]. split; [done|]. split.
  - intros k. rewrite get_del. case_decide as Hk; [by subst|].
    specialize (Hk0 k). cbn [key_step] in Hk0.
    rewrite decide_False in Hk0 by done. congruence.
  - apply unchanged_outside_bin. by eapply unchanged_outside_trans.
Qed.

(** *** Every entry of the output root *)

Lemma corechecks_nonempty puppy :
  (if negb puppy then AGENT_CORECHECKS else PUPPY_CORECHECKS) ≠ [].
Proof. by destruct puppy. Qed.

Lemma apm_default_is_no_check puppy :
  "apm.yaml.default" ∉
    ((λ c, c +:+ ".d") <$>
       (if negb puppy then AGENT_CORECHECKS else PUPPY_CORECHECKS)) ++ [].
Proof. destruct puppy; by_evaluation. Qed.

Lemma conf_d_ok h tags dev puppy S :
  (∀ a, a ∈ EntriesFor h tags dev puppy → source_present S a) →
  overlays_apart S dev →
  (key_run S (EntriesFor h tags dev puppy) "conf.d" None).2 = ok.
Proof.
  intros Hsrc [Hov _]. destruct (Hov "conf.d") as [Hst Hdv]; [set_solver|].
  revert Hsrc. rewrite EntriesFor_eq. intros Hsrc.
  rewrite !app_assoc. rewrite <- !app_assoc.
  rewrite key_run_app, key_run_misses
    by (case_bool_decide; repeat constructor; done).
  rewrite key_run_app, key_run_misses
    by (destruct puppy; repeat constructor; done).
  rewrite key_run_app, key_run_misses
    by (destruct (is_linux h); repeat constructor; done).
  rewrite key_run_app, key_run_misses by (repeat constructor; done).
  rewrite key_run_app.
  destruct (check_run_ok S (if negb puppy then AGENT_CORECHECKS
                            else PUPPY_CORECHECKS) [] None)
    as (o1 & -> & Ho1 & Hd1).
  { apply corechecks_NoDup. }
  { intros ? ?. apply not_elem_of_nil. }
  { intros c Hc. apply (Hsrc (CopyTree (agent_dist ++ conf_d c) (conf_d c))).
    rewrite !elem_of_app. do 4 right. left.
    apply list_elem_of_fmap. by exists c. }
  { done. }
  specialize (Hd1 (corechecks_nonempty puppy)).
  rewrite key_run_app.
  assert (∃ o2, key_run S
            (if bool_decide ("apm" ∈ tags)
             then [ CopyFile (agent_dist ++ ["conf.d"; "apm.yaml.default"])
                             ["conf.d"; "apm.yaml.default"] ]
             else []) "conf.d" o1 = (o2, ok)) as [o2 ->].
  { destruct (decide ("apm" ∈ tags)) as [Hapm|Hapm];
      [rewrite bool_decide_true by done
      |rewrite bool_decide_false by done; by exists o1].
    destruct (Hsrc (CopyFile (agent_dist ++ ["conf.d"; "apm.yaml.default"])
                             ["conf.d"; "apm.yaml.default"])) as [x Hx].
    { rewrite !elem_of_app. do 5 right. left.
      rewrite bool_decide_true by done. by left. }
    cbn [key_run key_step]. rewrite decide_True, Hx by done.
    destruct (walk_one_fresh false "apm.yaml.default"
                (λ _, copy_file (List.last (agent_dist ++ ["conf.d"; "apm.yaml.default"])
                                   EmptyString) x)
                "conf.d" _ o1 Ho1) as (es' & -> & _).
    - intros ->. done.
    - apply apm_default_is_no_check.
    - done.
    - by eexists. }
  apply key_run_passes. repeat apply Forall_app_2.
  - apply Forall_cons_2; [|apply Forall_cons_2; [|constructor]].
    + apply passes_overlay; [|done].
      apply (Hsrc (CopyTree ["pkg"; "status"; "dist"] [])).
      rewrite !elem_of_app. do 6 right. left. by left.
    + by apply passes_misses.
  - destruct dev; [|constructor]. apply Forall_cons_2; [|constructor].
    apply passes_overlay; [|by apply Hdv].
    apply (Hsrc (CopyTree ["dev"; "dist"] [])).
    rewrite !elem_of_app. do 6 right. right. by left.
Qed.

Lemma provider_tree_ok S src k :
  source_present S (CopyTree src [k]) →
  (key_step S (CopyTree src [k]) k None).2 = ok.
Proof.
  cbn [source_present key_step]. intros Hd. rewrite decide_True by done.
  destruct (node_at src S) as [[x|cs]|]; try done. apply copy_fresh.
Qed.

Lemma provider_file_ok S src k :
  source_present S (CopyFile src [k]) →
  (key_step S (CopyFile src [k]) k None).2 = ok.
Proof.
  cbn [source_present key_step]. intros [x ->]. by rewrite decide_True by done.
Qed.

Lemma provider_overlay_ok S src k :
  source_present S (CopyTree src []) →
  (key_step S (CopyTree src []) k None).2 = ok.
Proof.
  cbn [source_present key_step]. intros Hd.
  destruct (node_at src S) as [[x|cs]|]; try done.
  destruct (listed k cs); [apply copy_fresh | done].
Qed.

Lemma provided_entry_ok h tags dev puppy S k A :
  (∀ a, a ∈ EntriesFor h tags dev puppy → source_present S a) →
  (∀ tr a, (tr, a) ∈ manifest → selected h tags dev puppy tr = true →
           source_present S a → a = A ∨ passes S k a) →
  (source_present S A → (key_step S A k None).2 = ok) →
  (key_run S (EntriesFor h tags dev puppy) k None).2 = ok.
Proof.
  intros Hsrc Hcl HA. apply (key_run_ok_once _ _ _ A).
  - apply EntriesFor_NoDup.
  - intros a Ha. pose proof (Hsrc a Ha) as Hp.
    apply elem_of_EntriesFor in Ha as (tr & Hin & Hsel). by eapply Hcl.
  - intros Hin. apply HA, Hsrc, Hin.
Qed.

Ltac classify Hst Hdv :=
  let tr := fresh "tr" in let a := fresh "a" in
  let Hin := fresh "Hin" in let Hsel := fresh "Hsel" in
  let Hp := fresh "Hp" in
  intros tr a Hin Hsel Hp; unfold manifest in Hin; cbn in Hin;
  repeat (apply elem_of_cons in Hin as [Hin|Hin];
    [injection Hin as -> ->;
     first [ by left
           | right; apply passes_misses; cbn; congruence
           | right; apply passes_relocate
           | right; apply passes_overlay;
             [exact Hp | first [exact Hst | by apply Hdv]] ] |]);
  by apply elem_of_nil in Hin.

(** Every entry of the output root: a run succeeds on it when the sources
    are there and the overlays keep apart. *)
Lemma entries_ok h tags dev puppy S k :
  (∀ a, a ∈ EntriesFor h tags dev puppy → source_present S a) →
  overlays_apart S dev →
  (key_run S (EntriesFor h tags dev puppy) k None).2 = ok.
Proof.
  intros Hsrc Hov. destruct (decide (k ∈ staged_names)) as [Hk|Hk].
  - pose proof Hov as [Hov1 _]. destruct (Hov1 k Hk) as [Hst Hdv].
    unfold staged_names in Hk.
    repeat (apply elem_of_cons in Hk as [->|Hk]).
    + apply (provided_entry_ok _ _ _ _ _ _
               (CopyTree (agent_dist ++ ["checks"]) ["checks"])); [done| |].
      * classify Hst Hdv.
      * apply provider_tree_ok.
    + apply (provided_entry_ok _ _ _ _ _ _
               (CopyTree (agent_dist ++ ["utils"]) ["utils"])); [done| |].
      * classify Hst Hdv.
      * apply provider_tree_ok.
    + apply (provided_entry_ok _ _ _ _ _ _
               (CopyFile (agent_dist ++ ["config.py"]) ["config.py"])); [done| |].
      * classify Hst Hdv.
      * apply provider_file_ok.
    + apply (provided_entry_ok _ _ _ _ _ _
               (CopyFile (agent_dist ++ ["system-probe.yaml"])
                         ["system-probe.yaml"])); [done| |].
      * classify Hst Hdv.
      * apply provider_file_ok.
    + apply (provided_entry_ok _ _ _ _ _ _
               (CopyFile (agent_dist ++ ["datadog.yaml"]) ["datadog.yaml"]));
        [done| |].
      * classify Hst Hdv.
      * apply provider_file_ok.
    + by apply conf_d_ok.
    + apply (provided_entry_ok _ _ _ _ _ _
               (CopyTree ["cmd"; "agent"; "gui"; "views"] ["views"])); [done| |].
      * classify Hst Hdv.
      * apply provider_tree_ok.
    + by apply elem_of_nil in Hk.
  - assert (k ≠ "checks" ∧ k ≠ "utils" ∧ k ≠ "config.py" ∧
            k ≠ "system-probe.yaml" ∧ k ≠ "datadog.yaml" ∧ k ≠ "conf.d" ∧
            k ≠ "views") as (? & ? & ? & ? & ? & ? & ?).
    { unfold staged_names in Hk. repeat split; intros ->; apply Hk; set_solver. }
    destruct Hov as [_ Hov].
    destruct (listed k (entries_of (node_at ["pkg"; "status"; "dist"] S)))
      as [c|] eqn:Hst.
    + assert (dev = true →
              listed k (entries_of (node_at ["dev"; "dist"] S)) = None) as Hdv.
      { intros Hd. apply (Hov Hd). by rewrite Hst. }
      apply (provided_entry_ok _ _ _ _ _ _
               (CopyTree ["pkg"; "status"; "dist"] [])); [done| |].
      * classify Hst Hdv.
      * apply provider_overlay_ok.
    + apply (provided_entry_ok _ _ _ _ _ _ (CopyTree ["dev"; "dist"] []));
        [done| |].
      * classify Hst Hst.
      * apply provider_overlay_ok.
Qed.

(** X18.  When [refresh_assets] succeeds.  The run succeeds from a file
    system that is clear to stage ([bin/agent] is a directory, or is
    missing inside a directory [bin]; [bin/agent/dist] is no regular file
    and [bin/agent/dd-agent] no directory) when every selected entry finds
    its source, a directory for [copy_tree] and a regular file for
    [shutil.copy], and the overlays [pkg/status/dist] and [dev/dist] ship
    none of the names staged from [cmd/agent] and no name in common. *)
Theorem staging_succeeds h tags dev puppy S :
  clear_to_stage S = true →
  (∀ tr a, (tr, a) ∈ manifest → selected h tags dev puppy tr = true →
           source_present S a) →
  overlays_apart S dev →
  ∃ S', refresh_assets h tags dev puppy S = (S', ok).
Proof.
  intros HS Hsel Hov.
  assert (∀ a, a ∈ EntriesFor h tags dev puppy → source_present S a) as Hsrc.
  { intros a (tr & ? & ?)%elem_of_EntriesFor. by eapply Hsel. }
  clear Hsel. pose proof (entries_ok h tags dev puppy S) as Hkeys.
  rewrite refresh_assets_Stage. unfold Stage, bind.
  destruct (wipe_ok _ HS) as [S0 ES]. rewrite ES.
  destruct (wipe_view _ _ ES) as (B0 & Hv0 & Hfr0 & Hk0).
  pose proof (EntriesFor_well_formed h tags dev puppy) as Hwf.
  assert (∀ k, (key_run S0 (EntriesFor h tags dev puppy) k None).2 = ok)
    as Hkeys0.
  { intros k. rewrite (key_run_frame S S0) by done. by apply Hkeys. }
  apply clear_to_stage_stub in HS as Hstub. clear Hkeys ES HS Hov.
  destruct puppy.
  { apply (run_ok _ _ B0 []); try done.
    intros a k. apply no_relocation. by left. }
  destruct (Hsrc (Relocate (agent_dist ++ ["dd-agent"]) "dd-agent")) as [x Hx].
  { rewrite EntriesFor_full. apply elem_of_app. right. by left. }
  rewrite EntriesFor_full in *. clear Hsrc.
  apply Forall_app in Hwf as [Hwf1 [Hwf2 Hwf3]%Forall_cons].
  destruct (run_ok (before_stub tags) S0 B0 [] Hv0 Hwf1) as [S1 E1].
  { intros a k. apply before_stub_plain. }
  { intros k. by destruct (key_run_ok_app _ _ _ _ _ (Hkeys0 k)). }
  rewrite for_each_app. unfold bind. rewrite E1.
  destruct (run_keys _ _ _ _ _ Hv0 Hwf1 E1) as (B1 & D1 & Hv1 & Hk1 & Hfr1 & HB1).
  assert (get "dd-agent" D1 = None) as HD1.
  { specialize (Hk1 "dd-agent").
    rewrite key_run_misses in Hk1 by apply before_stub_misses.
    by injection Hk1 as <-. }
  destruct Hwf2 as [Hapart Hname].
  destruct (relocate_ok S1 B1 D1 (agent_dist ++ ["dd-agent"]) "dd-agent" x)
    as (S2 & B2 & D2 & E2 & Hv2 & HD2 & Hfr2); try done.
  { by rewrite Hfr1, Hfr0. }
  { rewrite HB1, Hk0; try done. intros a. apply before_stub_plain. }
  cbn [for_each]. unfold bind. rewrite E2.
  apply (run_ok _ _ B2 D2); try done.
  { intros a k. apply after_stub_no_relocation. }
  intros k. rewrite (key_run_frame S0 S2), HD2
    by (done || by eapply unchanged_outside_trans).
  destruct (key_run_ok_app _ _ _ _ _ (Hkeys0 k)) as [_ Hk].
  rewrite Hk1 in Hk. apply key_run_ok_cons in Hk as [_ Hk].
  cbn [key_step fst] in Hk. case_decide; [subst k; by rewrite HD1|done].
Qed.

(** ** Concrete instances of the further properties *)

Lemma checkout_same_sources status bin bin' :
  same_sources (checkout status bin) (checkout status bin').
Proof.
  intros q Hq. apply apart_cons_inv in Hq as (a & q' & -> & [Ha|[_ ?]]); [|done].
  unfold checkout. rewrite !node_at_cons_Dir. cbn [get].
  repeat (case_decide; [done|]). done.
Qed.

Lemma staging_writes_only_its_outputs_witness :
  node_at (agent_dist ++ ["datadog.yaml"])
    (refresh_assets linux_host [] false false built_fs).1 = Some (File "dd") ∧
  node_at (BIN_PATH ++ ["agent"])
    (refresh_assets linux_host [] false false built_fs).1 = Some (File "elf") ∧
  node_at (BIN_PATH ++ ["dd-agent"])
    (refresh_assets linux_host [] false true built_fs).1 = None.
Proof.
  split; [|split].
  - etrans; [|reflexivity].
    apply (proj1 (staging_writes_only_its_outputs linux_host [] false false built_fs)).
    reflexivity.
  - etrans; [|reflexivity].
    apply (proj1 (proj2 (staging_writes_only_its_outputs
                           linux_host [] false false built_fs)) "agent" []);
      discriminate.
  - etrans; [|reflexivity].
    apply (proj2 (proj2 (staging_writes_only_its_outputs
                           linux_host [] false true built_fs)));
      reflexivity.
Defined.

Lemma staging_fails_up_front_witness :
  refresh_assets linux_host ["python"] true false (Dir []) = (Dir [], inl OSError) ∧
  refresh_assets linux_host [] false true
    (checkout [] [ ("agent", Dir [ ("dist", File "x") ]) ])
  = (checkout [] [ ("agent", Dir [ ("dist", File "x") ]) ], inl OSError).
Proof.
  split; apply staging_fails_up_front.
  - left. split; reflexivity.
  - right. right. eexists. reflexivity.
Defined.

Lemma staging_needs_its_sources_witness :
  source_present sample_fs
    (CopyFile (agent_dist ++ ["datadog.yaml"]) ["datadog.yaml"]) ∧
  source_present sample_fs (CopyTree ["pkg"; "status"; "dist"] []).
Proof.
  split.
  - eapply (staging_needs_its_sources linux_host [] false false sample_fs _ Always).
    + vm_compute; reflexivity.
    + by_evaluation.
    + reflexivity.
  - eapply (staging_needs_its_sources linux_host [] false false sample_fs _ Always).
    + vm_compute; reflexivity.
    + by_evaluation.
    + reflexivity.
Defined.

Lemma top_level_files_witness :
  ∃ S', refresh_assets linux_host [] true false sample_fs = (S', ok) ∧
    ∃ x, node_at (agent_dist ++ ["datadog.yaml"]) sample_fs = Some (File x) ∧
         node_at (dist_folder ++ ["datadog.yaml"]) S' = Some (File x).
Proof.
  eexists. split; [vm_compute; reflexivity|].
  apply (top_level_files_staged_verbatim linux_host [] true false sample_fs _ Always).
  - vm_compute; reflexivity.
  - by_evaluation.
  - reflexivity.
  - reflexivity.
  - intros _. reflexivity.
Defined.

Lemma development_overlay_witness :
  ∃ S', refresh_assets linux_host [] true false sample_fs = (S', ok) ∧
    (node_at (dist_folder ++ ["README.md"]) S' = Some (File "r") ∨
     (is_dir (node_at (dist_folder ++ ["README.md"]) S') = true ∧
      node_at (dist_folder ++ ["README.md"; "README.md"]) S' = Some (File "r"))).
Proof.
  eexists. split; [vm_compute; reflexivity|].
  apply (development_overlay_wins linux_host [] false sample_fs).
  - vm_compute; reflexivity.
  - reflexivity.
Defined.

Lemma staging_reads_sources_only_witness :
  ∃ S' T',
    refresh_assets linux_host ["python"] false false sample_fs = (S', ok) ∧
    refresh_assets linux_host ["python"] false false built_fs = (T', ok) ∧
    (∀ q, node_at (dist_folder ++ q) T' = node_at (dist_folder ++ q) S') ∧
    node_at (BIN_PATH ++ ["dd-agent"]) T' = node_at (BIN_PATH ++ ["dd-agent"]) S'.
Proof.
  destruct (staging_reads_sources_only linux_host ["python"] false false
              sample_fs built_fs
              (refresh_assets linux_host ["python"] false false sample_fs).1 ok
              (checkout_same_sources _ _ _) eq_refl eq_refl
              ltac:(vm_compute; reflexivity))
    as (T' & HT & Hq & Hs).
  eexists _, T'. split; [vm_compute; reflexivity|]. split; [exact HT|].
  split; [exact Hq | exact (Hs eq_refl eq_refl)].
Defined.


Lemma build_writes_through_commands_witness :
  node_at ["cmd"]
    (build sample_catalog (sample_context silent_run) linux_host false false
           None None false true false false sample_fs).1
  = node_at ["cmd"] sample_fs.
Proof.
  apply build_writes_through_commands; [reflexivity|].
  intros cmd e S. reflexivity.
Defined.

Lemma run_writes_through_commands_witness :
  node_at ["cmd"]
    (run sample_catalog (sample_context silent_run) linux_host "agent"
         false false None (Some "systemd") false false sample_fs).1
  = node_at ["cmd"] sample_fs.
Proof.
  apply run_writes_through_commands; [reflexivity|].
  intros cmd e S. reflexivity.
Defined.


Lemma platform_checks_witness :
  ["docker"] `prefix_of` platform_exclude sample_catalog darwin_host ["docker"] ∧
  NoDup (platform_exclude sample_catalog darwin_host ["docker"]).
Proof.
  split.
  - apply (platform_checks_only_append sample_catalog darwin_host ["docker"]).
  - apply (platform_checks_only_append sample_catalog darwin_host ["docker"]).
    by_evaluation.
Defined.

Lemma tag_options_witness :
  include_list (Some (join "," ["docker"; "systemd"])) = ["docker"; "systemd"] ∧
  exclude_list (Some (join "," ["docker"; "systemd"])) = ["docker"; "systemd"].
Proof.
  apply (proj1 tag_options_round_trip ["docker"; "systemd"]).
  - discriminate.
  - repeat constructor.
Defined.

Lemma omnibus_lock_file_witness :
  node_at ["omnibus"; "Gemfile.lock"]
    (omnibus_build (sample_context silent_run) quiet_collaborators linux_host
       false "info" None None false false "nightly" false locked_fs).1
    = Some (File "there") ∧
  (omnibus_build (sample_context silent_run) quiet_collaborators linux_host
     false "info" None None false false "nightly" false locked_fs).2 = ok ∧
  node_at ["Gemfile.lock"]
    (omnibus_build (sample_context silent_run) quiet_collaborators linux_host
       false "info" None None false false "nightly" false locked_fs).1
    ≠ Some (File "here").
Proof.
  assert (∀ q, collaborators_leave (sample_context silent_run)
                 quiet_collaborators q) as Hleave
    by (intros q; repeat split; intros; reflexivity).
  assert (collaborators_return (sample_context silent_run) quiet_collaborators)
    as Hret by (repeat split; intros; try eexists; reflexivity).
  pose proof (omnibus_build_clears_the_local_lock_file
                (sample_context silent_run) quiet_collaborators linux_host
                false "info" None None false false "nightly" false locked_fs)
    as [H1 H2].
  split; [|split].
  - etrans; [|reflexivity]. apply H1; [reflexivity | apply Hleave].
  - apply (H2 Hret).
  - apply (proj2 (H2 Hret) (Hleave _)).
Defined.

Lemma check_directories_witness :
  shape (node_at (dist_folder ++ conf_d "cpu" ++ ["conf.yaml.default"])
           (refresh_assets linux_host [] false false sample_fs).1)
  = Some (Some "x").
Proof.
  etrans; [|reflexivity].
  apply (check_directories_staged_as_copies linux_host [] false false sample_fs
           (refresh_assets linux_host [] false false sample_fs).1
           "cpu" ["conf.yaml.default"]).
  - vm_compute; reflexivity.
  - by_evaluation.
  - reflexivity.
  - intros _. reflexivity.
Defined.

Lemma top_level_directories_witness :
  shape (node_at (dist_folder ++ ["views"; "index.html"])
           (refresh_assets linux_host [] false false sample_fs).1)
  = Some (Some "x").
Proof.
  etrans; [|reflexivity].
  apply (top_level_directories_staged_as_copies linux_host [] false false
           sample_fs (refresh_assets linux_host [] false false sample_fs).1
           Always ["cmd"; "agent"; "gui"; "views"] "views" ["index.html"]).
  - vm_compute; reflexivity.
  - by_evaluation.
  - reflexivity.
  - reflexivity.
  - intros _. reflexivity.
Defined.

Lemma apm_default_witness :
  (∃ x,
     node_at (agent_dist ++ ["conf.d"; "apm.yaml.default"]) sample_fs
       = Some (File x) ∧
     node_at (dist_folder ++ ["conf.d"; "apm.yaml.default"])
       (refresh_assets linux_host ["apm"] false false sample_fs).1
       = Some (File x)) ∧
  node_at (dist_folder ++ ["conf.d"; "apm.yaml.default"])
    (refresh_assets linux_host ["python"] false false sample_fs).1 = None.
Proof.
  split.
  - apply (apm_default_follows_the_tag linux_host ["apm"] false false sample_fs
             (refresh_assets linux_host ["apm"] false false sample_fs).1).
    + vm_compute; reflexivity.
    + reflexivity.
    + intros _. reflexivity.
  - apply (apm_default_follows_the_tag linux_host ["python"] false false sample_fs
             (refresh_assets linux_host ["python"] false false sample_fs).1).
    + vm_compute; reflexivity.
    + reflexivity.
    + intros _. reflexivity.
Defined.

Lemma failed_compile_witness :
  (build sample_catalog (sample_context failing_run) linux_host false false
         None None false true false false built_fs).2 ≠ ok ∧
  node_at dist_folder
    (build sample_catalog (sample_context failing_run) linux_host false false
           None None false true false false built_fs).1
  = Some (Dir [ ("stale", File "s") ]).
Proof.
  destruct (failed_compile_keeps_the_assets sample_catalog
              (sample_context failing_run) linux_host false false None None
              false true false false built_fs) as [H1 H2].
  - intros cmd e S. reflexivity.
  - left. intros tags e S. discriminate.
  - split; [exact H1|]. etrans; [exact H2 | reflexivity].
Defined.

Lemma sample_sources_present tr a :
  (tr, a) ∈ manifest → source_present sample_fs a.
Proof.
  intros Hin. unfold manifest in Hin. cbn in Hin.
  repeat (apply elem_of_cons in Hin as [Hin|Hin];
    [injection Hin as -> ->; first [reflexivity | by eexists] |]).
  by apply elem_of_nil in Hin.
Qed.

Lemma sample_overlays_apart : overlays_apart sample_fs true.
Proof.
  split.
  - intros k Hk. unfold staged_names in Hk.
    repeat (apply elem_of_cons in Hk as [->|Hk]; [by split|]).
    by apply elem_of_nil in Hk.
  - intros _ k. unfold listed. destruct (String.prefix ".nfs" k); [done|].
    change (entries_of (node_at ["pkg"; "status"; "dist"] sample_fs))
      with [("templates", leaf "t.tmpl")].
    change (entries_of (node_at ["dev"; "dist"] sample_fs))
      with [("README.md", File "r")].
    cbn [get]. repeat case_decide; subst; try done.
Qed.

Lemma staging_succeeds_witness :
  ∃ S', refresh_assets linux_host ["python"; "apm"] true false sample_fs
        = (S', ok).
Proof.
  apply (staging_succeeds linux_host ["python"; "apm"] true false sample_fs).
  - reflexivity.
  - intros tr a Hin _. exact (sample_sources_present tr a Hin).
  - exact sample_overlays_apart.
Defined.
